(** * gbdx-py: the OAuth2 token lifecycle of [gbdx/gbdx_auth.py] and the
    thumbnail helper of [gbdx/core.py], as a shallow embedding.

    Python strings are [string] (a sequence of 8-bit characters), dicts
    keyed by strings are [gmap string _] where iteration order plays no
    role and association lists where it does (ConfigParser keeps its
    sections and options in insertion order).  Code with effects
    (environment, files, clock, network) runs in a state-and-exception
    monad over a [World], which also records the network calls and file
    writes in a trace.

    The program is Python 2.  What it uses of the standard library
    ([str] methods, [base64], [json], [ConfigParser], [os.path]) and of
    [requests_oauthlib] is modelled first, then come the functions of
    [gbdx_auth.py] and [core.py], the vocabulary of the properties, and
    the properties themselves.  Times are whole seconds. *)

From Stdlib Require Import ZArith List Ascii String Lia.
From Stdlib Require Import DecimalString DecimalZ.
From stdpp Require Import gmap strings.
Import ListNotations.

Local Open Scope Z_scope.

(** ** Python built-ins on [str] *)

Module str.

(** [s.split(sep)] for a one-character separator: never empty, one more
    piece than there are separators. *)
Fixpoint split (sep : ascii) (s : string) : list string :=
  match s with
  | EmptyString => [EmptyString]
  | String c r =>
      if Ascii.eqb c sep then EmptyString :: split sep r
      else match split sep r with
           | h :: t => String c h :: t
           | [] => [String c EmptyString]
           end
  end.

(** [sep.join(l)] *)
Fixpoint join (sep : string) (l : list string) : string :=
  match l with
  | [] => EmptyString
  | [x] => x
  | x :: r => x +:+ sep +:+ join sep r
  end.

(** [c in s] for a character [c] *)
Fixpoint contains (c : ascii) (s : string) : bool :=
  match s with
  | EmptyString => false
  | String a r => Ascii.eqb a c || contains c r
  end.

(** some character of [s] satisfies [p] *)
Fixpoint contains_where (p : ascii -> bool) (s : string) : bool :=
  match s with
  | EmptyString => false
  | String a r => p a || contains_where p r
  end.

(** [s.startswith(p)] *)
Fixpoint startswith (p s : string) : bool :=
  match p, s with
  | EmptyString, _ => true
  | String a p', String b s' => Ascii.eqb a b && startswith p' s'
  | String _ _, EmptyString => false
  end.

(** [p in s] for a text [p] *)
Fixpoint contains_sub (p s : string) : bool :=
  startswith p s ||
  match s with
  | EmptyString => false
  | String _ r => contains_sub p r
  end.

(** [c.isspace()]: blank, tab, line feed, vertical tab, form feed,
    carriage return. *)
Definition isspace (c : ascii) : bool := Ascii.is_space c.

Fixpoint lstrip (s : string) : string :=
  match s with
  | String c r => if isspace c then lstrip r else s
  | EmptyString => EmptyString
  end.

Fixpoint rstrip (s : string) : string :=
  match s with
  | EmptyString => EmptyString
  | String c r =>
      match rstrip r with
      | EmptyString => if isspace c then EmptyString else String c EmptyString
      | r' => String c r'
      end
  end.

Definition strip (s : string) : string := rstrip (lstrip s).

(** [s.rstrip(c)] for one character *)
Fixpoint rstrip_char (x : ascii) (s : string) : string :=
  match s with
  | EmptyString => EmptyString
  | String c r =>
      match rstrip_char x r with
      | EmptyString => if Ascii.eqb c x then EmptyString else String c EmptyString
      | r' => String c r'
      end
  end.

(** [s.lower()] in the C locale: only A-Z change. *)
Definition lower_char (c : ascii) : ascii :=
  let n := N_of_ascii c in
  if ((65 <=? n) && (n <=? 90))%N then ascii_of_N (n + 32) else c.

Fixpoint lower (s : string) : string :=
  match s with
  | EmptyString => EmptyString
  | String c r => String (lower_char c) (lower r)
  end.

(** [s[:i]] and [s[i:]] at the first character satisfying [p], or the
    whole text and nothing when there is none. *)
Fixpoint break (p : ascii -> bool) (s : string) : string * string :=
  match s with
  | EmptyString => (EmptyString, EmptyString)
  | String c r =>
      if p c then (EmptyString, s)
      else let '(a, b) := break p r in (String c a, b)
  end.

(** the last character, [s[-1]] *)
Fixpoint last (s : string) : option ascii :=
  match s with
  | EmptyString => None
  | String c EmptyString => Some c
  | String _ r => last r
  end.

(** [s.replace(c, t)] for one character [c] *)
Fixpoint replace_char (c : ascii) (t : string) (s : string) : string :=
  match s with
  | EmptyString => EmptyString
  | String a r =>
      if Ascii.eqb a c then t +:+ replace_char c t r
      else String a (replace_char c t r)
  end.

(** the lines of a text as [readline] returns them: each keeps its
    line feed, the last one may have none. *)
Fixpoint readlines (s : string) : list string :=
  match s with
  | EmptyString => []
  | String c r =>
      if Ascii.eqb c "010" then String c EmptyString :: readlines r
      else match readlines r with
           | [] => [String c EmptyString]
           | l :: ls => String c l :: ls
           end
  end.

End str.

(** ** [base64.b64encode] *)

Module base64.

Definition alphabet : string :=
  "ABCDEFGHIJKLMNOPQRSTUVWXYZabcdefghijklmnopqrstuvwxyz0123456789+/".

(** the character of a 6-bit value *)
Definition digit (n : N) : ascii :=
  match String.get (N.to_nat n) alphabet with
  | Some c => c
  | None => "="
  end.

(** Three bytes make four characters; one or two bytes left at the end
    are padded with [=]. *)
Fixpoint b64encode (s : string) : string :=
  match s with
  | EmptyString => EmptyString
  | String a EmptyString =>
      let x := N_of_ascii a in
      String (digit (N.shiftr x 2))
        (String (digit (N.shiftl (N.land x 3) 4)) "==")
  | String a (String b EmptyString) =>
      let x := N_of_ascii a in
      let y := N_of_ascii b in
      String (digit (N.shiftr x 2))
        (String (digit (N.lor (N.shiftl (N.land x 3) 4) (N.shiftr y 4)))
           (String (digit (N.shiftl (N.land y 15) 2)) "="))
  | String a (String b (String c r)) =>
      let x := N_of_ascii a in
      let y := N_of_ascii b in
      let z := N_of_ascii c in
      String (digit (N.shiftr x 2))
        (String (digit (N.lor (N.shiftl (N.land x 3) 4) (N.shiftr y 4)))
           (String (digit (N.lor (N.shiftl (N.land y 15) 2) (N.shiftr z 6)))
              (String (digit (N.land z 63)) (b64encode r))))
  end.

End base64.

(** ** The token record and its JSON text *)

(** The members of a Token Record. *)
Inductive member :=
| AccessToken
| RefreshToken
| TokenType
| ExpiresAt
| Scope.

#[global] Instance member_eq_dec : EqDecision member.
Proof. solve_decision. Defined.

Definition all_members : list member :=
  [AccessToken; RefreshToken; TokenType; ExpiresAt; Scope].

(** What a grant or refresh exchange returns and the [gbdx_token] section
    stores: the dict of a Token Record.  [keys] lists its members in the
    order in which Python iterates over the dict, which is the order
    [json.dumps] writes them in.  [expires_at] is an absolute POSIX time;
    times are whole seconds here.  The strings are texts of characters up
    to code 255. *)
Record Token := {
  access_token : string;
  refresh_token : string;
  token_type : string;
  expires_at : Z;
  scope : list string;
  keys : list member
}.

(** [keys] has each of the five members once: the token is a dict of
    them. *)
Definition is_dict (t : Token) : bool :=
  bool_decide (NoDup (keys t))
  && forallb (fun m => bool_decide (m ∈ keys t)) all_members.

(** [token['expires_at'] = v] *)
Definition set_expires_at (v : Z) (t : Token) : Token :=
  {| access_token := access_token t;
     refresh_token := refresh_token t;
     token_type := token_type t;
     expires_at := v;
     scope := scope t;
     keys := keys t |}.

(** [t == t'] on dicts: the same members with the same values, in
    whatever order. *)
Definition same_dict (t t' : Token) : Prop :=
  access_token t = access_token t' /\
  refresh_token t = refresh_token t' /\
  token_type t = token_type t' /\
  expires_at t = expires_at t' /\
  scope t = scope t'.

(** [json.dumps] and [json.loads] on tokens.  [dumps] writes the dict as
    Python does, its members in the order of [keys], with [", "] and
    [": "] as separators and every character outside blank..tilde
    escaped.  [loads] decodes the texts of that form, the five members in
    whatever order, characters up to code 127; [None] is any other text:
    what Python makes of such a text, an error or a value, [loads] does
    not say. *)
Module json.

Definition dq : ascii := "034".
Definition backslash : ascii := "092".

Definition hexdigit (n : N) : ascii :=
  match String.get (N.to_nat n) "0123456789abcdef" with
  | Some c => c
  | None => "0"
  end.

Definition escape_char (c : ascii) : string :=
  let n := N_of_ascii c in
  if Ascii.eqb c dq then String backslash (String dq EmptyString)
  else if Ascii.eqb c backslash then String backslash (String backslash EmptyString)
  else if Ascii.eqb c "010" then String backslash "n"
  else if Ascii.eqb c "013" then String backslash "r"
  else if Ascii.eqb c "009" then String backslash "t"
  else if Ascii.eqb c "008" then String backslash "b"
  else if Ascii.eqb c "012" then String backslash "f"
  else if ((32 <=? n) && (n <=? 126))%N then String c EmptyString
  else String backslash
         (String "u" (String "0" (String "0"
            (String (hexdigit (n / 16)) (String (hexdigit (n mod 16)) EmptyString))))).

Fixpoint escape (s : string) : string :=
  match s with
  | EmptyString => EmptyString
  | String c r => escape_char c +:+ escape r
  end.

Definition dumps_string (s : string) : string :=
  String dq (escape s +:+ String dq EmptyString).

Definition dumps_int (z : Z) : string :=
  NilZero.string_of_int (Z.to_int z).

Definition dumps_list (l : list string) : string :=
  "[" +:+ str.join ", " (map dumps_string l) +:+ "]".

Definition key (k : string) : string :=
  String dq (k +:+ String dq ": ").

Definition member_name (m : member) : string :=
  match m with
  | AccessToken => "access_token"
  | RefreshToken => "refresh_token"
  | TokenType => "token_type"
  | ExpiresAt => "expires_at"
  | Scope => "scope"
  end.

(** The values of the members: texts, whole numbers, lists of texts. *)
Inductive value :=
| VStr (s : string)
| VInt (z : Z)
| VList (l : list string).

(** [token[m]] *)
Definition value_of (t : Token) (m : member) : value :=
  match m with
  | AccessToken => VStr (access_token t)
  | RefreshToken => VStr (refresh_token t)
  | TokenType => VStr (token_type t)
  | ExpiresAt => VInt (expires_at t)
  | Scope => VList (scope t)
  end.

Definition dumps_value (v : value) : string :=
  match v with
  | VStr s => dumps_string s
  | VInt z => dumps_int z
  | VList l => dumps_list l
  end.

Definition dumps_member (t : Token) (m : member) : string :=
  key (member_name m) +:+ dumps_value (value_of t m).

Definition dumps (t : Token) : string :=
  "{" +:+ str.join ", " (map (dumps_member t) (keys t)) +:+ "}".

Definition unhex (c : ascii) : option N :=
  let n := N_of_ascii c in
  if ((48 <=? n) && (n <=? 57))%N then Some (n - 48)%N
  else if ((97 <=? n) && (n <=? 102))%N then Some (n - 87)%N
  else if ((65 <=? n) && (n <=? 70))%N then Some (n - 55)%N
  else None.

(** [\u00XY]; a code point above 255 has no character here. *)
Definition unhex4 (a b x y : ascii) : option ascii :=
  a' ← unhex a; b' ← unhex b; x' ← unhex x; y' ← unhex y;
  if ((a' =? 0) && (b' =? 0))%N then Some (ascii_of_N (16 * x' + y')) else None.

Definition unescape (e : ascii) : option ascii :=
  if Ascii.eqb e dq then Some dq
  else if Ascii.eqb e backslash then Some backslash
  else if Ascii.eqb e "/" then Some "/"%char
  else if Ascii.eqb e "n" then Some "010"%char
  else if Ascii.eqb e "r" then Some "013"%char
  else if Ascii.eqb e "t" then Some "009"%char
  else if Ascii.eqb e "b" then Some "008"%char
  else if Ascii.eqb e "f" then Some "012"%char
  else None.

Definition cons_char (c : ascii) (o : option (string * string))
  : option (string * string) :=
  '(s, r) ← o; Some (String c s, r).

(** The characters of a string literal after its opening quote, and the
    text after the closing one.  A byte above 127 is part of a UTF-8
    sequence, which is not decoded here. *)
Fixpoint scanstring (s : string) : option (string * string) :=
  match s with
  | EmptyString => None
  | String c r =>
      if Ascii.eqb c dq then Some (EmptyString, r)
      else if Ascii.eqb c backslash then
        match r with
        | EmptyString => None
        | String e r1 =>
            if Ascii.eqb e "u" then
              match r1 with
              | String a (String b (String x (String y r2))) =>
                  match unhex4 a b x y with
                  | Some ch => cons_char ch (scanstring r2)
                  | None => None
                  end
              | _ => None
              end
            else
              match unescape e with
              | Some ch => cons_char ch (scanstring r1)
              | None => None
              end
        end
      else if ((N_of_ascii c <? 32) || (127 <? N_of_ascii c))%N then None
      else cons_char c (scanstring r)
  end.

(** [s] without the prefix [p] *)
Fixpoint expect (p s : string) : option string :=
  match p, s with
  | EmptyString, _ => Some s
  | String a p', String b s' => if Ascii.eqb a b then expect p' s' else None
  | String _ _, EmptyString => None
  end.

Definition is_num_char (c : ascii) : bool :=
  let n := N_of_ascii c in
  (Ascii.eqb c "-" || ((48 <=? n) && (n <=? 57)))%N.

Definition scan_int (s : string) : option (Z * string) :=
  let '(run, rest) := str.break (fun c => negb (is_num_char c)) s in
  d ← NilZero.int_of_string run;
  let z := Z.of_int d in
  if String.eqb (dumps_int z) run then Some (z, rest) else None.

(** After an item of a list: the closing bracket, or a comma and the
    next item. *)
Fixpoint scan_items (fuel : nat) (s : string) : option (list string * string) :=
  match fuel with
  | O => None
  | S fuel' =>
      match s with
      | String "]" r => Some ([], r)
      | String "," (String " " (String q r)) =>
          if Ascii.eqb q dq then
            '(x, r1) ← scanstring r;
            '(xs, r2) ← scan_items fuel' r1;
            Some (x :: xs, r2)
          else None
      | _ => None
      end
  end.

Definition scan_list (s : string) : option (list string * string) :=
  match s with
  | String "[" (String "]" r) => Some ([], r)
  | String "[" (String q r) =>
      if Ascii.eqb q dq then
        '(x, r1) ← scanstring r;
        '(xs, r2) ← scan_items (S (String.length r1)) r1;
        Some (x :: xs, r2)
      else None
  | _ => None
  end.

Definition member_of_name (k : string) : option member :=
  List.find (fun m => String.eqb (member_name m) k) all_members.

(** The value of the member [m], as its kind has it. *)
Definition scan_value (m : member) (s : string) : option (value * string) :=
  match m with
  | AccessToken | RefreshToken | TokenType =>
      r ← expect (String dq EmptyString) s;
      '(v, r) ← scanstring r;
      Some (VStr v, r)
  | ExpiresAt => '(v, r) ← scan_int s; Some (VInt v, r)
  | Scope => '(v, r) ← scan_list s; Some (VList v, r)
  end.

(** A member: its name, the colon, its value. *)
Definition scan_member (s : string) : option (member * value * string) :=
  r ← expect (String dq EmptyString) s;
  '(k, r) ← scanstring r;
  r ← expect ": " r;
  m ← member_of_name k;
  '(v, r) ← scan_value m r;
  Some (m, v, r).

(** After a member: the closing brace, with which the text ends, or a
    comma and the next member. *)
Fixpoint scan_members (fuel : nat) (s : string) : option (list (member * value)) :=
  match fuel with
  | O => None
  | S fuel' =>
      match s with
      | String "}" EmptyString => Some []
      | String "," (String " " r) =>
          '(m, v, r1) ← scan_member r;
          xs ← scan_members fuel' r1;
          Some ((m, v) :: xs)
      | _ => None
      end
  end.

Definition lookup_member (m : member) (l : list (member * value)) : option value :=
  snd <$> List.find (fun x => bool_decide (fst x = m)) l.

(** The token of the members read, when they are the five, each once. *)
Definition of_items (l : list (member * value)) : option Token :=
  match lookup_member AccessToken l, lookup_member RefreshToken l,
        lookup_member TokenType l, lookup_member ExpiresAt l,
        lookup_member Scope l with
  | Some (VStr a), Some (VStr b), Some (VStr c), Some (VInt e), Some (VList s) =>
      let t := {| access_token := a; refresh_token := b; token_type := c;
                  expires_at := e; scope := s; keys := map fst l |} in
      if is_dict t then Some t else None
  | _, _, _, _, _ => None
  end.

Definition loads (s : string) : option Token :=
  r ← expect "{" s;
  '(m, v, r) ← scan_member r;
  xs ← scan_members (S (String.length r)) r;
  of_items ((m, v) :: xs).

(** The blanks of JSON. *)
Definition is_ws (c : ascii) : bool :=
  Ascii.eqb c " " || Ascii.eqb c "009" || Ascii.eqb c "010" || Ascii.eqb c "013".

Fixpoint skip_ws (s : string) : string :=
  match s with
  | EmptyString => EmptyString
  | String c r => if is_ws c then skip_ws r else s
  end.

(** The last character that is no blank. *)
Fixpoint last_char (s : string) : option ascii :=
  match s with
  | EmptyString => None
  | String c r =>
      match last_char r with
      | Some x => Some x
      | None => if is_ws c then None else Some c
      end
  end.

(** Texts on which [json.loads] of Python raises ValueError for sure:
    those of blanks only, and those that open with a brace and do not
    close with one. *)
Definition no_json (s : string) : bool :=
  match skip_ws s with
  | EmptyString => true
  | String c _ =>
      Ascii.eqb c "{"
      && negb match last_char s with
              | Some x => Ascii.eqb x "}"
              | None => false
              end
  end.

End json.

(** ** Exceptions *)

(** The Python exceptions the modelled code can raise.  [OAuth2Error] is
    what [fetch_token] raises when the auth server rejects the exchange,
    [cv2_error] is [cv2.error].  [NotModelled] is no exception of Python:
    it ends a run that leaves what is modelled here of the libraries (a
    stored text that is JSON of another form than [json.dumps] gives a
    token, a value of the ini file with [%(] in it), and stands for
    whatever Python does from there: no handler catches it, and of such a
    run the properties below say what has happened up to that point. *)
Inductive exn :=
| KeyError (key : string)
| IndexError
| RuntimeError (msg : string)
| ValueError
| NoSectionError (section : string)
| NoOptionError (option section : string)
| DuplicateSectionError (section : string)
| MissingSectionHeaderError
| ParsingError
| OAuth2Error
| UnboundLocalError (name : string)
| HTTPError (status : Z)
| cv2_error
| NotModelled.

Inductive result (A : Type) :=
| Ok (a : A)
| Err (e : exn).
Arguments Ok {A} a.
Arguments Err {A} e.

(** ** [ConfigParser.ConfigParser] (Python 2.7) *)

(** The parser object is its two ordered dictionaries: [_defaults] (the
    [DEFAULT] section) and [_sections].  Not modelled: the [__name__] entry
    a parsed section carries, and the substitution of [%(name)s]
    references: [get] of a value with [%(] in it ends the run as
    [NotModelled]. *)
Module ConfigParser.

Definition nl : string := String "010" EmptyString.

(** [d.get(k)] on an ordered dictionary *)
Fixpoint alist_get {V} (k : string) (d : list (string * V)) : option V :=
  match d with
  | [] => None
  | (k', v) :: r => if String.eqb k' k then Some v else alist_get k r
  end.

(** [d[k] = v]: in place when the key is there, at the end otherwise *)
Fixpoint alist_set {V} (k : string) (v : V) (d : list (string * V))
  : list (string * V) :=
  match d with
  | [] => [(k, v)]
  | (k', v') :: r =>
      if String.eqb k' k then (k', v) :: r else (k', v') :: alist_set k v r
  end.

(** [d[k] = f(d[k])] when the key is there *)
Fixpoint alist_alter {V} (f : V -> V) (k : string) (d : list (string * V))
  : list (string * V) :=
  match d with
  | [] => []
  | (k', v') :: r =>
      if String.eqb k' k then (k', f v') :: r else (k', v') :: alist_alter f k r
  end.

Definition options := list (string * string).

Record t := {
  _defaults : options;
  _sections : list (string * options)
}.

(** [ConfigParser()] *)
Definition empty : t := {| _defaults := []; _sections := [] |}.

Definition DEFAULTSECT : string := "DEFAULT".

Definition optionxform (optionstr : string) : string := str.lower optionstr.

(** [cfg.sections()] *)
Definition sections (cfg : t) : list string := map fst (_sections cfg).

Definition has_section (cfg : t) (section : string) : bool :=
  bool_decide (section ∈ sections cfg).

(** [cfg.add_section(section)] *)
Definition add_section (cfg : t) (section : string) : result t :=
  if String.eqb (str.lower section) "default" then Err ValueError
  else if has_section cfg section then Err (DuplicateSectionError section)
  else Ok {| _defaults := _defaults cfg;
             _sections := _sections cfg ++ [(section, [])] |}.

(** [cfg.set(section, option, value)] *)
Definition set (cfg : t) (section option value : string) : result t :=
  if String.eqb section EmptyString || String.eqb section DEFAULTSECT then
    Ok {| _defaults := alist_set (optionxform option) value (_defaults cfg);
          _sections := _sections cfg |}
  else
    match alist_get section (_sections cfg) with
    | None => Err (NoSectionError section)
    | Some _ =>
        Ok {| _defaults := _defaults cfg;
              _sections :=
                alist_alter (alist_set (optionxform option) value)
                  section (_sections cfg) |}
    end.

(** A value without [%(] is returned as it is.  What Python substitutes
    in a value with [%(], or raises for it, is not modelled. *)
Definition _interpolate (section option rawval : string) : result string :=
  if str.contains_sub "%(" rawval then Err NotModelled
  else Ok rawval.

(** [cfg.get(section, option)]: the section's own value, else the
    default one. *)
Definition get (cfg : t) (section option : string) : result string :=
  match
    match alist_get section (_sections cfg) with
    | Some d => Ok d
    | None =>
        if String.eqb section DEFAULTSECT then Ok [] else Err (NoSectionError section)
    end
  with
  | Err e => Err e
  | Ok sectiondict =>
      let option := optionxform option in
      match alist_get option sectiondict with
      | Some value => _interpolate section option value
      | None =>
          match alist_get option (_defaults cfg) with
          | Some value => _interpolate section option value
          | None => Err (NoOptionError option section)
          end
      end
  end.

(** *** Writing *)

Definition write_option (kv : string * string) : string :=
  fst kv +:+ " = " +:+ str.replace_char "010" (String "010" (String "009" EmptyString)) (snd kv) +:+ nl.

Fixpoint concat (l : list string) : string :=
  match l with
  | [] => EmptyString
  | x :: r => x +:+ concat r
  end.

Definition write_section (sec : string * options) : string :=
  "[" +:+ fst sec +:+ "]" +:+ nl
  +:+ concat (map write_option
                (List.filter (fun kv => negb (String.eqb (fst kv) "__name__")) (snd sec)))
  +:+ nl.

Definition write_defaults (d : options) : string :=
  match d with
  | [] => EmptyString
  | _ => "[" +:+ DEFAULTSECT +:+ "]" +:+ nl +:+ concat (map write_option d) +:+ nl
  end.

(** [cfg.write(fp)]: the text written *)
Definition write (cfg : t) : string :=
  write_defaults (_defaults cfg) +:+ concat (map write_section (_sections cfg)).

(** *** Reading *)

(** [SECTCRE.match(line)]: a bracket, a non-empty header without closing
    bracket, a closing bracket; the rest of the line is ignored. *)
Definition match_section (line : string) : option string :=
  match line with
  | String "[" r =>
      match str.break (Ascii.eqb "]") r with
      | (String c h, String _ _) => Some (String c h)
      | _ => None
      end
  | _ => None
  end.

Definition is_vi (c : ascii) : bool := Ascii.eqb c ":" || Ascii.eqb c "=".

(** [OPTCRE.match(line)]: the option runs to the first colon or equals
    sign; the value is what follows, after the blanks, up to the end of
    the line.  Returns the groups [option] and [value]. *)
Definition match_option (line : string) : option (string * string) :=
  match line with
  | EmptyString => None
  | String c _ =>
      if is_vi c || str.isspace c then None
      else
        match str.break is_vi line with
        | (opt, String _ r) =>
            Some (opt, fst (str.break (Ascii.eqb "010") (str.lstrip r)))
        | (_, EmptyString) => None
        end
  end.

(** A semicolon starts a comment when the character before it is a blank:
    [pos = optval.find(';')], [optval[pos-1].isspace()] (for [pos = 0]
    that is the last character), [optval[:pos]]. *)
Definition cut_comment (optval : string) : string :=
  if str.contains ";" optval then
    let before := fst (str.break (Ascii.eqb ";") optval) in
    let prev :=
      match before with
      | EmptyString => str.last optval
      | _ => str.last before
      end in
    match prev with
    | Some c => if str.isspace c then before else optval
    | None => optval
    end
  else optval.

Definition clean_value (optval : string) : string :=
  let optval := str.strip (cut_comment optval) in
  if String.eqb optval (String "034" (String "034" EmptyString)) then EmptyString
  else optval.

Inductive cursor :=
| InDefaults
| InSection (name : string).

(** The state of [_read]: values are lists of lines until the end. *)
Record pstate := {
  p_defaults : list (string * list string);
  p_sections : list (string * list (string * list string));
  cursect : option cursor;
  optname : option string;
  perror : bool
}.

Definition pstate0 : pstate :=
  {| p_defaults := []; p_sections := []; cursect := None; optname := None;
     perror := false |}.

(** [cursect[k] = f(cursect.get(k))] *)
Definition update_cursect (cur : cursor)
    (f : list (string * list string) -> list (string * list string))
    (st : pstate) : pstate :=
  match cur with
  | InDefaults =>
      {| p_defaults := f (p_defaults st); p_sections := p_sections st;
         cursect := cursect st; optname := optname st; perror := perror st |}
  | InSection name =>
      {| p_defaults := p_defaults st;
         p_sections := alist_alter f name (p_sections st);
         cursect := cursect st; optname := optname st; perror := perror st |}
  end.

Definition is_comment_or_blank (line : string) : bool :=
  String.eqb (str.strip line) EmptyString ||
  match line with
  | String c _ => Ascii.eqb c "#" || Ascii.eqb c ";"
  | EmptyString => false
  end.

(** [line.split(None, 1)[0].lower() == 'rem' and line[0] in "rR"] *)
Definition is_rem (line : string) : bool :=
  String.eqb (str.lower (fst (str.break str.isspace (str.lstrip line)))) "rem" &&
  match line with
  | String c _ => Ascii.eqb c "r" || Ascii.eqb c "R"
  | EmptyString => false
  end.

Definition starts_with_space (line : string) : bool :=
  match line with
  | String c _ => str.isspace c
  | EmptyString => false
  end.

(** One turn of the loop of [_read]. *)
Definition feed (st : pstate) (line : string) : result pstate :=
  if is_comment_or_blank line then Ok st
  else if is_rem line then Ok st
  else
    match starts_with_space line, cursect st, optname st with
    | true, Some cur, Some name =>
        let value := str.strip line in
        if String.eqb value EmptyString then Ok st
        else Ok (update_cursect cur (alist_alter (fun l => l ++ [value]) name) st)
    | _, _, _ =>
        match match_section line with
        | Some sectname =>
            if bool_decide (sectname ∈ map fst (p_sections st)) then
              Ok {| p_defaults := p_defaults st; p_sections := p_sections st;
                    cursect := Some (InSection sectname); optname := None;
                    perror := perror st |}
            else if String.eqb sectname DEFAULTSECT then
              Ok {| p_defaults := p_defaults st; p_sections := p_sections st;
                    cursect := Some InDefaults; optname := None;
                    perror := perror st |}
            else
              Ok {| p_defaults := p_defaults st;
                    p_sections := p_sections st ++ [(sectname, [])];
                    cursect := Some (InSection sectname); optname := None;
                    perror := perror st |}
        | None =>
            match cursect st with
            | None => Err MissingSectionHeaderError
            | Some cur =>
                match match_option line with
                | Some (name, optval) =>
                    let name := optionxform (str.rstrip name) in
                    let st := update_cursect cur (alist_set name [clean_value optval]) st in
                    Ok {| p_defaults := p_defaults st; p_sections := p_sections st;
                          cursect := cursect st; optname := Some name;
                          perror := perror st |}
                | None =>
                    Ok {| p_defaults := p_defaults st; p_sections := p_sections st;
                          cursect := cursect st; optname := optname st;
                          perror := true |}
                end
            end
        end
    end.

Fixpoint feed_all (st : pstate) (lines : list string) : result pstate :=
  match lines with
  | [] => Ok st
  | line :: r =>
      match feed st line with
      | Ok st' => feed_all st' r
      | Err e => Err e
      end
  end.

Definition join_values (d : list (string * list string)) : options :=
  map (fun kv => (fst kv, str.join nl (snd kv))) d.

(** [cfg._read(fp, fpname)] on a fresh parser, [fp] holding [text] *)
Definition _read (text : string) : result t :=
  match feed_all pstate0 (str.readlines text) with
  | Err e => Err e
  | Ok st =>
      if perror st then Err ParsingError
      else Ok {| _defaults := join_values (p_defaults st);
                 _sections := map (fun s => (fst s, join_values (snd s))) (p_sections st) |}
  end.

End ConfigParser.

(** ** The world the program runs in *)

(** What [fetch_token] sends to the token endpoint: the URL, the
    [username] and [password] arguments, the [headers] argument and the
    other keyword arguments. *)
Record token_request := {
  token_url : string;
  username : option string;
  password : option string;
  headers : list (string * string);
  kwargs : gmap string string
}.

Record http_response := {
  status_code : Z;
  content : string
}.

(** An image, as [cv2.imdecode] returns one; [pixels_of] stands for its
    array of pixels. *)
Record ndarray := { pixels_of : string }.

Inductive event :=
| EvFetchToken (req : token_request) (resp : option Token)
| EvWrite (path text : string)
| EvGet (url : string) (status : Z)
| EvImdecode (data : string)
| EvImshow (winname : string).

(** [environ] is [os.environ], [pw_dir] the home directory of the
    password database, [files] the regular files by path.  [clock] is the
    POSIX time of the run, in whole seconds, and [utcoffset t] what the
    local time of the machine is ahead of UTC at the POSIX time [t], in
    seconds: its time zone, daylight saving included.  [auth_server]
    answers a grant exchange with a token or rejects it; [http_server]
    answers a GET.  [imdecode] is what [cv2.imdecode] of the installed
    OpenCV does with the bytes given: it raises, or it returns [None] for
    bytes that are no image it can read, or the image.  [trace] lists the
    network calls, file writes and image operations made so far, oldest
    first. *)
Record World := {
  environ : gmap string string;
  pw_dir : string;
  files : gmap string string;
  clock : Z;
  utcoffset : Z -> Z;
  auth_server : token_request -> option Token;
  http_server : string -> http_response;
  imdecode : string -> result (option ndarray);
  trace : list event
}.

Definition log (e : event) (w : World) : World :=
  {| environ := environ w; pw_dir := pw_dir w; files := files w;
     clock := clock w; utcoffset := utcoffset w;
     auth_server := auth_server w; http_server := http_server w;
     imdecode := imdecode w; trace := trace w ++ [e] |}.

Definition set_file (path text : string) (w : World) : World :=
  {| environ := environ w; pw_dir := pw_dir w;
     files := <[path := text]> (files w);
     clock := clock w; utcoffset := utcoffset w;
     auth_server := auth_server w; http_server := http_server w;
     imdecode := imdecode w; trace := trace w |}.

(** *** State and exceptions *)

Definition M (A : Type) : Type := World -> result A * World.

Definition ret {A} (a : A) : M A := fun w => (Ok a, w).

Definition raise {A} (e : exn) : M A := fun w => (Err e, w).

Definition bind {A B} (m : M A) (k : A -> M B) : M B :=
  fun w =>
    match m w with
    | (Ok a, w') => k a w'
    | (Err e, w') => (Err e, w')
    end.

(** [try: m except <handled>: h(e)] *)
Definition try_except {A} (m : M A) (handled : exn -> bool) (h : exn -> M A) : M A :=
  fun w =>
    match m w with
    | (Ok a, w') => (Ok a, w')
    | (Err e, w') => if handled e then h e w' else (Err e, w')
    end.

Definition lift {A} (r : result A) : M A := fun w => (r, w).

Notation "x <- m ;; k" := (bind m (fun x => k))
  (at level 20, m at level 99, k at level 200, only parsing).
Notation "' p <- m ;; k" := (bind m (fun p => k))
  (at level 20, p pattern, m at level 99, k at level 200, only parsing).

(** *** Operating system and libraries *)

(** [os.environ[name]] *)
Definition os_environ (name : string) : M string :=
  fun w =>
    match environ w !! name with
    | Some v => (Ok v, w)
    | None => (Err (KeyError name), w)
    end.

(** [os.path.expanduser('~' + rest)] for [rest] empty or starting with a
    slash: the home directory is [$HOME], else the one of the password
    database. *)
Definition userhome_path (w : World) (rest : string) : string :=
  let userhome :=
    match environ w !! "HOME" with
    | Some h => h
    | None => pw_dir w
    end in
  let path := str.rstrip_char "/" userhome +:+ rest in
  match path with
  | EmptyString => "/"
  | _ => path
  end.

Definition expanduser_home (rest : string) : M string :=
  fun w => (Ok (userhome_path w rest), w).

(** [os.path.isfile(path)] *)
Definition os_path_isfile (path : string) : M bool :=
  fun w => (Ok (bool_decide (is_Some (files w !! path))), w).

(** [with open(path, 'w') as sink: sink.write(text)]; every path can be
    written. *)
Definition write_file (path text : string) : M unit :=
  fun w => (Ok tt, log (EvWrite path text) (set_file path text w)).

(** [cfg = ConfigParser(); cfg.read(path)]: the parser, or [None] when
    [read] returns the empty list because the file cannot be opened. *)
Definition ConfigParser_read (path : string) : M (option ConfigParser.t) :=
  fun w =>
    match files w !! path with
    | None => (Ok None, w)
    | Some text =>
        match ConfigParser._read text with
        | Ok cfg => (Ok (Some cfg), w)
        | Err e => (Err e, w)
        end
    end.

(** The first and the last second [datetime] has: 0001-01-01 00:00:00
    and 9999-12-31 23:59:59, counted from 1970-01-01 00:00:00. *)
Definition datetime_min : Z := -62135596800.
Definition datetime_max : Z := 253402300799.

(** What the local clock shows at the POSIX time [t], as seconds counted
    from 1970-01-01 00:00:00 on that clock. *)
Definition local_time (w : World) (t : Z) : Z := t + utcoffset w t.

(** The local clock shows a year from 1 to 9999 at the POSIX time [t]. *)
Definition representable (w : World) (t : Z) : Prop :=
  datetime_min <= local_time w t <= datetime_max.

(** [datetime.fromtimestamp(t)]: the naive local time; ValueError when
    its year is not one of 1 to 9999. *)
Definition datetime_fromtimestamp (t : Z) : M Z :=
  fun w =>
    let l := local_time w t in
    if (datetime_min <=? l) && (l <=? datetime_max) then (Ok l, w)
    else (Err ValueError, w).

(** [datetime.now()] *)
Definition datetime_now : M Z :=
  fun w => datetime_fromtimestamp (clock w) w.

(** [(datetime.fromtimestamp(t) - datetime.now()).total_seconds()]: the
    difference of two naive local times. *)
Definition seconds_from_now (t : Z) : M Z :=
  expires <- datetime_fromtimestamp t ;;
  now <- datetime_now ;;
  ret (expires - now).

(** *** [requests_oauthlib.OAuth2Session] *)

(** The [token_updater] callbacks of this program, with what they close
    over. *)
Inductive updater :=
| UpdateSession
| UpdateConfig (config_file : string) (cfg : ConfigParser.t).

Record Session := {
  client_id : string;
  token : option Token;
  auto_refresh_url : string;
  auto_refresh_kwargs : list (string * string);
  token_updater : updater
}.

(** [s.token = token] *)
Definition set_token (t : Token) (s : Session) : Session :=
  {| client_id := client_id s; token := Some t;
     auto_refresh_url := auto_refresh_url s;
     auto_refresh_kwargs := auto_refresh_kwargs s;
     token_updater := token_updater s |}.

(** [s.fetch_token(...)]: one grant exchange with the auth server.  The
    token is kept on the session and returned; a rejection raises. *)
Definition fetch_token (s : Session) (req : token_request) : M (Session * Token) :=
  fun w =>
    let resp := auth_server w req in
    let w' := log (EvFetchToken req resp) w in
    match resp with
    | Some t => (Ok (set_token t s, t), w')
    | None => (Err OAuth2Error, w')
    end.

(** [session.get(url)] *)
Definition session_get (s : Session) (url : string) : M http_response :=
  fun w =>
    let r := http_server w url in
    (Ok r, log (EvGet url (status_code r)) w).

(** [ret.raise_for_status()] *)
Definition raise_for_status (r : http_response) : M unit :=
  if (400 <=? status_code r) && (status_code r <? 600)
  then raise (HTTPError (status_code r))
  else ret tt.

(** ** [gbdx/gbdx_auth.py] *)

Definition GBDX_AUTH_URL : string := "https://geobigdata.io/auth/v1/oauth/token/".

Definition default_environ_template : list (string * string) :=
  [("username", "GBDX_USERNAME"); ("password", "GBDX_PASSWORD");
   ("client_id", "GBDX_CLIENT_ID"); ("client_secret", "GBDX_CLIENT_SECRET")]%string.

(** [{var: os.environ[envvar] for var, envvar in environ_template}] *)
Fixpoint environ_dict (environ_template : list (string * string))
    (d : gmap string string) : M (gmap string string) :=
  match environ_template with
  | [] => ret d
  | (var, envvar) :: r =>
      v <- os_environ envvar ;;
      environ_dict r (<[var := v]> d)
  end.

(** [d[key]] *)
Definition dict_get (d : gmap string string) (key : string) : M string :=
  match d !! key with
  | Some v => ret v
  | None => raise (KeyError key)
  end.

Definition session_from_envvars (auth_url : string)
    (environ_template : list (string * string)) : M Session :=
  environ <- environ_dict environ_template ∅ ;;
  cid <- dict_get environ "client_id" ;;
  cid' <- dict_get environ "client_id" ;;
  csecret <- dict_get environ "client_secret" ;;
  let s := {| client_id := cid; token := None;
              auto_refresh_url := auth_url;
              auto_refresh_kwargs := [("client_id", cid'); ("client_secret", csecret)]%string;
              token_updater := UpdateSession |} in
  '(s, _) <- fetch_token s
     {| token_url := auth_url;
        username := environ !! "username";
        password := environ !! "password";
        headers := [];
        kwargs := delete "username" (delete "password" environ) |} ;;
  ret s.

(** [tmp = apikey.split(':'); client_id = tmp[0];
    client_secret = ":".join(tmp[1:])].  [None] is the IndexError of
    [tmp[0]] on an empty list. *)
Definition _unpack_apikey (apikey : string) : option (string * string) :=
  let tmp := str.split ":" apikey in
  match tmp with
  | [] => None
  | client_id :: rest => Some (client_id, str.join ":" rest)
  end.

Definition or_raise {A} (e : exn) (o : option A) : M A :=
  match o with
  | Some a => ret a
  | None => raise e
  end.

(** The closure [save_token] of [session_from_config]: [cfg] and
    [config_file] are the variables it closes over, the parser it leaves
    is the result. *)
Definition save_token (config_file : string) (cfg : ConfigParser.t)
    (token_to_save : Token) : M ConfigParser.t :=
  cfg <- (if negb (ConfigParser.has_section cfg "gbdx_token")
          then lift (ConfigParser.add_section cfg "gbdx_token")
          else ret cfg) ;;
  cfg <- lift (ConfigParser.set cfg "gbdx_token" "json" (json.dumps token_to_save)) ;;
  _ <- write_file config_file (ConfigParser.write cfg) ;;
  ret cfg.

Definition is_NoOptionError (e : exn) : bool :=
  match e with
  | NoOptionError _ _ => true
  | _ => false
  end.

(** [json.loads(text)]: the token, ValueError for a text that is no
    JSON, and for the other texts nothing that is modelled. *)
Definition json_loads (text : string) : M Token :=
  match json.loads text with
  | Some t => ret t
  | None => if json.no_json text then raise ValueError else raise NotModelled
  end.

(** The [try: ... except NoOptionError: ...] block of
    [session_from_config]: the values it leaves in [client_id],
    [client_secret] and [api_key]. *)
Definition client_credentials (cfg : ConfigParser.t) : M (string * string * string) :=
  try_except
    (client_id <- lift (ConfigParser.get cfg "gbdx" "client_id") ;;
     client_secret <- lift (ConfigParser.get cfg "gbdx" "client_secret") ;;
     ret (client_id, client_secret,
          base64.b64encode (client_id +:+ ":" +:+ client_secret)))
    is_NoOptionError
    (fun _ =>
       (* user probably was given an apikey instead *)
       api_key <- lift (ConfigParser.get cfg "gbdx" "api_key") ;;
       '(client_id, client_secret) <- or_raise IndexError (_unpack_apikey api_key) ;;
       ret (client_id, client_secret, api_key)).

Definition session_from_config (config_file : string) : M Session :=
  ocfg <- ConfigParser_read config_file ;;
  match ocfg with
  | None =>
      raise (RuntimeError ("No ini file found at " +:+ config_file +:+ " to parse."))
  | Some cfg =>
      '(client_id, client_secret, api_key) <- client_credentials cfg ;;
      if ConfigParser.has_section cfg "gbdx_token" then
        text <- lift (ConfigParser.get cfg "gbdx_token" "json") ;;
        token <- json_loads text ;;
        remaining <- seconds_from_now (expires_at token) ;;
        let token := set_expires_at (remaining - 600) token in
        url <- lift (ConfigParser.get cfg "gbdx" "auth_url") ;;
        let s := {| client_id := client_id; token := Some token;
                    auto_refresh_url := url;
                    auto_refresh_kwargs :=
                      [("client_id", client_id); ("client_secret", client_secret)]%string;
                    token_updater := UpdateConfig config_file cfg |} in
        let s := set_token token s in
        ret s
      else
        url <- lift (ConfigParser.get cfg "gbdx" "auth_url") ;;
        let sess := {| client_id := client_id; token := None;
                       auto_refresh_url := url;
                       auto_refresh_kwargs :=
                         [("client_id", client_id); ("client_secret", client_secret)]%string;
                       token_updater := UpdateConfig config_file cfg |} in
        let headers := [("Authorization", "Basic " +:+ api_key);
                        ("Content-Type", "application/x-www-form-urlencoded")]%string in
        url <- lift (ConfigParser.get cfg "gbdx" "auth_url") ;;
        user_name <- lift (ConfigParser.get cfg "gbdx" "user_name") ;;
        user_password <- lift (ConfigParser.get cfg "gbdx" "user_password") ;;
        '(sess, token) <- fetch_token sess
           {| token_url := url; username := Some user_name;
              password := Some user_password; headers := headers;
              kwargs := ∅ |} ;;
        _ <- save_token config_file cfg token ;;
        (* [return s]: no [s] was bound on this branch *)
        raise (UnboundLocalError "s")
  end.

(** [except Exception]: every exception of Python. *)
Definition is_Exception (e : exn) : bool :=
  match e with
  | NotModelled => false
  | _ => true
  end.

(** [if not config_file]: [None] and the empty text are false. *)
Definition truthy (config_file : option string) : option string :=
  match config_file with
  | Some EmptyString => None
  | o => o
  end.

Definition get_session (config_file : option string) : M Session :=
  match truthy config_file with
  | None =>
      try_except
        (session_from_envvars GBDX_AUTH_URL default_environ_template)
        is_Exception
        (fun e =>
           config_file <- expanduser_home "/.gbdx-config" ;;
           isfile <- os_path_isfile config_file ;;
           if isfile then session_from_config config_file
           else raise e)
  | Some config_file => session_from_config config_file
  end.

(** *** [configure] *)

(** [for (key, value) in items: cfg.set(section, key, value)] *)
Fixpoint set_items (cfg : ConfigParser.t) (section : string)
    (items : list (string * string)) : result ConfigParser.t :=
  match items with
  | [] => Ok cfg
  | (key, value) :: r =>
      match ConfigParser.set cfg section key value with
      | Ok cfg' => set_items cfg' section r
      | Err e => Err e
      end
  end.

Section configure.

(** The order in which [config_data.iteritems()] yields the items of a
    dict built in the given order is the one of the hash table of the
    interpreter: it is a parameter. *)
Variable iteritems : list (string * string) -> list (string * string).

(** The lines typed at the four prompts of [raw_input] are the first four
    arguments; what [print] shows is not recorded. *)
Definition configure (user_name user_password client_id client_secret : string)
    (config_file : option string) (auth_url : string) : M unit :=
  let config_data :=
    [("auth_url", auth_url); ("user_name", user_name);
     ("user_password", user_password); ("client_id", client_id);
     ("client_secret", client_secret)]%string in
  cfg <- lift (ConfigParser.add_section ConfigParser.empty "gbdx") ;;
  cfg <- lift (set_items cfg "gbdx" (iteritems config_data)) ;;
  config_file <- match truthy config_file with
                 | None => expanduser_home "/.gbdx-config"
                 | Some config_file => ret config_file
                 end ;;
  write_file config_file (ConfigParser.write cfg).

End configure.

(** ** [gbdx/core.py] *)

(** [os.path.join(a, *p)] *)
Fixpoint os_path_join (path : string) (p : list string) : string :=
  match p with
  | [] => path
  | b :: r =>
      let path' :=
        if str.startswith "/" b then b
        else if String.eqb path EmptyString
                || match str.last path with Some c => Ascii.eqb c "/" | None => false end
        then path +:+ b
        else path +:+ "/" +:+ b in
      os_path_join path' r
  end.

(** [cv2.imdecode(np.fromstring(data, np.uint8), flags)]: [None] is
    Python's [None], which it returns for bytes that are no image. *)
Definition cv2_imdecode (data : string) : M (option ndarray) :=
  fun w => (imdecode w data, log (EvImdecode data) w).

(** [cv2.imshow(name, img); cv2.waitKey(0); cv2.destroyWindow(name)];
    [cv2.imshow] raises on [None]. *)
Definition cv2_show (winname : string) (img : option ndarray) : M unit :=
  match img with
  | Some _ => fun w => (Ok tt, log (EvImshow winname) w)
  | None => raise cv2_error
  end.

Section core.

(** [gbdx/constants.py] is not part of the sources at hand: its
    [GBDX_BASE_URL] is a parameter. *)
Variable GBDX_BASE_URL : string.

Definition get_thumbnail (session : Session) (cat_id : string) (show : bool)
  : M (option ndarray) :=
  let url := os_path_join GBDX_BASE_URL
               ["thumbnails"; "v1"; "browse"; cat_id +:+ ".medium.png"]%string in
  r <- session_get session url ;;
  _ <- raise_for_status r ;;
  img <- cv2_imdecode (content r) ;;
  _ <- (if show then cv2_show cat_id img else ret tt) ;;
  ret img.

End core.

Section core_json.

Variable GBDX_BASE_URL : string.

(** [ret.json()]: the decoder of the HTTP library and the values it
    yields are parameters; [None] is its ValueError. *)
Variable J : Type.
Variable json_of : string -> option J.

Definition get_json (session : Session) (url : string) : M J :=
  r <- session_get session url ;;
  _ <- raise_for_status r ;;
  or_raise ValueError (json_of (content r)).

Definition get_order_status (session : Session) (soli : string) : M J :=
  let url := os_path_join GBDX_BASE_URL ["orders"; "v1"; "status"; soli]%string in
  get_json session url.

Definition get_catalog_record (session : Session) (cat_id : string) : M J :=
  let url := os_path_join GBDX_BASE_URL ["catalog"; "v1"; "record"; cat_id]%string in
  get_json session url.

End core_json.

(** ** Vocabulary of the properties *)

(** The parser [save_token] leaves: [cfg] with the [json] option of the
    [gbdx_token] section set to the text of [t], the section being added
    at the end when it is missing. *)
Definition store_token (cfg : ConfigParser.t) (t : Token) : ConfigParser.t :=
  {| ConfigParser._defaults := ConfigParser._defaults cfg;
     ConfigParser._sections :=
       ConfigParser.alist_alter
         (ConfigParser.alist_set "json" (json.dumps t)) "gbdx_token"
         (if ConfigParser.has_section cfg "gbdx_token"
          then ConfigParser._sections cfg
          else ConfigParser._sections cfg ++ [("gbdx_token"%string, [])]) |}.

(** The text of a list after its first item: the other items, each
    behind its comma, and the closing bracket. *)
Fixpoint items_text (l : list string) : string :=
  match l with
  | [] => "]"
  | x :: r => ", " +:+ json.dumps_string x +:+ items_text r
  end.

(** What [json.dumps] writes after a member of a dict when the members
    [ms] are left. *)
Fixpoint members_text (t : Token) (ms : list member) : string :=
  match ms with
  | [] => "}"
  | m :: r => ", " +:+ json.dumps_member t m +:+ members_text t r
  end.

(** The members of a token with their values, in the order of [keys]. *)
Definition token_items (t : Token) : list (member * json.value) :=
  map (fun m => (m, json.value_of t m)) (keys t).

(** The path [get_session] falls back to: [~/.gbdx-config]. *)
Definition default_config_file (w : World) : string :=
  userhome_path w "/.gbdx-config".

Definition is_grant (e : event) : bool :=
  match e with
  | EvFetchToken _ _ => true
  | _ => false
  end.

Definition is_write (e : event) : bool :=
  match e with
  | EvWrite _ _ => true
  | _ => false
  end.

Definition is_imdecode (e : event) : bool :=
  match e with
  | EvImdecode _ => true
  | _ => false
  end.

(** The request [session_from_config] sends for a grant exchange. *)
Definition config_grant_request (url user_name user_password api_key : string)
  : token_request :=
  {| token_url := url; username := Some user_name;
     password := Some user_password;
     headers := [("Authorization", "Basic " +:+ api_key);
                 ("Content-Type", "application/x-www-form-urlencoded")]%string;
     kwargs := ∅ |}.

(** *** Configurations that ConfigParser reads back as it writes them *)

Definition first_char_ok (p : ascii -> bool) (s : string) : bool :=
  match s with
  | String c _ => p c
  | EmptyString => false
  end.

(** A section name that can stand between brackets. *)
Definition section_name_ok (n : string) : bool :=
  negb (String.eqb n EmptyString)
  && negb (str.contains_where (fun c => Ascii.eqb "]" c || Ascii.eqb "010" c) n)
  && negb (String.eqb n ConfigParser.DEFAULTSECT).

(** An option name that is read back as it stands: lower case, no colon,
    equals sign or line feed, nothing at its ends that the parser strips,
    and a start that is not the one of a comment or a header. *)
Definition key_ok (k : string) : bool :=
  first_char_ok
    (fun c => negb (str.isspace c || Ascii.eqb c "#" || Ascii.eqb c ";"
                    || Ascii.eqb c "[" || ConfigParser.is_vi c)) k
  && negb (str.contains_where (fun c => ConfigParser.is_vi c || Ascii.eqb "010" c) k)
  && String.eqb (str.lower k) k
  && String.eqb (str.rstrip k) k
  && negb (String.eqb (str.lower (fst (str.break str.isspace k))) "rem")
  && negb (String.eqb k "__name__").

(** A value on one line that the parser neither strips nor cuts. *)
Definition value_ok (v : string) : bool :=
  negb (str.contains_where (Ascii.eqb "010") v)
  && negb (first_char_ok str.isspace v)
  && String.eqb (ConfigParser.clean_value v) v.

Definition options_ok (d : ConfigParser.options) : Prop :=
  NoDup (map fst d) /\
  Forall (fun kv => key_ok (fst kv) = true /\ value_ok (snd kv) = true) d.

Definition config_ok (cfg : ConfigParser.t) : Prop :=
  options_ok (ConfigParser._defaults cfg) /\
  NoDup (map fst (ConfigParser._sections cfg)) /\
  Forall (fun s => section_name_ok (fst s) = true /\ options_ok (snd s))
    (ConfigParser._sections cfg).

#[global] Instance options_ok_dec d : Decision (options_ok d).
Proof. unfold options_ok. apply _. Defined.

#[global] Instance config_ok_dec cfg : Decision (config_ok cfg).
Proof. unfold config_ok. apply _. Defined.

(** The lines [write] makes of an option, of a section and of a parser. *)
Definition option_line (kv : string * string) : string :=
  fst kv +:+ " = " +:+ snd kv +:+ ConfigParser.nl.

Definition header_line (n : string) : string :=
  "[" +:+ n +:+ "]" +:+ ConfigParser.nl.

Definition section_lines_of (sec : string * ConfigParser.options) : list string :=
  header_line (fst sec) :: map option_line (snd sec) ++ [ConfigParser.nl].

(** A line with its line feed at the end and nowhere else. *)
Definition line_ok (l : string) : Prop :=
  exists a, l = a +:+ ConfigParser.nl /\
            str.contains_where (Ascii.eqb "010") a = false.

(** An option as [_read] holds it before the lines of its value are
    joined. *)
Definition keep_line (kv : string * string) : string * list string :=
  (fst kv, [snd kv]).

(** The events of a run that takes the world from [w] to [w']. *)
Definition events_since (w w' : World) : list event :=
  drop (length (trace w)) (trace w').

(** The lines of section [name] in the text of an ini file: its header
    lines and what follows each up to the next header. *)
Fixpoint section_lines (name : string) (inside : bool) (lines : list string)
  : list string :=
  match lines with
  | [] => []
  | line :: r =>
      match ConfigParser.match_section line with
      | Some n =>
          if String.eqb n name then line :: section_lines name true r
          else section_lines name false r
      | None =>
          if inside then line :: section_lines name true r
          else section_lines name false r
      end
  end.

Definition section_text (name text : string) : string :=
  ConfigParser.concat (section_lines name false (str.readlines text)).

(** ** Sample inputs *)

Definition sample_token : Token :=
  {| access_token := "AT"; refresh_token := "RT"; token_type := "Bearer";
     expires_at := 2000000; scope := ["read"]%string;
     keys := [AccessToken; TokenType; ExpiresAt; RefreshToken; Scope] |}.

(** A token with a semicolon after a blank in its scope. *)
Definition semicolon_token : Token :=
  {| access_token := "AT"; refresh_token := "RT"; token_type := "Bearer";
     expires_at := 2000000; scope := ["read ;write"]%string;
     keys := [AccessToken; TokenType; ExpiresAt; RefreshToken; Scope] |}.

Definition sample_path : string := "/home/u/.gbdx-config".

(** A configuration with [client_id] and [client_secret]. *)
Definition sample_cfg : ConfigParser.t :=
  {| ConfigParser._defaults := [];
     ConfigParser._sections :=
       [("gbdx", [("client_id", "abc"); ("client_secret", "def");
                  ("user_name", "u"); ("user_password", "p");
                  ("auth_url", "https://auth/")])]%string |}.

(** A configuration file with an [api_key] only. *)
Definition apikey_text : string :=
  "[gbdx]" +:+ ConfigParser.nl +:+
  "api_key = abc:def" +:+ ConfigParser.nl +:+
  "user_name = u" +:+ ConfigParser.nl +:+
  "user_password = p" +:+ ConfigParser.nl +:+
  "auth_url = https://auth/" +:+ ConfigParser.nl.

(** A configuration file written by hand: a comment, no blanks around
    the equals signs. *)
Definition handwritten_text : string :=
  "[gbdx]" +:+ ConfigParser.nl +:+
  "# production account" +:+ ConfigParser.nl +:+
  "client_id=abc" +:+ ConfigParser.nl +:+
  "client_secret=def" +:+ ConfigParser.nl +:+
  "user_name=u" +:+ ConfigParser.nl +:+
  "user_password=p" +:+ ConfigParser.nl +:+
  "auth_url=https://auth/" +:+ ConfigParser.nl.

(** A world at time 1000000 with [GBDX_USERNAME] as its only GBDX
    variable, the file [text] at [sample_path] if any, and an auth server
    that gives every request the answer [answer]. *)
Definition sample_world (text : option string) (answer : option Token) : World :=
  {| environ := {[ "HOME" := "/home/u"; "GBDX_USERNAME" := "u" ]}%string;
     pw_dir := "/root";
     files := match text with
              | Some text => {[ sample_path := text ]}
              | None => ∅
              end;
     clock := 1000000;
     utcoffset := fun _ => 0;
     auth_server := fun _ => answer;
     http_server := fun _ => {| status_code := 404; content := EmptyString |};
     imdecode := fun _ => Ok None;
     trace := [] |}.

Definition sample_session : Session :=
  {| client_id := "abc"; token := Some sample_token;
     auto_refresh_url := "https://auth/";
     auto_refresh_kwargs := [("client_id", "abc"); ("client_secret", "def")]%string;
     token_updater := UpdateSession |}.

(** ** Further vocabulary and sample inputs *)

(** The request [session_from_envvars] sends: the user name and password
    as such, the client id and secret as further keyword arguments, no
    headers. *)
Definition envvars_grant_request (auth_url u p cid csecret : string) : token_request :=
  {| token_url := auth_url; username := Some u; password := Some p;
     headers := [];
     kwargs := {[ "client_id"%string := cid; "client_secret"%string := csecret ]} |}.

(** A world with the four variables set and a default file that holds a
    stored token; the server gives [answer] to every grant. *)
Definition envvars_world (answer : option Token) : World :=
  {| environ := {[ "HOME" := "/home/u"; "GBDX_USERNAME" := "u";
                   "GBDX_PASSWORD" := "p"; "GBDX_CLIENT_ID" := "abc";
                   "GBDX_CLIENT_SECRET" := "def" ]}%string;
     pw_dir := "/root";
     files := {[ sample_path := ConfigParser.write (store_token sample_cfg sample_token) ]};
     clock := 1000000;
     utcoffset := fun _ => 0;
     auth_server := fun _ => answer;
     http_server := fun _ => {| status_code := 200; content := "{}" |};
     imdecode := fun _ => Ok None;
     trace := [] |}.

(** A file with credentials in [DEFAULT] and no [gbdx] section. *)
Definition defaults_only_text : string :=
  "[DEFAULT]" +:+ ConfigParser.nl +:+
  "client_id = abc" +:+ ConfigParser.nl +:+
  "client_secret = def" +:+ ConfigParser.nl +:+
  "auth_url = https://auth/" +:+ ConfigParser.nl.

(** A [gbdx] section with a [client_id], no [client_secret], and an
    [api_key] of another client. *)
Definition half_cfg : ConfigParser.t :=
  {| ConfigParser._defaults := [];
     ConfigParser._sections :=
       [("gbdx", [("client_id", "abc"); ("api_key", "xyz:uvw");
                  ("user_name", "u"); ("user_password", "p");
                  ("auth_url", "https://auth/")])]%string |}.

(** A [gbdx] section with a [client_id] only. *)
Definition id_only_cfg : ConfigParser.t :=
  {| ConfigParser._defaults := [];
     ConfigParser._sections :=
       [("gbdx", [("client_id", "abc"); ("user_name", "u");
                  ("user_password", "p"); ("auth_url", "https://auth/")])]%string |}.


(** What [configure] puts in [config_data], in the order of insertion. *)
Definition config_data (user_name user_password client_id client_secret auth_url : string)
  : list (string * string) :=
  [("auth_url", auth_url); ("user_name", user_name);
   ("user_password", user_password); ("client_id", client_id);
   ("client_secret", client_secret)]%string.

(** The parser [configure] writes: a [gbdx] section with the items. *)
Definition configured (items : list (string * string)) : ConfigParser.t :=
  {| ConfigParser._defaults := [];
     ConfigParser._sections := [("gbdx"%string, items)] |}.

(** [path] made ready for a further component: with a slash at its end
    unless it is empty or has one. *)
Definition with_slash (path : string) : string :=
  if String.eqb path EmptyString
     || match str.last path with Some c => Ascii.eqb c "/" | None => false end
  then path else path +:+ "/".

(** A world whose HTTP server answers every GET with [status] and the
    text of [sample_token]. *)
Definition http_world (status : Z) : World :=
  {| environ := ∅; pw_dir := "/root"; files := ∅; clock := 1000000;
     utcoffset := fun _ => 0;
     auth_server := fun _ => None;
     http_server := fun _ => {| status_code := status; content := json.dumps sample_token |};
     imdecode := fun _ => Ok None;
     trace := [] |}.


(** A world whose default file holds [sample_token] and where the clocks
    are put back an hour at the time 1500000, between the current time
    and the time the token expires. *)
Definition clock_change_world : World :=
  {| environ := {[ "HOME" := "/home/u" ]}%string;
     pw_dir := "/root";
     files := {[ sample_path := ConfigParser.write (store_token sample_cfg sample_token) ]};
     clock := 1000000;
     utcoffset := fun t => if t <? 1500000 then 7200 else 3600;
     auth_server := fun _ => None;
     http_server := fun _ => {| status_code := 404; content := EmptyString |};
     imdecode := fun _ => Ok None;
     trace := [] |}.

(** A world whose HTTP server answers every GET with the bytes [PNG...],
    from which its OpenCV reads an image, as from no other bytes. *)
Definition image_world : World :=
  {| environ := ∅; pw_dir := "/root"; files := ∅; clock := 1000000;
     utcoffset := fun _ => 0;
     auth_server := fun _ => None;
     http_server := fun _ => {| status_code := 200; content := "PNG..." |};
     imdecode := fun data =>
       if String.eqb data "PNG..." then Ok (Some {| pixels_of := "0 0 0 255" |})
       else Ok None;
     trace := [] |}.

(** * Properties *)

(** ** Texts *)

Lemma append_cons (c : ascii) (s t : string) :
  String c s +:+ t = String c (s +:+ t).
Proof. reflexivity. Qed.

Lemma append_nil_r (s : string) : s +:+ "" = s.
Proof. induction s as [|c s IH]; [reflexivity|]. now rewrite append_cons, IH. Qed.

Lemma append_assoc (s t u : string) : (s +:+ t) +:+ u = s +:+ t +:+ u.
Proof.
  induction s as [|c s IH]; [reflexivity|]. now rewrite !append_cons, IH.
Qed.

Lemma length_app_string a b :
  String.length (a +:+ b) = (String.length a + String.length b)%nat.
Proof. induction a as [|c a IH]; [reflexivity|]. rewrite append_cons. simpl. lia. Qed.

Lemma contains_where_app p a b :
  str.contains_where p (a +:+ b) = str.contains_where p a || str.contains_where p b.
Proof.
  induction a as [|c a IH]; [reflexivity|].
  rewrite append_cons. cbn [str.contains_where]. now rewrite IH, orb_assoc.
Qed.

Lemma contains_where_weaken (p q : ascii -> bool) s :
  (forall c, p c = true -> q c = true) ->
  str.contains_where q s = false -> str.contains_where p s = false.
Proof.
  intros Hpq. induction s as [|c s IH]; [reflexivity|].
  cbn [str.contains_where]. intros H. apply orb_false_iff in H as [Hc Hs].
  rewrite (IH Hs), orb_false_r.
  destruct (p c) eqn:E; [|reflexivity]. rewrite (Hpq c E) in Hc. discriminate.
Qed.

Lemma break_app p a b :
  (forall c r, b = String c r -> p c = true) ->
  str.contains_where p a = false ->
  str.break p (a +:+ b) = (a, b).
Proof.
  intros Hb. induction a as [|c a IH]; cbn [str.contains_where].
  - intros _. change (EmptyString +:+ b) with b.
    destruct b as [|c r]; [reflexivity|]. simpl. now rewrite (Hb c r eq_refl).
  - intros H. apply orb_false_iff in H as [Hc Ha].
    rewrite append_cons. simpl. rewrite Hc, (IH Ha). reflexivity.
Qed.

Lemma break_fst_app p a c b :
  p c = true ->
  fst (str.break p (a +:+ String c b)) = fst (str.break p a).
Proof.
  intros Hc. induction a as [|x a IH].
  - change (EmptyString +:+ ?x) with x. cbn [str.break]. now rewrite Hc.
  - rewrite append_cons. cbn [str.break]. destruct (p x); [reflexivity|].
    destruct (str.break p (a +:+ String c b)), (str.break p a). cbn in *.
    now subst.
Qed.

Lemma split_nonempty sep s : str.split sep s <> [].
Proof.
  destruct s as [|c r]; simpl; [discriminate|].
  destruct (Ascii.eqb c sep); [discriminate|].
  destruct (str.split sep r); discriminate.
Qed.

(** Splitting and joining back on the same separator gives the text back. *)
Lemma join_split sep s : str.join (String sep "") (str.split sep s) = s.
Proof.
  induction s as [|c r IH]; [reflexivity|]. simpl str.split.
  destruct (Ascii.eqb_spec c sep) as [->|Hne].
  - pose proof (split_nonempty sep r) as Hn.
    destruct (str.split sep r) as [|h t] eqn:E; [congruence|].
    change (str.join (String sep "") ("" :: h :: t))
      with ("" +:+ String sep "" +:+ str.join (String sep "") (h :: t)).
    now rewrite IH.
  - destruct (str.split sep r) as [|h t] eqn:E.
    + now destruct (split_nonempty sep r).
    + destruct t as [|h' t'].
      * simpl in *. now subst.
      * change (str.join (String sep "") (String c h :: h' :: t'))
          with (String c (h +:+ String sep "" +:+ str.join (String sep "") (h' :: t'))).
        f_equal. exact IH.
Qed.

(** A text without the separator is a single piece. *)
Lemma split_no_sep sep s :
  str.contains sep s = false -> str.split sep s = [s].
Proof.
  induction s as [|c r IH]; simpl; [reflexivity|].
  destruct (Ascii.eqb c sep); simpl; [discriminate|].
  intros H. now rewrite (IH H).
Qed.

(** The first piece ends at the first separator. *)
Lemma split_first sep a b :
  str.contains sep a = false ->
  str.split sep (a +:+ String sep b) = a :: str.split sep b.
Proof.
  induction a as [|c r IH]; cbn [str.contains].
  - intros _. change ("" +:+ String sep b) with (String sep b).
    cbn [str.split]. now rewrite Ascii.eqb_refl.
  - destruct (Ascii.eqb c sep) eqn:E; [discriminate|].
    intros H. rewrite append_cons. cbn [str.split]. rewrite E.
    now rewrite (IH H).
Qed.

(** Every text that has a colon is [a ++ ":" ++ b] with no colon in [a]. *)
Lemma contains_decompose sep s :
  str.contains sep s = true ->
  exists a b, s = a +:+ String sep b /\ str.contains sep a = false.
Proof.
  induction s as [|c r IH]; simpl; [discriminate|].
  destruct (Ascii.eqb_spec c sep) as [->|Hne]; simpl.
  - intros _. now exists ""%string, r.
  - intros H. destruct (IH H) as (a & b & -> & Ha).
    exists (String c a), b. split; [reflexivity|]. simpl.
    destruct (Ascii.eqb_spec c sep); [contradiction|exact Ha].
Qed.

Lemma readlines_line a rest :
  str.contains_where (Ascii.eqb "010") a = false ->
  str.readlines (a +:+ ConfigParser.nl +:+ rest)
  = (a +:+ ConfigParser.nl) :: str.readlines rest.
Proof.
  induction a as [|c a IH]; cbn [str.contains_where].
  - intros _. reflexivity.
  - intros H. apply orb_false_iff in H as [Hc Ha].
    rewrite !append_cons. cbn [str.readlines].
    rewrite Ascii.eqb_sym, Hc. now rewrite (IH Ha).
Qed.

Lemma rstrip_app_space a c :
  str.isspace c = true -> str.rstrip (a +:+ String c EmptyString) = str.rstrip a.
Proof.
  intros Hc. induction a as [|x a IH].
  - change (EmptyString +:+ ?x) with x. cbn [str.rstrip]. now rewrite Hc.
  - rewrite append_cons. cbn [str.rstrip]. now rewrite IH.
Qed.

Lemma rstrip_nonempty c r :
  str.isspace c = false -> str.rstrip (String c r) <> EmptyString.
Proof.
  intros Hc. cbn [str.rstrip]. destruct (str.rstrip r); [now rewrite Hc|discriminate].
Qed.

Lemma rstrip_last a c :
  str.isspace c = false ->
  str.rstrip (a +:+ String c EmptyString) = a +:+ String c EmptyString.
Proof.
  intros Hc. induction a as [|x a IH].
  - change (EmptyString +:+ ?x) with x. cbn [str.rstrip]. now rewrite Hc.
  - rewrite append_cons. cbn [str.rstrip]. rewrite IH.
    destruct a; reflexivity.
Qed.

Lemma strip_nonempty c r :
  str.isspace c = false -> str.strip (String c r) <> EmptyString.
Proof.
  intros Hc. unfold str.strip. cbn [str.lstrip]. rewrite Hc.
  now apply rstrip_nonempty.
Qed.

Lemma replace_char_none c t s :
  str.contains_where (Ascii.eqb c) s = false -> str.replace_char c t s = s.
Proof.
  induction s as [|x s IH]; [reflexivity|]. cbn [str.contains_where str.replace_char].
  intros H. apply orb_false_iff in H as [Hx Hs].
  rewrite Ascii.eqb_sym, Hx. now rewrite (IH Hs).
Qed.

(** ** [_unpack_apikey] *)

(** C1: an API key with at least one colon unpacks to the segment before
    the first colon as client_id and the remainder of the string (the other
    segments rejoined by colons) as client_secret; "id:sec:ret" gives
    ("id", "sec:ret"). *)
Theorem unpack_apikey_first_colon :
  (forall apikey, str.contains ":" apikey = true ->
     exists client_id client_secret,
       _unpack_apikey apikey = Some (client_id, client_secret) /\
       apikey = client_id +:+ ":" +:+ client_secret /\
       str.contains ":" client_id = false /\
       client_secret = str.join ":" (tail (str.split ":" apikey))) /\
  _unpack_apikey "id:sec:ret" = Some ("id", "sec:ret").
Proof.
  split; [|reflexivity].
  intros apikey H.
  destruct (contains_decompose _ _ H) as (a & b & -> & Ha).
  exists a, b. unfold _unpack_apikey.
  rewrite (split_first _ _ _ Ha). cbn [tail].
  rewrite (join_split ":" b). auto.
Qed.

Lemma unpack_apikey_first_colon_witness :
  str.contains ":" "abc:def" = true /\
  exists client_id client_secret,
    _unpack_apikey "abc:def" = Some (client_id, client_secret) /\
    "abc:def" = client_id +:+ ":" +:+ client_secret /\
    str.contains ":" client_id = false /\
    client_secret = str.join ":" (tail (str.split ":" "abc:def")).
Proof.
  split; [reflexivity|].
  apply (proj1 unpack_apikey_first_colon "abc:def"). reflexivity.
Defined.

(** C10: an API key without a colon unpacks to the whole key as client_id
    and the empty string as client_secret; no error is raised. *)
Theorem unpack_apikey_no_colon apikey :
  str.contains ":" apikey = false ->
  _unpack_apikey apikey = Some (apikey, "").
Proof.
  intros H. unfold _unpack_apikey. now rewrite (split_no_sep _ _ H).
Qed.

Lemma unpack_apikey_no_colon_witness :
  str.contains ":" "abcdef" = false /\
  _unpack_apikey "abcdef" = Some ("abcdef", "").
Proof.
  split; [reflexivity|]. apply (unpack_apikey_no_colon "abcdef"). reflexivity.
Defined.

Lemma unpack_apikey_length apikey cid csecret :
  _unpack_apikey apikey = Some (cid, csecret) ->
  (String.length apikey <= String.length (cid +:+ ":" +:+ csecret))%nat.
Proof.
  intros H. destruct (str.contains ":" apikey) eqn:E.
  - destruct (contains_decompose _ _ E) as (a & b & -> & Ha).
    unfold _unpack_apikey in H. rewrite (split_first _ _ _ Ha) in H.
    rewrite (join_split ":" b) in H. now injection H as -> ->.
  - unfold _unpack_apikey in H. rewrite (split_no_sep _ _ E) in H.
    injection H as -> ->. rewrite length_app_string. lia.
Qed.

(** ** [base64.b64encode] *)

Example b64encode_abc_def : base64.b64encode "abc:def" = "YWJjOmRlZg==".
Proof. reflexivity. Qed.

Example b64encode_rfc4648 :
  map base64.b64encode ["f"; "fo"; "foo"; "foob"; "fooba"; "foobar"]
  = ["Zg=="; "Zm8="; "Zm9v"; "Zm9vYg=="; "Zm9vYmE="; "Zm9vYmFy"].
Proof. reflexivity. Qed.

Lemma b64encode_length_le n : forall s,
  (String.length s <= n)%nat ->
  String.length (base64.b64encode s) = (4 * ((String.length s + 2) / 3))%nat.
Proof.
  induction n as [n IH] using lt_wf_ind. intros s Hn.
  destruct s as [|a [|b [|c r]]]; try reflexivity.
  cbn [base64.b64encode String.length].
  rewrite (IH (String.length r)) by (cbn in Hn; lia).
  replace (S (S (S (String.length r))) + 2)%nat
    with ((String.length r + 2) + 1 * 3)%nat by lia.
  rewrite Nat.div_add by lia. lia.
Qed.

Lemma b64encode_length s :
  String.length (base64.b64encode s) = (4 * ((String.length s + 2) / 3))%nat.
Proof. now apply (b64encode_length_le (String.length s)). Qed.

(** The base64 text is longer than the text it encodes. *)
Lemma b64encode_longer s :
  s <> EmptyString -> (String.length s < String.length (base64.b64encode s))%nat.
Proof.
  intros Hs. rewrite b64encode_length.
  assert (1 <= String.length s)%nat by (destruct s; [congruence|cbn; lia]).
  pose proof (Nat.div_mod_eq (String.length s + 2) 3).
  pose proof (Nat.mod_upper_bound (String.length s + 2) 3). lia.
Qed.

(** Whatever the [api_key], the header made of it is not the Basic
    credential of the [client_id] and [client_secret] unpacked from it. *)
Lemma api_key_header_never_encoded apikey cid csecret :
  _unpack_apikey apikey = Some (cid, csecret) ->
  "Basic " +:+ apikey <> "Basic " +:+ base64.b64encode (cid +:+ ":" +:+ csecret).
Proof.
  intros H E. apply String.app_inj in E.
  pose proof (unpack_apikey_length _ _ _ H) as Hl.
  assert (cid +:+ ":" +:+ csecret <> EmptyString) as Hne.
  { destruct cid; discriminate. }
  pose proof (b64encode_longer _ Hne) as Hlt. rewrite <- E in Hlt. lia.
Qed.

(** ** The JSON text of a token decodes to the token *)

Lemma expect_app p r : json.expect p (p +:+ r) = Some r.
Proof.
  induction p as [|c p IH]; [now destruct r|].
  rewrite append_cons. simpl. now rewrite Ascii.eqb_refl.
Qed.

Lemma scanstring_escape_char c r :
  json.scanstring (json.escape_char c +:+ r) = json.cons_char c (json.scanstring r).
Proof.
  destruct c as [[] [] [] [] [] [] [] []]; reflexivity.
Qed.

Lemma scanstring_escape s rest :
  json.scanstring (json.escape s +:+ String json.dq rest) = Some (s, rest).
Proof.
  induction s as [|c s IH]; [reflexivity|].
  cbn [json.escape]. rewrite append_assoc, scanstring_escape_char, IH.
  reflexivity.
Qed.

Lemma scanstring_dumps s rest :
  json.expect (String json.dq EmptyString) (json.dumps_string s +:+ rest)
    ≫= json.scanstring = Some (s, rest).
Proof.
  unfold json.dumps_string. rewrite append_cons. cbn [json.expect].
  rewrite Ascii.eqb_refl. cbn [json.expect mbind option_bind].
  rewrite append_assoc. apply scanstring_escape.
Qed.

Lemma uint_digits d :
  str.contains_where (fun c => negb (json.is_num_char c))
    (NilEmpty.string_of_uint d) = false.
Proof. induction d; simpl; auto. Qed.

Lemma dumps_int_digits z :
  str.contains_where (fun c => negb (json.is_num_char c)) (json.dumps_int z) = false.
Proof.
  unfold json.dumps_int, NilZero.string_of_int, NilZero.string_of_uint.
  destruct (Z.to_int z) as [d|d]; destruct d; simpl; auto using uint_digits.
Qed.

Lemma int_of_dumps_int z :
  NilZero.int_of_string (json.dumps_int z) = Some (Z.to_int z).
Proof.
  unfold json.dumps_int. apply NilZero.isi.
  - destruct z; simpl; [discriminate| |discriminate].
    intros [= H]. now apply DecimalPos.Unsigned.to_uint_nonnil in H.
  - destruct z; simpl; [discriminate|discriminate|].
    intros [= H]. now apply DecimalPos.Unsigned.to_uint_nonnil in H.
Qed.

Lemma scan_int_dumps z rest :
  (forall c r, rest = String c r -> json.is_num_char c = false) ->
  json.scan_int (json.dumps_int z +:+ rest) = Some (z, rest).
Proof.
  intros Hrest. unfold json.scan_int.
  rewrite break_app.
  - rewrite int_of_dumps_int. cbn [mbind option_bind].
    rewrite DecimalZ.of_to, String.eqb_refl. reflexivity.
  - intros c r E. now rewrite (Hrest c r E).
  - apply dumps_int_digits.
Qed.

Lemma scan_items_text l rest fuel :
  (length l < fuel)%nat ->
  json.scan_items fuel (items_text l +:+ rest) = Some (l, rest).
Proof.
  revert fuel. induction l as [|x l IH]; intros [|fuel] Hf; try (simpl in Hf; lia).
  - reflexivity.
  - cbn [items_text]. rewrite !append_assoc.
    unfold json.dumps_string. rewrite !append_cons.
    change (EmptyString +:+ ?x) with x. cbn [json.scan_items].
    rewrite Ascii.eqb_refl. rewrite !append_assoc, append_cons.
    change (EmptyString +:+ ?x) with x.
    rewrite scanstring_escape. cbn [mbind option_bind].
    rewrite IH by (simpl in Hf; lia). reflexivity.
Qed.

Lemma items_text_length l : (length l < String.length (items_text l))%nat.
Proof.
  induction l as [|x l IH]; [simpl; lia|].
  cbn [items_text length]. rewrite !length_app_string. simpl String.length. lia.
Qed.

Lemma join_items x r :
  str.join ", " (map json.dumps_string (x :: r)) +:+ "]"
  = json.dumps_string x +:+ items_text r.
Proof.
  revert x. induction r as [|y r IH]; intros x; [reflexivity|].
  change (str.join ", " (map json.dumps_string (x :: y :: r)))
    with (json.dumps_string x +:+ ", " +:+ str.join ", " (map json.dumps_string (y :: r))).
  rewrite !append_assoc, IH. reflexivity.
Qed.

Lemma dumps_list_items l :
  json.dumps_list l =
  match l with
  | [] => "[]"%string
  | x :: r => "[" +:+ json.dumps_string x +:+ items_text r
  end.
Proof.
  unfold json.dumps_list. destruct l as [|x r]; [reflexivity|].
  now rewrite join_items.
Qed.

Lemma scan_list_dumps l rest :
  json.scan_list (json.dumps_list l +:+ rest) = Some (l, rest).
Proof.
  rewrite dumps_list_items. destruct l as [|x r]; [reflexivity|].
  rewrite !append_assoc. unfold json.dumps_string.
  rewrite !append_cons. change (EmptyString +:+ ?x) with x.
  cbn [json.scan_list]. rewrite Ascii.eqb_refl.
  rewrite !append_assoc, append_cons. change (EmptyString +:+ ?x) with x.
  rewrite scanstring_escape. cbn [mbind option_bind].
  rewrite scan_items_text; [reflexivity|].
  rewrite length_app_string. pose proof (items_text_length r). lia.
Qed.

Lemma scan_key m rest :
  json.scanstring (json.member_name m +:+ String json.dq rest)
  = Some (json.member_name m, rest).
Proof. destruct m; reflexivity. Qed.

Lemma member_of_name_name m :
  json.member_of_name (json.member_name m) = Some m.
Proof. destruct m; reflexivity. Qed.

Lemma scan_value_dumps t m rest :
  (forall c r, rest = String c r -> json.is_num_char c = false) ->
  json.scan_value m (json.dumps_value (json.value_of t m) +:+ rest)
  = Some (json.value_of t m, rest).
Proof.
  intros Hrest.
  destruct m; cbn [json.scan_value json.value_of json.dumps_value].
  1-3: unfold json.dumps_string; rewrite append_cons; cbn [json.expect];
       rewrite Ascii.eqb_refl; cbn [json.expect mbind option_bind];
       rewrite append_assoc, append_cons;
       change (EmptyString +:+ ?x) with x;
       rewrite scanstring_escape; reflexivity.
  - now rewrite scan_int_dumps.
  - now rewrite scan_list_dumps.
Qed.

Lemma scan_member_dumps t m rest :
  (forall c r, rest = String c r -> json.is_num_char c = false) ->
  json.scan_member (json.dumps_member t m +:+ rest)
  = Some (m, json.value_of t m, rest).
Proof.
  intros Hrest. unfold json.scan_member, json.dumps_member, json.key.
  rewrite append_assoc, append_cons. cbn [json.expect].
  rewrite Ascii.eqb_refl. cbn [json.expect mbind option_bind].
  rewrite !append_assoc, append_cons, scan_key. cbn [mbind option_bind].
  rewrite !append_cons. change (EmptyString +:+ ?x) with x.
  cbn [mbind option_bind]. rewrite Ascii.eqb_refl. cbn [mbind option_bind].
  rewrite Ascii.eqb_refl. cbn [mbind option_bind].
  rewrite member_of_name_name. cbn [mbind option_bind].
  rewrite scan_value_dumps by exact Hrest. reflexivity.
Qed.

Lemma members_text_head t ms c r :
  members_text t ms = String c r -> json.is_num_char c = false.
Proof.
  destruct ms as [|m ms]; cbn [members_text].
  - now intros [= <- _].
  - rewrite append_cons. now intros [= <- _].
Qed.

Lemma scan_members_text t ms fuel :
  (length ms < fuel)%nat ->
  json.scan_members fuel (members_text t ms)
  = Some (map (fun m => (m, json.value_of t m)) ms).
Proof.
  revert fuel. induction ms as [|m ms IH]; intros [|fuel] Hf; try (simpl in Hf; lia).
  - reflexivity.
  - cbn [members_text]. rewrite !append_cons.
    change (EmptyString +:+ ?x) with x. cbn [json.scan_members].
    rewrite scan_member_dumps by apply members_text_head.
    cbn [mbind option_bind].
    rewrite IH by (simpl in Hf; lia). reflexivity.
Qed.

Lemma members_text_length t ms :
  (length ms < String.length (members_text t ms))%nat.
Proof.
  induction ms as [|m ms IH]; [simpl; lia|].
  cbn [members_text length]. rewrite !length_app_string. simpl String.length. lia.
Qed.

Lemma join_members t m r :
  str.join ", " (map (json.dumps_member t) (m :: r)) +:+ "}"
  = json.dumps_member t m +:+ members_text t r.
Proof.
  revert m. induction r as [|y r IH]; intros m; [reflexivity|].
  change (str.join ", " (map (json.dumps_member t) (m :: y :: r)))
    with (json.dumps_member t m +:+ ", "
          +:+ str.join ", " (map (json.dumps_member t) (y :: r))).
  rewrite !append_assoc, IH. reflexivity.
Qed.

Lemma dumps_members t :
  json.dumps t =
  match keys t with
  | [] => "{}"%string
  | m :: r => "{" +:+ json.dumps_member t m +:+ members_text t r
  end.
Proof.
  unfold json.dumps. destruct (keys t) as [|m r]; [reflexivity|].
  now rewrite join_members.
Qed.

Lemma lookup_member_items t m ms :
  m ∈ ms ->
  json.lookup_member m (map (fun m' => (m', json.value_of t m')) ms)
  = Some (json.value_of t m).
Proof.
  unfold json.lookup_member.
  induction ms as [|a ms IH]; intros H; [now apply elem_of_nil in H|].
  cbn [map List.find fst]. destruct (decide (a = m)) as [->|Hne].
  - rewrite bool_decide_eq_true_2 by reflexivity. reflexivity.
  - rewrite bool_decide_eq_false_2 by exact Hne.
    apply elem_of_cons in H as [->|H]; [congruence|]. now apply IH.
Qed.

Lemma is_dict_member t m : is_dict t = true -> m ∈ keys t.
Proof.
  unfold is_dict. intros H. apply andb_true_iff in H as [_ H].
  rewrite forallb_forall in H.
  assert (In m all_members) as Hin by (destruct m; simpl; tauto).
  apply H in Hin. now apply bool_decide_eq_true in Hin.
Qed.

Lemma of_items_token t :
  is_dict t = true -> json.of_items (token_items t) = Some t.
Proof.
  intros Hd. unfold json.of_items, token_items.
  rewrite !lookup_member_items by now apply is_dict_member.
  cbn [json.value_of].
  rewrite map_map. cbn [fst]. rewrite map_id.
  replace (is_dict _) with (is_dict t) by reflexivity.
  rewrite Hd. now destruct t.
Qed.

(** [json.loads(json.dumps(t)) == t], whatever the order in which the
    members of [t] are written. *)
Lemma loads_dumps t : is_dict t = true -> json.loads (json.dumps t) = Some t.
Proof.
  intros Hd. pose proof (of_items_token t Hd) as Hitems.
  unfold token_items in Hitems.
  rewrite dumps_members. destruct (keys t) as [|m r] eqn:E.
  - pose proof (is_dict_member t AccessToken Hd) as H. rewrite E in H.
    now apply elem_of_nil in H.
  - unfold json.loads. rewrite expect_app. cbn [mbind option_bind].
    rewrite scan_member_dumps by apply members_text_head.
    cbn [mbind option_bind].
    rewrite scan_members_text
      by (pose proof (members_text_length t r); lia).
    cbn [mbind option_bind]. exact Hitems.
Qed.

(** ** The JSON text of a token is one line between braces *)

Lemma escape_char_one_line c :
  str.contains_where (Ascii.eqb "010") (json.escape_char c) = false.
Proof. destruct c as [[] [] [] [] [] [] [] []]; reflexivity. Qed.

Lemma escape_one_line s :
  str.contains_where (Ascii.eqb "010") (json.escape s) = false.
Proof.
  induction s as [|c s IH]; [reflexivity|]. cbn [json.escape].
  now rewrite contains_where_app, escape_char_one_line, IH.
Qed.

Lemma dumps_string_one_line s :
  str.contains_where (Ascii.eqb "010") (json.dumps_string s) = false.
Proof.
  unfold json.dumps_string. cbn [str.contains_where].
  rewrite contains_where_app, escape_one_line. reflexivity.
Qed.

Lemma dumps_int_one_line z :
  str.contains_where (Ascii.eqb "010") (json.dumps_int z) = false.
Proof.
  eapply contains_where_weaken; [|apply dumps_int_digits].
  intros c Hc. apply Ascii.eqb_eq in Hc as <-. reflexivity.
Qed.

Lemma items_text_one_line l :
  str.contains_where (Ascii.eqb "010") (items_text l) = false.
Proof.
  induction l as [|x l IH]; [reflexivity|]. cbn [items_text].
  now rewrite !contains_where_app, dumps_string_one_line, IH.
Qed.

Lemma dumps_list_one_line l :
  str.contains_where (Ascii.eqb "010") (json.dumps_list l) = false.
Proof.
  rewrite dumps_list_items. destruct l as [|x l]; [reflexivity|].
  now rewrite !contains_where_app, dumps_string_one_line, items_text_one_line.
Qed.

Lemma dumps_member_one_line t m :
  str.contains_where (Ascii.eqb "010") (json.dumps_member t m) = false.
Proof.
  unfold json.dumps_member. rewrite contains_where_app.
  destruct m; cbn [json.value_of json.dumps_value];
    rewrite ?dumps_string_one_line, ?dumps_int_one_line, ?dumps_list_one_line;
    reflexivity.
Qed.

Lemma members_text_one_line t ms :
  str.contains_where (Ascii.eqb "010") (members_text t ms) = false.
Proof.
  induction ms as [|m ms IH]; [reflexivity|]. cbn [members_text].
  now rewrite !contains_where_app, dumps_member_one_line, IH.
Qed.

Lemma dumps_one_line t :
  str.contains_where (Ascii.eqb "010") (json.dumps t) = false.
Proof.
  rewrite dumps_members. destruct (keys t) as [|m r]; [reflexivity|].
  now rewrite !contains_where_app, dumps_member_one_line, members_text_one_line.
Qed.

(** The text of a token is an object on one line, from its opening to its
    closing brace. *)
Lemma dumps_braces t :
  exists body, json.dumps t = String "{" (body +:+ "}").
Proof.
  unfold json.dumps. eexists. rewrite append_cons.
  change (EmptyString +:+ ?x) with x. reflexivity.
Qed.

(** ** Ordered dictionaries *)

Lemma alist_get_None {V} k (d : list (string * V)) :
  ConfigParser.alist_get k d = None <-> k ∉ map fst d.
Proof.
  induction d as [|[k' v] d IH]; simpl.
  - split; [intros _; apply not_elem_of_nil|reflexivity].
  - destruct (String.eqb_spec k' k) as [->|Hne].
    + split; [discriminate|]. intros H. destruct H. apply elem_of_cons; auto.
    + rewrite IH. rewrite not_elem_of_cons. intuition congruence.
Qed.

Lemma alist_get_app_new {V} k (v : V) d :
  ConfigParser.alist_get k (d ++ [(k, v)]) <> None.
Proof.
  induction d as [|[k' v'] d IH]; simpl.
  - now rewrite String.eqb_refl.
  - destruct (String.eqb k' k); [discriminate|exact IH].
Qed.

Lemma alist_alter_app_new {V} (f : V -> V) k v d :
  k ∉ map fst d ->
  ConfigParser.alist_alter f k (d ++ [(k, v)]) = d ++ [(k, f v)].
Proof.
  induction d as [|[k' v'] d IH]; simpl; intros Hn.
  - now rewrite String.eqb_refl.
  - apply not_elem_of_cons in Hn as [Hne Hn].
    destruct (String.eqb_spec k' k); [congruence|]. now rewrite IH.
Qed.

Lemma alist_alter_last {V} (f : V -> V) k v (d : list (string * V)) :
  k ∉ map fst d ->
  ConfigParser.alist_alter f k (d ++ [(k, v)]) = d ++ [(k, f v)].
Proof. apply alist_alter_app_new. Qed.

Lemma alist_get_alter {V} (f : V -> V) k k' (d : list (string * V)) :
  ConfigParser.alist_get k' (ConfigParser.alist_alter f k d)
  = if String.eqb k k' then f <$> ConfigParser.alist_get k' d
    else ConfigParser.alist_get k' d.
Proof.
  induction d as [|[k0 v0] d IH]; simpl.
  - now destruct (String.eqb k k').
  - destruct (String.eqb_spec k0 k) as [->|Hne]; simpl.
    + destruct (String.eqb_spec k k') as [->|Hne']; [reflexivity|].
      reflexivity.
    + destruct (String.eqb_spec k0 k') as [->|Hne'].
      * destruct (String.eqb_spec k k'); [congruence|reflexivity].
      * exact IH.
Qed.

Lemma alist_get_set {V} k k' (v : V) (d : list (string * V)) :
  ConfigParser.alist_get k' (ConfigParser.alist_set k v d)
  = if String.eqb k k' then Some v else ConfigParser.alist_get k' d.
Proof.
  induction d as [|[k0 v0] d IH]; simpl.
  - reflexivity.
  - destruct (String.eqb_spec k0 k) as [->|Hne]; simpl.
    + destruct (String.eqb_spec k k'); reflexivity.
    + destruct (String.eqb_spec k0 k') as [->|Hne'].
      * destruct (String.eqb_spec k k'); [congruence|reflexivity].
      * exact IH.
Qed.

Lemma alist_get_app_ne {V} k k' (v : V) (d : list (string * V)) :
  k <> k' ->
  ConfigParser.alist_get k' (d ++ [(k, v)]) = ConfigParser.alist_get k' d.
Proof.
  intros Hne. induction d as [|[k0 v0] d IH]; simpl.
  - destruct (String.eqb_spec k k'); [congruence|reflexivity].
  - now rewrite IH.
Qed.

Lemma alist_set_idem {V} k (v : V) (d : list (string * V)) :
  ConfigParser.alist_set k v (ConfigParser.alist_set k v d)
  = ConfigParser.alist_set k v d.
Proof.
  induction d as [|[k0 v0] d IH]; simpl.
  - now rewrite String.eqb_refl.
  - destruct (String.eqb k0 k) eqn:E; simpl; rewrite E; [reflexivity|].
    now rewrite IH.
Qed.

Lemma alist_alter_idem {V} (f : V -> V) k (d : list (string * V)) :
  (forall v, f (f v) = f v) ->
  ConfigParser.alist_alter f k (ConfigParser.alist_alter f k d)
  = ConfigParser.alist_alter f k d.
Proof.
  intros Hf. induction d as [|[k0 v0] d IH]; simpl; [reflexivity|].
  destruct (String.eqb k0 k) eqn:E; simpl; rewrite E; [now rewrite Hf|].
  now rewrite IH.
Qed.

Lemma alist_alter_keys {V} (f : V -> V) k (d : list (string * V)) :
  map fst (ConfigParser.alist_alter f k d) = map fst d.
Proof.
  induction d as [|[k0 v0] d IH]; simpl; [reflexivity|].
  destruct (String.eqb k0 k); simpl; [reflexivity|]. now rewrite IH.
Qed.

Lemma alist_set_fresh {V} k (v : V) (d : list (string * V)) :
  k ∉ map fst d -> ConfigParser.alist_set k v d = d ++ [(k, v)].
Proof.
  induction d as [|[k' v'] d IH]; cbn; intros Hn; [reflexivity|].
  apply not_elem_of_cons in Hn as [Hne Hn].
  destruct (String.eqb_spec k' k); [congruence|]. now rewrite IH.
Qed.

Lemma alist_set_keys {V} k (v : V) d x :
  x ∈ map fst (ConfigParser.alist_set k v d) <-> x = k \/ x ∈ map fst d.
Proof.
  induction d as [|[k' v'] d IH]; cbn.
  - rewrite elem_of_cons, elem_of_nil. tauto.
  - destruct (String.eqb_spec k' k) as [->|Hne]; cbn.
    + rewrite !elem_of_cons. tauto.
    + rewrite !elem_of_cons, IH. tauto.
Qed.

Lemma alist_set_NoDup {V} k (v : V) d :
  NoDup (map fst d) -> NoDup (map fst (ConfigParser.alist_set k v d)).
Proof.
  induction d as [|[k' v'] d IH]; cbn; intros H.
  - repeat constructor. apply not_elem_of_nil.
  - apply NoDup_cons in H as [Hn H].
    destruct (String.eqb_spec k' k) as [->|Hne]; cbn.
    + now constructor.
    + constructor; [|auto]. rewrite alist_set_keys. intros [?|?]; congruence.
Qed.

Lemma alist_set_Forall {V} (P : string * V -> Prop) k v d :
  P (k, v) -> (forall v', P (k, v') -> P (k, v)) ->
  Forall P d -> Forall P (ConfigParser.alist_set k v d).
Proof.
  intros Hk _. induction d as [|[k' v'] d IH]; cbn; intros H.
  - now repeat constructor.
  - apply Forall_cons in H as [H' H].
    destruct (String.eqb_spec k' k) as [->|Hne]; constructor; auto.
Qed.

Lemma alist_alter_Forall {V} (P : string * V -> Prop) (f : V -> V) k d :
  (forall v, P (k, v) -> P (k, f v)) ->
  Forall P d -> Forall P (ConfigParser.alist_alter f k d).
Proof.
  intros Hf. induction d as [|[k' v'] d IH]; cbn; intros H; [constructor|].
  apply Forall_cons in H as [H' H].
  destruct (String.eqb_spec k' k) as [->|Hne]; constructor; auto.
Qed.

Lemma has_section_get cfg name :
  ConfigParser.has_section cfg name = true <->
  is_Some (ConfigParser.alist_get name (ConfigParser._sections cfg)).
Proof.
  unfold ConfigParser.has_section, ConfigParser.sections.
  rewrite bool_decide_eq_true.
  destruct (ConfigParser.alist_get name (ConfigParser._sections cfg)) eqn:E.
  - split; [eauto|]. intros _.
    destruct (decide (name ∈ map fst (ConfigParser._sections cfg))) as [|n]; [done|].
    apply alist_get_None in n. congruence.
  - apply alist_get_None in E. split; [done|]. intros [? ?]. discriminate.
Qed.

Lemma concat_app l1 l2 :
  ConfigParser.concat (l1 ++ l2) = ConfigParser.concat l1 +:+ ConfigParser.concat l2.
Proof.
  induction l1 as [|x l1 IH]; [reflexivity|].
  cbn [app ConfigParser.concat]. now rewrite IH, append_assoc.
Qed.

(** ** ConfigParser reads back what it writes *)

Lemma is_comment_or_blank_false c r :
  str.isspace c = false -> Ascii.eqb c "#" = false -> Ascii.eqb c ";" = false ->
  ConfigParser.is_comment_or_blank (String c r) = false.
Proof.
  intros Hs H1 H2. unfold ConfigParser.is_comment_or_blank.
  rewrite H1, H2. cbn [orb]. rewrite orb_false_r.
  apply String.eqb_neq. now apply strip_nonempty.
Qed.

Lemma match_section_not_bracket c r :
  Ascii.eqb c "[" = false -> ConfigParser.match_section (String c r) = None.
Proof.
  destruct c as [[] [] [] [] [] [] [] []]; cbn; intros; try reflexivity; discriminate.
Qed.

Lemma match_section_header n rest :
  section_name_ok n = true ->
  ConfigParser.match_section (header_line n +:+ rest) = Some n.
Proof.
  unfold section_name_ok, header_line. intros H.
  apply andb_true_iff in H as [H _]. apply andb_true_iff in H as [Hn Hc].
  apply negb_true_iff in Hn, Hc. apply String.eqb_neq in Hn.
  rewrite !append_assoc, append_cons. change (EmptyString +:+ ?x) with x.
  cbn [ConfigParser.match_section].
  rewrite break_app.
  - destruct n; [congruence|reflexivity].
  - intros c r [= <- _]. reflexivity.
  - eapply contains_where_weaken; [|exact Hc].
    intros c Hcc. cbn beta. now rewrite Hcc.
Qed.

Lemma feed_blank st : ConfigParser.feed st ConfigParser.nl = Ok st.
Proof. reflexivity. Qed.

Lemma feed_header st n :
  section_name_ok n = true ->
  n ∉ map fst (ConfigParser.p_sections st) ->
  ConfigParser.feed st (header_line n)
  = Ok {| ConfigParser.p_defaults := ConfigParser.p_defaults st;
          ConfigParser.p_sections := ConfigParser.p_sections st ++ [(n, [])];
          ConfigParser.cursect := Some (ConfigParser.InSection n);
          ConfigParser.optname := None;
          ConfigParser.perror := ConfigParser.perror st |}.
Proof.
  intros Hn Hfresh. unfold ConfigParser.feed.
  pose proof (match_section_header n EmptyString Hn) as Hm.
  rewrite append_nil_r in Hm. rewrite Hm.
  unfold header_line. rewrite append_cons. change (EmptyString +:+ ?x) with x.
  rewrite is_comment_or_blank_false by reflexivity.
  change (ConfigParser.is_rem (String "[" ?r)) with
    (String.eqb (str.lower (fst (str.break str.isspace (str.lstrip (String "[" r))))) "rem"
     && false).
  rewrite andb_false_r. cbn [ConfigParser.starts_with_space str.isspace Ascii.is_space].
  rewrite bool_decide_eq_false_2 by exact Hfresh.
  unfold section_name_ok in Hn. apply andb_true_iff in Hn as [_ Hd].
  apply negb_true_iff in Hd. now rewrite Hd.
Qed.

Lemma lstrip_value v :
  str.contains_where (Ascii.eqb "010") v = false ->
  first_char_ok str.isspace v = false ->
  fst (str.break (Ascii.eqb "010")
         (str.lstrip (String " " (v +:+ ConfigParser.nl)))) = v.
Proof.
  intros Hnl Hsp. cbn [str.lstrip str.isspace Ascii.is_space].
  destruct v as [|c v].
  - reflexivity.
  - cbn [first_char_ok] in Hsp. rewrite append_cons. cbn [str.lstrip].
    rewrite Hsp. rewrite <- append_cons.
    rewrite break_app; [reflexivity| |exact Hnl].
    intros x r [= <- _]. reflexivity.
Qed.

Lemma key_ok_inv k :
  key_ok k = true ->
  exists c r, k = String c r /\
    str.isspace c = false /\ Ascii.eqb c "#" = false /\ Ascii.eqb c ";" = false /\
    Ascii.eqb c "[" = false /\ ConfigParser.is_vi c = false /\
    str.contains_where ConfigParser.is_vi k = false /\
    str.contains_where (Ascii.eqb "010") k = false /\
    str.lower k = k /\ str.rstrip k = k /\
    String.eqb (str.lower (fst (str.break str.isspace k))) "rem" = false.
Proof.
  unfold key_ok. intros H.
  repeat (apply andb_true_iff in H as [H ?]).
  destruct k as [|c r]; [discriminate|]. cbn [first_char_ok] in H.
  apply negb_true_iff in H. repeat (apply orb_false_iff in H as [H ?]).
  exists c, r. repeat match goal with H : negb _ = true |- _ => apply negb_true_iff in H end.
  repeat match goal with H : String.eqb _ _ = true |- _ => apply String.eqb_eq in H end.
  repeat split; auto.
  - eapply contains_where_weaken; [|eassumption]. intros x Hx. cbn beta. now rewrite Hx.
  - eapply contains_where_weaken; [|eassumption]. intros x Hx. cbn beta.
    rewrite Hx. apply orb_true_r.
Qed.

Lemma value_ok_inv v :
  value_ok v = true ->
  str.contains_where (Ascii.eqb "010") v = false /\
  first_char_ok str.isspace v = false /\
  ConfigParser.clean_value v = v.
Proof.
  unfold value_ok. intros H. repeat (apply andb_true_iff in H as [H ?]).
  apply negb_true_iff in H. repeat split; auto.
  - now apply negb_true_iff.
  - now apply String.eqb_eq.
Qed.

Lemma feed_option st cur k v :
  ConfigParser.cursect st = Some cur ->
  key_ok k = true -> value_ok v = true ->
  ConfigParser.feed st (option_line (k, v))
  = Ok (let st' := ConfigParser.update_cursect cur (ConfigParser.alist_set k [v]) st in
        {| ConfigParser.p_defaults := ConfigParser.p_defaults st';
           ConfigParser.p_sections := ConfigParser.p_sections st';
           ConfigParser.cursect := ConfigParser.cursect st';
           ConfigParser.optname := Some k;
           ConfigParser.perror := ConfigParser.perror st' |}).
Proof.
  intros Hcur Hk Hv.
  destruct (key_ok_inv k Hk) as
    (c & r & -> & Hsp & Hh & Hsc & Hbr & Hvi & Hnovi & Hnonl & Hlow & Hrs & Hrem).
  destruct (value_ok_inv v Hv) as (Hvnl & Hvsp & Hclean).
  unfold ConfigParser.feed, option_line. cbn [fst snd].
  rewrite append_cons.
  rewrite is_comment_or_blank_false by assumption.
  assert (ConfigParser.is_rem (String c (r +:+ " = " +:+ v +:+ ConfigParser.nl)) = false) as ->.
  { unfold ConfigParser.is_rem. cbn [str.lstrip]. rewrite Hsp.
    rewrite <- append_cons.
    change (" = " +:+ v +:+ ConfigParser.nl) with (String " " ("= " +:+ v +:+ ConfigParser.nl)).
    rewrite break_fst_app by reflexivity. now rewrite Hrem. }
  cbn [ConfigParser.starts_with_space]. rewrite Hsp.
  rewrite match_section_not_bracket by assumption. rewrite Hcur.
  assert (ConfigParser.match_option (String c (r +:+ " = " +:+ v +:+ ConfigParser.nl))
          = Some (String c r +:+ " ", v)) as ->.
  { unfold ConfigParser.match_option. rewrite Hvi, Hsp. cbn [orb].
    rewrite <- append_cons.
    change (String c r +:+ " = " +:+ v +:+ ConfigParser.nl)
      with (String c r +:+ String " " (String "=" (String " " (v +:+ ConfigParser.nl)))).
    change (String " " (String "=" ?x)) with (" " +:+ String "=" x).
    rewrite <- append_assoc.
    rewrite break_app.
    - now rewrite lstrip_value.
    - intros x y [= <- _]. reflexivity.
    - rewrite contains_where_app, Hnovi. reflexivity. }
  rewrite rstrip_app_space by reflexivity.
  unfold ConfigParser.optionxform. rewrite Hrs, Hlow, Hclean. reflexivity.
Qed.

Lemma feed_all_app st l1 l2 :
  ConfigParser.feed_all st (l1 ++ l2)
  = match ConfigParser.feed_all st l1 with
    | Ok st' => ConfigParser.feed_all st' l2
    | Err e => Err e
    end.
Proof.
  revert st. induction l1 as [|l l1 IH]; intros st; [reflexivity|].
  cbn [app ConfigParser.feed_all]. destruct (ConfigParser.feed st l); [apply IH|reflexivity].
Qed.

(** The option lines of a section, read into the section being filled. *)
Lemma feed_options_section n pre opts : forall st done,
  ConfigParser.cursect st = Some (ConfigParser.InSection n) ->
  ConfigParser.p_sections st = pre ++ [(n, done)] ->
  n ∉ map fst pre ->
  Forall (fun kv => key_ok (fst kv) = true /\ value_ok (snd kv) = true) opts ->
  NoDup (map fst done ++ map fst opts) ->
  exists st',
    ConfigParser.feed_all st (map option_line opts) = Ok st' /\
    ConfigParser.cursect st' = Some (ConfigParser.InSection n) /\
    ConfigParser.p_sections st' = pre ++ [(n, done ++ map keep_line opts)] /\
    ConfigParser.p_defaults st' = ConfigParser.p_defaults st /\
    ConfigParser.perror st' = ConfigParser.perror st.
Proof.
  induction opts as [|[k v] opts IH]; intros st done Hcur Hsec Hfresh Hok Hnd.
  - exists st. cbn. rewrite app_nil_r. auto.
  - apply Forall_cons in Hok as [[Hk Hv] Hok]. cbn [fst snd] in Hk, Hv.
    cbn [map ConfigParser.feed_all]. rewrite (feed_option st _ k v Hcur Hk Hv).
    cbn [map fst] in Hnd.
    assert (k ∉ map fst done) as Hkd.
    { apply NoDup_app in Hnd as (_ & Hd & _). intros Hin. apply (Hd k Hin).
      apply list_elem_of_here. }
    match goal with |- context [ConfigParser.feed_all ?s _] => set (st1 := s) end.
    destruct (IH st1 (done ++ [(k, [v])])) as (st' & Hst' & Hc' & Hs' & Hd' & He').
    + subst st1. cbn. exact Hcur.
    + subst st1. cbn. rewrite Hsec. rewrite alist_alter_last by exact Hfresh.
      rewrite alist_set_fresh by exact Hkd. reflexivity.
    + exact Hfresh.
    + exact Hok.
    + rewrite map_app. cbn [map fst]. rewrite <- app_assoc. exact Hnd.
    + exists st'. rewrite Hst'. cbn [map keep_line fst snd].
      rewrite Hs', <- app_assoc. auto.
Qed.

(** The same for the options of [DEFAULT]. *)
Lemma feed_options_defaults opts : forall st done,
  ConfigParser.cursect st = Some ConfigParser.InDefaults ->
  ConfigParser.p_defaults st = done ->
  Forall (fun kv => key_ok (fst kv) = true /\ value_ok (snd kv) = true) opts ->
  NoDup (map fst done ++ map fst opts) ->
  exists st',
    ConfigParser.feed_all st (map option_line opts) = Ok st' /\
    ConfigParser.cursect st' = Some ConfigParser.InDefaults /\
    ConfigParser.p_defaults st' = done ++ map keep_line opts /\
    ConfigParser.p_sections st' = ConfigParser.p_sections st /\
    ConfigParser.perror st' = ConfigParser.perror st.
Proof.
  induction opts as [|[k v] opts IH]; intros st done Hcur Hdef Hok Hnd.
  - exists st. cbn. rewrite app_nil_r. auto.
  - apply Forall_cons in Hok as [[Hk Hv] Hok]. cbn [fst snd] in Hk, Hv.
    cbn [map ConfigParser.feed_all]. rewrite (feed_option st _ k v Hcur Hk Hv).
    cbn [map fst] in Hnd.
    assert (k ∉ map fst done) as Hkd.
    { apply NoDup_app in Hnd as (_ & Hd & _). intros Hin. apply (Hd k Hin).
      apply list_elem_of_here. }
    match goal with |- context [ConfigParser.feed_all ?s _] => set (st1 := s) end.
    destruct (IH st1 (done ++ [(k, [v])])) as (st' & Hst' & Hc' & Hs' & Hd' & He').
    + subst st1. cbn. exact Hcur.
    + subst st1. cbn. rewrite Hdef. now rewrite alist_set_fresh by exact Hkd.
    + exact Hok.
    + rewrite map_app. cbn [map fst]. rewrite <- app_assoc. exact Hnd.
    + exists st'. rewrite Hst'. cbn [map keep_line fst snd].
      rewrite Hs', <- app_assoc. auto.
Qed.

(** The lines of a whole section, read after the sections [p_sections st]. *)
Lemma feed_section sec st :
  section_name_ok (fst sec) = true ->
  options_ok (snd sec) ->
  fst sec ∉ map fst (ConfigParser.p_sections st) ->
  exists st',
    ConfigParser.feed_all st (section_lines_of sec) = Ok st' /\
    ConfigParser.p_sections st'
    = ConfigParser.p_sections st ++ [(fst sec, map keep_line (snd sec))] /\
    ConfigParser.p_defaults st' = ConfigParser.p_defaults st /\
    ConfigParser.perror st' = ConfigParser.perror st.
Proof.
  destruct sec as [n opts]. cbn [fst snd]. intros Hn [Hnd Hok] Hfresh.
  unfold section_lines_of. cbn [fst snd ConfigParser.feed_all].
  rewrite (feed_header st n Hn Hfresh).
  match goal with |- context [ConfigParser.feed_all ?s _] => set (st1 := s) end.
  destruct (feed_options_section n (ConfigParser.p_sections st) opts st1 [])
    as (st' & Hst' & Hc' & Hs' & Hd' & He'); auto.
  exists st'. rewrite feed_all_app, Hst'. cbn [ConfigParser.feed_all].
  rewrite feed_blank. auto.
Qed.

Lemma feed_sections secs : forall st,
  Forall (fun s => section_name_ok (fst s) = true /\ options_ok (snd s)) secs ->
  NoDup (map fst (ConfigParser.p_sections st) ++ map fst secs) ->
  exists st',
    ConfigParser.feed_all st (concat (map section_lines_of secs)) = Ok st' /\
    ConfigParser.p_sections st'
    = ConfigParser.p_sections st
      ++ map (fun s => (fst s, map keep_line (snd s))) secs /\
    ConfigParser.p_defaults st' = ConfigParser.p_defaults st /\
    ConfigParser.perror st' = ConfigParser.perror st.
Proof.
  induction secs as [|sec secs IH]; intros st Hok Hnd.
  - exists st. cbn. rewrite app_nil_r. auto.
  - apply Forall_cons in Hok as [[Hn Ho] Hok].
    cbn [map fst] in Hnd.
    assert (fst sec ∉ map fst (ConfigParser.p_sections st)) as Hfresh.
    { apply NoDup_app in Hnd as (_ & Hd & _). intros Hin. apply (Hd _ Hin).
      apply list_elem_of_here. }
    destruct (feed_section sec st Hn Ho Hfresh) as (st1 & H1 & Hs1 & Hd1 & He1).
    destruct (IH st1 Hok) as (st' & H' & Hs' & Hd' & He').
    { rewrite Hs1, map_app. cbn [map fst]. now rewrite <- app_assoc. }
    exists st'. cbn [map concat]. rewrite feed_all_app, H1, H'.
    rewrite Hs', Hs1, <- app_assoc. cbn [map app]. split; [reflexivity|].
    split; [reflexivity|]. split; congruence.
Qed.

(** The lines of the text of a section. *)
Lemma readlines_lines ls rest :
  Forall (fun l => exists a, l = a +:+ ConfigParser.nl /\
                     str.contains_where (Ascii.eqb "010") a = false) ls ->
  str.readlines (ConfigParser.concat ls +:+ rest) = ls ++ str.readlines rest.
Proof.
  induction ls as [|l ls IH]; intros H; [reflexivity|].
  apply Forall_cons in H as [(a & -> & Ha) H].
  cbn [ConfigParser.concat app]. rewrite !append_assoc.
  rewrite (readlines_line a _ Ha). now rewrite (IH H).
Qed.

Lemma option_line_write kv :
  key_ok (fst kv) = true -> value_ok (snd kv) = true ->
  ConfigParser.write_option kv = option_line kv /\
  exists a, option_line kv = a +:+ ConfigParser.nl /\
            str.contains_where (Ascii.eqb "010") a = false.
Proof.
  intros Hk Hv.
  destruct (key_ok_inv _ Hk) as (c & r & E & _ & _ & _ & _ & _ & _ & Hknl & _).
  destruct (value_ok_inv _ Hv) as (Hvnl & _ & _).
  unfold ConfigParser.write_option, option_line.
  rewrite (replace_char_none _ _ _ Hvnl). split; [reflexivity|].
  exists (fst kv +:+ " = " +:+ snd kv). rewrite !append_assoc. split; [reflexivity|].
  rewrite !contains_where_app, Hknl, Hvnl. reflexivity.
Qed.

Lemma options_write d :
  Forall (fun kv => key_ok (fst kv) = true /\ value_ok (snd kv) = true) d ->
  ConfigParser.concat (map ConfigParser.write_option d)
  = ConfigParser.concat (map option_line d) /\
  List.filter (fun kv => negb (String.eqb (fst kv) "__name__")) d = d /\
  Forall (fun l => exists a, l = a +:+ ConfigParser.nl /\
                     str.contains_where (Ascii.eqb "010") a = false)
    (map option_line d).
Proof.
  induction d as [|kv d IH]; intros H.
  - repeat split. constructor.
  - apply Forall_cons in H as [[Hk Hv] H]. destruct (IH H) as (E1 & E2 & E3).
    destruct (option_line_write kv Hk Hv) as [W L].
    cbn [map ConfigParser.concat]. rewrite W, E1. split; [reflexivity|].
    split.
    + cbn [List.filter].
      unfold key_ok in Hk. apply andb_true_iff in Hk as [_ Hk].
      now rewrite Hk, E2.
    + constructor; assumption.
Qed.

Lemma section_text_lines sec :
  section_name_ok (fst sec) = true ->
  options_ok (snd sec) ->
  ConfigParser.write_section sec = ConfigParser.concat (section_lines_of sec) /\
  Forall line_ok (section_lines_of sec).
Proof.
  destruct sec as [n opts]. cbn [fst snd]. intros Hn [_ Hok].
  destruct (options_write opts Hok) as (E1 & E2 & E3).
  unfold ConfigParser.write_section, section_lines_of. cbn [fst snd].
  rewrite E2, E1. split.
  - cbn [ConfigParser.concat]. rewrite concat_app. cbn [ConfigParser.concat].
    unfold header_line. now rewrite !append_assoc, append_nil_r.
  - constructor; [|apply Forall_app; split; [exact E3|]].
    + exists ("[" +:+ n +:+ "]"). unfold header_line. rewrite !append_assoc.
      split; [reflexivity|]. rewrite !contains_where_app. cbn.
      rewrite orb_false_r. unfold section_name_ok in Hn.
      apply andb_true_iff in Hn as [Hn _]. apply andb_true_iff in Hn as [_ Hn].
      apply negb_true_iff in Hn. eapply contains_where_weaken; [|exact Hn].
      intros c Hc. cbn beta. rewrite Hc. apply orb_true_r.
    + constructor; [|constructor]. exists EmptyString. split; reflexivity.
Qed.

Lemma sections_text_lines secs :
  Forall (fun s => section_name_ok (fst s) = true /\ options_ok (snd s)) secs ->
  ConfigParser.concat (map ConfigParser.write_section secs)
  = ConfigParser.concat (concat (map section_lines_of secs)) /\
  Forall line_ok (concat (map section_lines_of secs)).
Proof.
  induction secs as [|sec secs IH]; intros H.
  - split; [reflexivity|constructor].
  - apply Forall_cons in H as [[Hn Ho] H]. destruct (IH H) as [E F].
    destruct (section_text_lines sec Hn Ho) as [E' F'].
    cbn [map concat ConfigParser.concat]. rewrite concat_app, E, E'.
    split; [reflexivity|]. now apply Forall_app.
Qed.

Lemma readlines_all ls :
  Forall line_ok ls -> str.readlines (ConfigParser.concat ls) = ls.
Proof.
  intros H. rewrite <- (append_nil_r (ConfigParser.concat ls)).
  rewrite (readlines_lines ls EmptyString H). apply app_nil_r.
Qed.

Lemma join_keep_line d :
  ConfigParser.join_values (map keep_line d) = d.
Proof.
  induction d as [|[k v] d IH]; [reflexivity|].
  unfold ConfigParser.join_values in *. cbn [map keep_line fst snd str.join].
  now rewrite IH.
Qed.

Lemma join_keep_sections (secs : list (string * ConfigParser.options)) :
  map (fun s => (fst s, ConfigParser.join_values (snd s)))
    (map (fun s => (fst s, map keep_line (snd s))) secs) = secs.
Proof.
  induction secs as [|[n d] secs IH]; [reflexivity|].
  cbn [map]. f_equal; [|exact IH]. cbn [fst snd]. f_equal. apply join_keep_line.
Qed.

(** The [DEFAULT] section at the head of the text. *)
Lemma feed_defaults d :
  d <> [] ->
  options_ok d ->
  ConfigParser.write_defaults d
  = ConfigParser.concat (section_lines_of (ConfigParser.DEFAULTSECT, d)) /\
  Forall line_ok (section_lines_of (ConfigParser.DEFAULTSECT, d)) /\
  exists st',
    ConfigParser.feed_all ConfigParser.pstate0
      (section_lines_of (ConfigParser.DEFAULTSECT, d)) = Ok st' /\
    ConfigParser.p_defaults st' = map keep_line d /\
    ConfigParser.p_sections st' = [] /\
    ConfigParser.perror st' = false.
Proof.
  intros Hne [Hnd Hok]. destruct (options_write d Hok) as (E1 & E2 & E3).
  split; [|split].
  - unfold ConfigParser.write_defaults, section_lines_of. cbn [fst snd].
    destruct d as [|kv d]; [congruence|]. rewrite E1.
    cbn [ConfigParser.concat]. rewrite concat_app. cbn [ConfigParser.concat].
    unfold header_line. now rewrite !append_assoc, append_nil_r.
  - unfold section_lines_of. cbn [fst snd].
    constructor; [|apply Forall_app; split; [exact E3|]].
    + exists "[DEFAULT]"%string. split; reflexivity.
    + constructor; [|constructor]. exists EmptyString. split; reflexivity.
  - unfold section_lines_of. cbn [fst snd].
    set (st1 := {| ConfigParser.p_defaults := []; ConfigParser.p_sections := [];
                   ConfigParser.cursect := Some ConfigParser.InDefaults;
                   ConfigParser.optname := None; ConfigParser.perror := false |}).
    assert (ConfigParser.feed ConfigParser.pstate0 (header_line ConfigParser.DEFAULTSECT)
            = Ok st1) as Hh by reflexivity.
    destruct (feed_options_defaults d st1 []) as (st' & Hst' & Hc' & Hd' & Hs' & He'); auto.
    exists st'. cbn [ConfigParser.feed_all]. rewrite Hh, feed_all_app, Hst'.
    cbn [ConfigParser.feed_all]. rewrite feed_blank. auto.
Qed.

(** A well-formed configuration is read back from its text as it is. *)
Theorem read_write cfg :
  config_ok cfg -> ConfigParser._read (ConfigParser.write cfg) = Ok cfg.
Proof.
  destruct cfg as [d secs]. intros (Hd & Hnd & Hsecs). cbn in Hd, Hnd, Hsecs.
  unfold ConfigParser._read, ConfigParser.write. cbn [ConfigParser._defaults ConfigParser._sections].
  destruct (sections_text_lines secs Hsecs) as [E F]. rewrite E.
  destruct (decide (d = [])) as [->|Hne].
  - cbn [ConfigParser.write_defaults]. change (EmptyString +:+ ?x) with x.
    rewrite (readlines_all _ F).
    destruct (feed_sections secs ConfigParser.pstate0 Hsecs) as (st' & H' & Hs' & Hd' & He').
    { exact Hnd. }
    rewrite H', He'. cbn [ConfigParser.perror ConfigParser.pstate0].
    rewrite Hs', Hd'. cbn [ConfigParser.p_sections ConfigParser.p_defaults ConfigParser.pstate0 app].
    now rewrite join_keep_sections.
  - destruct (feed_defaults d Hne Hd) as (W & L & st1 & H1 & Hd1 & Hs1 & He1).
    rewrite W, <- concat_app, readlines_all by (apply Forall_app; split; assumption).
    rewrite feed_all_app, H1.
    destruct (feed_sections secs st1 Hsecs) as (st' & H' & Hs' & Hd' & He').
    { now rewrite Hs1. }
    rewrite H', He', He1, Hs', Hd', Hs1, Hd1. cbn [app].
    now rewrite join_keep_sections, join_keep_line.
Qed.

(** ** What [save_token] leaves in the parser *)

(** The first save adds the token section at the end. *)
Lemma store_token_new cfg t :
  ConfigParser.has_section cfg "gbdx_token" = false ->
  ConfigParser._sections (store_token cfg t)
  = ConfigParser._sections cfg ++ [("gbdx_token"%string, [("json"%string, json.dumps t)])].
Proof.
  intros Hs. unfold store_token. rewrite Hs. cbn [ConfigParser._sections].
  rewrite alist_alter_app_new; [reflexivity|].
  unfold ConfigParser.has_section, ConfigParser.sections in Hs.
  now apply bool_decide_eq_false in Hs.
Qed.

Lemma store_token_has_section cfg t :
  ConfigParser.has_section (store_token cfg t) "gbdx_token" = true.
Proof.
  unfold ConfigParser.has_section, ConfigParser.sections, store_token.
  cbn [ConfigParser._sections]. rewrite alist_alter_keys.
  apply bool_decide_eq_true.
  destruct (ConfigParser.has_section cfg "gbdx_token") eqn:E.
  - now apply bool_decide_eq_true in E.
  - rewrite map_app. apply elem_of_app. right. apply list_elem_of_here.
Qed.

Lemma store_token_idem cfg t :
  store_token (store_token cfg t) t = store_token cfg t.
Proof.
  unfold store_token at 1. rewrite store_token_has_section.
  unfold store_token. cbn [ConfigParser._sections ConfigParser._defaults].
  f_equal. apply alist_alter_idem. intros o. apply alist_set_idem.
Qed.

(** The other sections keep their options and values. *)
Lemma store_token_other cfg t name :
  name <> "gbdx_token"%string ->
  ConfigParser.alist_get name (ConfigParser._sections (store_token cfg t))
  = ConfigParser.alist_get name (ConfigParser._sections cfg).
Proof.
  intros Hne. unfold store_token. cbn [ConfigParser._sections].
  rewrite alist_get_alter.
  destruct (String.eqb_spec "gbdx_token" name) as [E|_]; [congruence|].
  destruct (ConfigParser.has_section cfg "gbdx_token"); [reflexivity|].
  apply alist_get_app_ne. congruence.
Qed.

Lemma store_token_get cfg t section option :
  section <> "gbdx_token"%string ->
  ConfigParser.get (store_token cfg t) section option
  = ConfigParser.get cfg section option.
Proof.
  intros Hne. unfold ConfigParser.get.
  rewrite (store_token_other cfg t section Hne). reflexivity.
Qed.

Lemma store_token_json cfg t :
  exists o,
    ConfigParser.alist_get "gbdx_token" (ConfigParser._sections (store_token cfg t))
    = Some o /\
    ConfigParser.alist_get "json" o = Some (json.dumps t).
Proof.
  unfold store_token. cbn [ConfigParser._sections]. rewrite alist_get_alter.
  cbn [String.eqb Ascii.eqb Bool.eqb].
  destruct (ConfigParser.has_section cfg "gbdx_token") eqn:E.
  - apply has_section_get in E as [o Ho]. rewrite Ho. cbn.
    eexists. split; [reflexivity|]. now rewrite alist_get_set.
  - destruct (ConfigParser.alist_get "gbdx_token"
                (ConfigParser._sections cfg ++ [("gbdx_token"%string, [])])) eqn:G.
    + cbn. eexists. split; [reflexivity|]. now rewrite alist_get_set.
    + now apply alist_get_app_new in G.
Qed.

Lemma store_token_get_json cfg t :
  str.contains_sub "%(" (json.dumps t) = false ->
  ConfigParser.get (store_token cfg t) "gbdx_token" "json" = Ok (json.dumps t).
Proof.
  intros Hs. unfold ConfigParser.get.
  destruct (store_token_json cfg t) as (o & -> & Ho).
  change (ConfigParser.optionxform "json") with "json"%string.
  rewrite Ho. unfold ConfigParser._interpolate. now rewrite Hs.
Qed.

Lemma dumps_value_ok t :
  ConfigParser.cut_comment (json.dumps t) = json.dumps t ->
  value_ok (json.dumps t) = true.
Proof.
  intros Hcut. unfold value_ok. rewrite dumps_one_line.
  destruct (dumps_braces t) as [body E].
  unfold ConfigParser.clean_value. rewrite Hcut, E. cbn [first_char_ok negb andb].
  assert (str.strip (String "{" (body +:+ "}")) = String "{" (body +:+ "}")) as ->.
  { unfold str.strip. cbn [str.lstrip str.isspace Ascii.is_space].
    rewrite <- append_cons. now apply rstrip_last. }
  cbn [String.eqb Ascii.eqb Bool.eqb]. apply String.eqb_refl.
Qed.

Lemma options_ok_set_json d text :
  value_ok text = true -> options_ok d ->
  options_ok (ConfigParser.alist_set "json" text d).
Proof.
  intros Hv [Hnd Hok]. split; [now apply alist_set_NoDup|].
  apply alist_set_Forall; auto.
Qed.

(** Saving a token keeps the configuration well formed. *)
Lemma store_token_ok cfg t :
  config_ok cfg ->
  ConfigParser.cut_comment (json.dumps t) = json.dumps t ->
  config_ok (store_token cfg t).
Proof.
  intros (Hd & Hnd & Hsecs) Hcut. pose proof (dumps_value_ok t Hcut) as Hv.
  unfold config_ok, store_token. cbn [ConfigParser._defaults ConfigParser._sections].
  split; [exact Hd|]. rewrite alist_alter_keys.
  destruct (ConfigParser.has_section cfg "gbdx_token") eqn:E.
  - split; [exact Hnd|]. apply alist_alter_Forall; [|exact Hsecs].
    intros o [Hn Ho]. split; [exact Hn|]. now apply options_ok_set_json.
  - unfold ConfigParser.has_section, ConfigParser.sections in E.
    apply bool_decide_eq_false in E. split.
    + rewrite map_app. apply NoDup_app. split; [exact Hnd|]. split.
      * intros x Hx Hx'. cbn in Hx'. apply list_elem_of_singleton in Hx'. now subst.
      * cbn. apply NoDup_singleton.
    + apply alist_alter_Forall.
      * intros o [Hn Ho]. split; [exact Hn|]. now apply options_ok_set_json.
      * apply Forall_app. split; [exact Hsecs|]. constructor; [|constructor].
        split; [reflexivity|]. split; constructor.
Qed.

(** ** The steps of [session_from_config] *)

Ltac munfold :=
  unfold bind, ret, raise, lift, try_except, or_raise, json_loads,
    seconds_from_now, datetime_now, datetime_fromtimestamp,
    os_environ, dict_get, expanduser_home,
    os_path_isfile, write_file in *.

(** [save_token] cannot fail: it leaves [store_token cfg t] in the parser
    and its text in the file. *)
Lemma save_token_spec path cfg t w :
  save_token path cfg t w =
  (Ok (store_token cfg t),
   log (EvWrite path (ConfigParser.write (store_token cfg t)))
     (set_file path (ConfigParser.write (store_token cfg t)) w)).
Proof.
  unfold save_token, store_token, bind, lift, ret, write_file.
  destruct (ConfigParser.has_section cfg "gbdx_token") eqn:Hs; simpl.
  - apply has_section_get in Hs. destruct Hs as [d Hd].
    unfold ConfigParser.set. simpl. rewrite Hd. reflexivity.
  - unfold ConfigParser.add_section. rewrite Hs. simpl.
    unfold ConfigParser.set. simpl.
    destruct (ConfigParser.alist_get "gbdx_token"
                (ConfigParser._sections cfg ++ [("gbdx_token"%string, [])])) eqn:E.
    + reflexivity.
    + now apply alist_get_app_new in E.
Qed.

(** Resolving the credentials reads the parser only. *)
Lemma client_credentials_pure cfg w :
  snd (client_credentials cfg w) = w.
Proof.
  unfold client_credentials. munfold.
  repeat (case_match; munfold; simplify_eq/=); reflexivity.
Qed.

(** The credentials depend on the [gbdx] options only. *)
Lemma client_credentials_ext cfg cfg' w w' :
  (forall option, ConfigParser.get cfg' "gbdx" option = ConfigParser.get cfg "gbdx" option) ->
  fst (client_credentials cfg' w') = fst (client_credentials cfg w).
Proof.
  intros H. unfold client_credentials. munfold. rewrite !H.
  repeat (case_match; munfold; simplify_eq/=); reflexivity.
Qed.

Lemma client_credentials_store cfg t c w w' :
  client_credentials cfg w = (Ok c, w) ->
  client_credentials (store_token cfg t) w' = (Ok c, w').
Proof.
  intros H.
  pose proof (client_credentials_ext cfg (store_token cfg t) w w') as E.
  rewrite H in E. pose proof (client_credentials_pure (store_token cfg t) w') as P.
  destruct (client_credentials (store_token cfg t) w') as [r w2].
  simpl in *. subst. f_equal. apply E. intros o. now apply store_token_get.
Qed.

(** With [client_id] and [client_secret] in the file, [api_key] is the
    base64 text of [client_id:client_secret]. *)
Lemma client_credentials_direct cfg cid csecret w :
  ConfigParser.get cfg "gbdx" "client_id" = Ok cid ->
  ConfigParser.get cfg "gbdx" "client_secret" = Ok csecret ->
  client_credentials cfg w
  = (Ok (cid, csecret, base64.b64encode (cid +:+ ":" +:+ csecret)), w).
Proof.
  intros H1 H2. unfold client_credentials. munfold. now rewrite H1, H2.
Qed.

(** With only an [api_key] in the file, [api_key] stays the text of the
    file. *)
Lemma client_credentials_api_key cfg sec api_key cid csecret w :
  ConfigParser.get cfg "gbdx" "client_id" = Err (NoOptionError "client_id" sec) ->
  ConfigParser.get cfg "gbdx" "api_key" = Ok api_key ->
  _unpack_apikey api_key = Some (cid, csecret) ->
  client_credentials cfg w = (Ok (cid, csecret, api_key), w).
Proof.
  intros H1 H2 H3. unfold client_credentials. munfold.
  rewrite H1. cbn. now rewrite H2, H3.
Qed.

(** With a [gbdx_token] section the function builds the session from the
    stored record and leaves the world as it found it. *)
Lemma datetime_fromtimestamp_ok t w :
  representable w t -> datetime_fromtimestamp t w = (Ok (local_time w t), w).
Proof.
  intros [H1 H2]. unfold datetime_fromtimestamp.
  apply Z.leb_le in H1, H2. now rewrite H1, H2.
Qed.

Lemma datetime_fromtimestamp_late t w :
  datetime_max < local_time w t -> datetime_fromtimestamp t w = (Err ValueError, w).
Proof.
  intros H. unfold datetime_fromtimestamp.
  apply Z.leb_gt in H. rewrite H. now rewrite andb_false_r.
Qed.

Lemma seconds_from_now_ok t w :
  representable w t -> representable w (clock w) ->
  seconds_from_now t w = (Ok (local_time w t - local_time w (clock w)), w).
Proof.
  intros Ht Hn. unfold seconds_from_now, datetime_now, bind, ret.
  now rewrite (datetime_fromtimestamp_ok _ _ Ht), (datetime_fromtimestamp_ok _ _ Hn).
Qed.

(** With a [gbdx_token] section the function builds the session from the
    stored record and leaves the world as it found it, when the time the
    record expires and the current time are times [datetime] has. *)
Lemma session_from_config_stored path text cfg cid csecret key jtxt t url w :
  files w !! path = Some text ->
  ConfigParser._read text = Ok cfg ->
  client_credentials cfg w = (Ok (cid, csecret, key), w) ->
  ConfigParser.has_section cfg "gbdx_token" = true ->
  ConfigParser.get cfg "gbdx_token" "json" = Ok jtxt ->
  json.loads jtxt = Some t ->
  ConfigParser.get cfg "gbdx" "auth_url" = Ok url ->
  representable w (expires_at t) ->
  representable w (clock w) ->
  session_from_config path w =
  (Ok {| client_id := cid;
         token := Some (set_expires_at
                          (local_time w (expires_at t) - local_time w (clock w) - 600) t);
         auto_refresh_url := url;
         auto_refresh_kwargs := [("client_id", cid); ("client_secret", csecret)]%string;
         token_updater := UpdateConfig path cfg |}, w).
Proof.
  intros Hf Hr Hc Hs Hj Hl Hu Ht Hn.
  unfold session_from_config, ConfigParser_read.
  unfold bind, ret, raise, lift, json_loads.
  rewrite Hf, Hr, Hc, Hs, Hj, Hl. unfold ret. cbv beta iota zeta.
  rewrite (seconds_from_now_ok _ _ Ht Hn). cbv beta iota zeta.
  rewrite Hu. reflexivity.
Qed.

(** A stored record that expires after the last second [datetime] has
    stops the function with ValueError. *)
Lemma session_from_config_stored_late path text cfg cid csecret key jtxt t w :
  files w !! path = Some text ->
  ConfigParser._read text = Ok cfg ->
  client_credentials cfg w = (Ok (cid, csecret, key), w) ->
  ConfigParser.has_section cfg "gbdx_token" = true ->
  ConfigParser.get cfg "gbdx_token" "json" = Ok jtxt ->
  json.loads jtxt = Some t ->
  datetime_max < local_time w (expires_at t) ->
  session_from_config path w = (Err ValueError, w).
Proof.
  intros Hf Hr Hc Hs Hj Hl Ht.
  unfold session_from_config, ConfigParser_read.
  unfold bind, ret, raise, lift, json_loads, seconds_from_now.
  rewrite Hf, Hr, Hc, Hs, Hj, Hl. unfold ret, bind. cbv beta iota zeta.
  now rewrite (datetime_fromtimestamp_late _ _ Ht).
Qed.

(** Without a [gbdx_token] section and with an accepting server: one grant
    exchange, one write of the file, and then the unbound [s]. *)
Lemma session_from_config_fresh path text cfg cid csecret key url user pw t w :
  files w !! path = Some text ->
  ConfigParser._read text = Ok cfg ->
  client_credentials cfg w = (Ok (cid, csecret, key), w) ->
  ConfigParser.has_section cfg "gbdx_token" = false ->
  ConfigParser.get cfg "gbdx" "auth_url" = Ok url ->
  ConfigParser.get cfg "gbdx" "user_name" = Ok user ->
  ConfigParser.get cfg "gbdx" "user_password" = Ok pw ->
  auth_server w (config_grant_request url user pw key) = Some t ->
  session_from_config path w =
  (Err (UnboundLocalError "s"),
   log (EvWrite path (ConfigParser.write (store_token cfg t)))
     (set_file path (ConfigParser.write (store_token cfg t))
        (log (EvFetchToken (config_grant_request url user pw key) (Some t)) w))).
Proof.
  intros Hf Hr Hc Hs Hu Hn Hp Ha.
  unfold session_from_config, ConfigParser_read. munfold.
  rewrite Hf, Hr, Hc, Hs, Hu, Hn, Hp.
  unfold fetch_token. fold (config_grant_request url user pw key).
  rewrite Ha. rewrite save_token_spec. reflexivity.
Qed.

(** Every run of [session_from_config] is of one of three kinds: no
    effect at all; a rejected grant exchange and nothing else; an accepted
    grant exchange followed by the write of the file. *)
Lemma session_from_config_cases path w r w' :
  session_from_config path w = (r, w') ->
  w' = w \/
  (exists req,
     auth_server w req = None /\ r = Err OAuth2Error /\
     w' = log (EvFetchToken req None) w) \/
  (exists req t text,
     auth_server w req = Some t /\ r = Err (UnboundLocalError "s") /\
     w' = log (EvWrite path text)
            (set_file path text (log (EvFetchToken req (Some t)) w))).
Proof.
  unfold session_from_config, ConfigParser_read. munfold.
  destruct (files w !! path) as [text|]; [|intros; simplify_eq; auto].
  destruct (ConfigParser._read text) as [cfg|e]; [|intros; simplify_eq; auto].
  pose proof (client_credentials_pure cfg w) as Hp.
  destruct (client_credentials cfg w) as [[[[cid cs] key]|e] w1]; simpl in Hp; subst w1;
    [|intros; simplify_eq; auto].
  destruct (ConfigParser.has_section cfg "gbdx_token").
  - intros H. left. repeat (case_match; munfold; simplify_eq/=); reflexivity.
  - unfold fetch_token. intros H.
    repeat (case_match; munfold; simplify_eq/=); auto.
    + right; right. rewrite save_token_spec in *. simplify_eq. eauto 10.
    + rewrite save_token_spec in *. simplify_eq.
    + right; left. eauto.
Qed.

(** ** Events *)

Lemma events_since_refl w : events_since w w = [].
Proof. unfold events_since. apply drop_all. Qed.

Lemma events_since_log e w : events_since w (log e w) = [e].
Proof. unfold events_since. simpl. apply drop_app_length. Qed.

Lemma events_since_log2 e1 e2 p t w :
  events_since w (log e2 (set_file p t (log e1 w))) = [e1; e2].
Proof.
  unfold events_since. simpl. rewrite <- app_assoc. apply drop_app_length.
Qed.

(** ** Stored token *)


(** Where the clocks are put back an hour between now and the time the
    record expires, the lifetime the session is given is an hour shorter
    than the time that is left. *)
Lemma stored_token_clock_change :
  expires_at sample_token - clock clock_change_world - 600 = 999400 /\
  match session_from_config sample_path clock_change_world with
  | (Ok s, _) => expires_at <$> token s
  | (Err _, _) => None
  end = Some (999400 - 3600).
Proof. vm_compute. split; reflexivity. Qed.



(** ** Saving and loading a token *)

(** C2 as stated fails: the record loaded after a save has the remaining
    lifetime less the margin as its [expires_at], not the absolute time
    that was saved. *)
Lemma save_load_expires_at_differs :
  let w0 := sample_world (Some (ConfigParser.write sample_cfg)) None in
  let w1 := snd (save_token sample_path sample_cfg sample_token w0) in
  exists s t',
    fst (save_token sample_path sample_cfg sample_token w0)
    = Ok (store_token sample_cfg sample_token) /\
    session_from_config sample_path w1 = (Ok s, w1) /\
    token s = Some t' /\
    expires_at sample_token = 2000000 /\
    expires_at t' = 999400 /\
    t' <> sample_token.
Proof.
  eexists _, _.
  split; [vm_compute; reflexivity|].
  split; [vm_compute; reflexivity|].
  split; [reflexivity|].
  split; [reflexivity|]. split; [reflexivity|]. discriminate.
Qed.

(** A record whose text has a semicolon after a blank does not come back
    at all: the ini reader takes the rest of the line for a comment, and
    what is left is no JSON text. *)
Lemma save_load_semicolon_cut :
  let w0 := sample_world (Some (ConfigParser.write sample_cfg)) None in
  let w1 := snd (save_token sample_path sample_cfg semicolon_token w0) in
  ConfigParser.cut_comment (json.dumps semicolon_token) <> json.dumps semicolon_token /\
  fst (session_from_config sample_path w1) = Err ValueError.
Proof. vm_compute. split; [discriminate|reflexivity]. Qed.

(** C2, amended: a Token Record saved to the store and loaded from the
    same store comes back with the same access_token, refresh_token,
    token_type and scope; its expires_at is the remaining lifetime less
    600 seconds: the saved time less the current time, both as the local
    clock shows them.  The saved time and the current time are times
    [datetime] has (local years 1 to 9999).  The record is a dict of the
    five members, written in whatever order.  The store is one that
    ConfigParser reads back as written and that has usable credentials,
    and the text of the record has nothing the ini file treats specially:
    no [%(], and no semicolon after a blank. *)
Theorem save_then_load path cfg t c url w :
  config_ok cfg ->
  client_credentials cfg w = (Ok c, w) ->
  ConfigParser.get cfg "gbdx" "auth_url" = Ok url ->
  str.contains_sub "%(" (json.dumps t) = false ->
  ConfigParser.cut_comment (json.dumps t) = json.dumps t ->
  is_dict t = true ->
  representable w (expires_at t) ->
  representable w (clock w) ->
  let w1 := snd (save_token path cfg t w) in
  exists s t',
    fst (save_token path cfg t w) = Ok (store_token cfg t) /\
    session_from_config path w1 = (Ok s, w1) /\
    token s = Some t' /\
    access_token t' = access_token t /\
    refresh_token t' = refresh_token t /\
    token_type t' = token_type t /\
    scope t' = scope t /\
    expires_at t'
    = local_time w (expires_at t) - local_time w (clock w) - 600.
Proof.
  intros Hok Hc Hu Hs Hcut Hd Ht Hn w1. subst w1. destruct c as [[cid csecret] key].
  rewrite save_token_spec. cbn [fst snd].
  eexists _, (set_expires_at
                (local_time w (expires_at t) - local_time w (clock w) - 600) t).
  split; [reflexivity|]. split.
  - eapply session_from_config_stored.
    + cbn. apply lookup_insert_eq.
    + apply read_write. now apply store_token_ok.
    + eapply client_credentials_store, Hc.
    + apply store_token_has_section.
    + now apply store_token_get_json.
    + now apply loads_dumps.
    + rewrite store_token_get by discriminate. exact Hu.
    + exact Ht.
    + exact Hn.
  - cbn. repeat split; reflexivity.
Qed.

Lemma save_then_load_witness :
  let w0 := sample_world (Some (ConfigParser.write sample_cfg)) None in
  let w1 := snd (save_token sample_path sample_cfg sample_token w0) in
  exists s t',
    fst (save_token sample_path sample_cfg sample_token w0)
    = Ok (store_token sample_cfg sample_token) /\
    session_from_config sample_path w1 = (Ok s, w1) /\
    token s = Some t' /\
    access_token t' = "AT" /\
    refresh_token t' = "RT" /\
    token_type t' = "Bearer" /\
    scope t' = ["read"]%string /\
    expires_at t' = (2000000 + 0) - (1000000 + 0) - 600.
Proof.
  apply (save_then_load sample_path sample_cfg sample_token
           ("abc", "def", base64.b64encode "abc:def")%string "https://auth/"
           (sample_world (Some (ConfigParser.write sample_cfg)) None)).
  - apply (bool_decide_unpack _). vm_compute. exact I.
  - vm_compute. reflexivity.
  - vm_compute. reflexivity.
  - vm_compute. reflexivity.
  - vm_compute. reflexivity.
  - vm_compute. reflexivity.
  - vm_compute. split; discriminate.
  - vm_compute. split; discriminate.
Defined.

(** ** Saving twice *)

(** C7 as stated fails on a file written by hand: the saves put the
    credentials section back in the layout of ConfigParser, without the
    comment and with blanks around the equals signs. *)
Lemma save_twice_rewrites_credentials :
  let w0 := sample_world (Some handwritten_text) None in
  let cfg1 := store_token sample_cfg sample_token in
  let w1 := snd (save_token sample_path sample_cfg sample_token w0) in
  let w2 := snd (save_token sample_path cfg1 sample_token w1) in
  ConfigParser_read sample_path w0 = (Ok (Some sample_cfg), w0) /\
  fst (save_token sample_path sample_cfg sample_token w0) = Ok cfg1 /\
  fst (save_token sample_path cfg1 sample_token w1) = Ok cfg1 /\
  section_text "gbdx" <$> files w0 !! sample_path = Some handwritten_text /\
  section_text "gbdx" <$> files w2 !! sample_path
  = Some (ConfigParser.write_section
            ("gbdx", [("client_id", "abc"); ("client_secret", "def");
                      ("user_name", "u"); ("user_password", "p");
                      ("auth_url", "https://auth/")])%string) /\
  section_text "gbdx" <$> files w2 !! sample_path
  <> section_text "gbdx" <$> files w0 !! sample_path.
Proof.
  vm_compute. repeat split; try reflexivity. discriminate.
Qed.

(** C7, amended: saving the same Token Record twice in succession leaves
    the file, after the second save, byte-identical to its state after the
    first; every section but the token section keeps its options and
    values; and when there was no token section the file written is the
    text ConfigParser writes for the sections read, followed by the token
    section. *)
Theorem save_twice_same_file path cfg t w :
  let cfg1 := store_token cfg t in
  let w1 := snd (save_token path cfg t w) in
  let w2 := snd (save_token path cfg1 t w1) in
  fst (save_token path cfg t w) = Ok cfg1 /\
  fst (save_token path cfg1 t w1) = Ok cfg1 /\
  files w1 !! path = Some (ConfigParser.write cfg1) /\
  files w2 = files w1 /\
  (forall name, name <> "gbdx_token"%string ->
     ConfigParser.alist_get name (ConfigParser._sections cfg1)
     = ConfigParser.alist_get name (ConfigParser._sections cfg)) /\
  (ConfigParser.has_section cfg "gbdx_token" = false ->
     ConfigParser.write cfg1
     = ConfigParser.write cfg
       +:+ ConfigParser.write_section ("gbdx_token", [("json", json.dumps t)])%string).
Proof.
  intros cfg1 w1 w2. subst cfg1 w1 w2.
  rewrite !save_token_spec, store_token_idem. cbn [fst snd].
  split; [reflexivity|]. split; [reflexivity|].
  split; [cbn; apply lookup_insert_eq|].
  split; [cbn; apply insert_insert_eq|].
  split; [intros name Hne; now apply store_token_other|].
  intros Hs. unfold ConfigParser.write.
  rewrite (store_token_new cfg t Hs), map_app, concat_app, <- append_assoc.
  cbn [map ConfigParser.concat]. now rewrite append_nil_r.
Qed.

Lemma save_twice_same_file_witness :
  ConfigParser.write (store_token sample_cfg sample_token)
  = ConfigParser.write sample_cfg
    +:+ ConfigParser.write_section
          ("gbdx_token", [("json", json.dumps sample_token)])%string.
Proof.
  destruct (save_twice_same_file sample_path sample_cfg sample_token
              (sample_world (Some (ConfigParser.write sample_cfg)) None))
    as (_ & _ & _ & _ & _ & H).
  apply H. reflexivity.
Defined.

(** ** The Authorization header of the grant exchange *)

(** The grant exchange of a file with [client_id] and [client_secret]
    carries [Basic base64(client_id:client_secret)]. *)
Lemma direct_credentials_basic_header
    path text cfg cid csecret url user pw t w :
  files w !! path = Some text ->
  ConfigParser._read text = Ok cfg ->
  ConfigParser.get cfg "gbdx" "client_id" = Ok cid ->
  ConfigParser.get cfg "gbdx" "client_secret" = Ok csecret ->
  ConfigParser.has_section cfg "gbdx_token" = false ->
  ConfigParser.get cfg "gbdx" "auth_url" = Ok url ->
  ConfigParser.get cfg "gbdx" "user_name" = Ok user ->
  ConfigParser.get cfg "gbdx" "user_password" = Ok pw ->
  auth_server w
    (config_grant_request url user pw (base64.b64encode (cid +:+ ":" +:+ csecret)))
  = Some t ->
  exists req w',
    snd (session_from_config path w) = w' /\
    List.filter is_grant (events_since w w') = [EvFetchToken req (Some t)] /\
    ConfigParser.alist_get "Authorization" (headers req)
    = Some ("Basic " +:+ base64.b64encode (cid +:+ ":" +:+ csecret)).
Proof.
  intros Hf Hr H1 H2 Hs Hu Hn Hp Ha.
  eexists _, _. split.
  - rewrite (session_from_config_fresh path text cfg cid csecret
               (base64.b64encode (cid +:+ ":" +:+ csecret)) url user pw t w)
      by auto using client_credentials_direct.
    cbn [snd]. reflexivity.
  - rewrite events_since_log2. split; reflexivity.
Qed.

(** The grant exchange of a file with an [api_key] and neither
    [client_id] nor [client_secret] carries the key as it stands. *)
Lemma api_key_raw_header
    path text cfg sec apikey cid csecret url user pw t w :
  files w !! path = Some text ->
  ConfigParser._read text = Ok cfg ->
  ConfigParser.get cfg "gbdx" "client_id" = Err (NoOptionError "client_id" sec) ->
  ConfigParser.get cfg "gbdx" "api_key" = Ok apikey ->
  _unpack_apikey apikey = Some (cid, csecret) ->
  ConfigParser.has_section cfg "gbdx_token" = false ->
  ConfigParser.get cfg "gbdx" "auth_url" = Ok url ->
  ConfigParser.get cfg "gbdx" "user_name" = Ok user ->
  ConfigParser.get cfg "gbdx" "user_password" = Ok pw ->
  auth_server w (config_grant_request url user pw apikey) = Some t ->
  exists req w',
    snd (session_from_config path w) = w' /\
    List.filter is_grant (events_since w w') = [EvFetchToken req (Some t)] /\
    ConfigParser.alist_get "Authorization" (headers req) = Some ("Basic " +:+ apikey) /\
    "Basic " +:+ apikey <> "Basic " +:+ base64.b64encode (cid +:+ ":" +:+ csecret).
Proof.
  intros Hf Hr H1 H2 H3 Hs Hu Hn Hp Ha.
  eexists _, _. split.
  - rewrite (session_from_config_fresh path text cfg cid csecret apikey url user pw t w)
      by eauto using client_credentials_api_key.
    cbn [snd]. reflexivity.
  - rewrite events_since_log2. split; [reflexivity|]. split; [reflexivity|].
    now apply api_key_header_never_encoded.
Qed.

(** C4, at a file that holds [api_key = abc:def] and no token: the grant
    exchange carries the header [Basic abc:def], the key as it stands in
    the file, where the base64 text of [client_id:client_secret] is
    [YWJjOmRlZg==]. *)
Theorem api_key_header_not_encoded :
  exists req w',
    snd (session_from_config sample_path
           (sample_world (Some apikey_text) (Some sample_token))) = w' /\
    fst (client_credentials
           {| ConfigParser._defaults := [];
              ConfigParser._sections :=
                [("gbdx", [("api_key", "abc:def"); ("user_name", "u");
                           ("user_password", "p");
                           ("auth_url", "https://auth/")])]%string |}
           (sample_world (Some apikey_text) (Some sample_token)))
    = Ok ("abc", "def", "abc:def")%string /\
    List.filter is_grant
      (events_since (sample_world (Some apikey_text) (Some sample_token)) w')
    = [EvFetchToken req (Some sample_token)] /\
    ConfigParser.alist_get "Authorization" (headers req) = Some "Basic abc:def"%string /\
    "Basic " +:+ base64.b64encode ("abc" +:+ ":" +:+ "def") = "Basic YWJjOmRlZg=="%string.
Proof.
  eexists _, _. split; [reflexivity|]. vm_compute. repeat split; reflexivity.
Qed.

(** ** Rejected grant exchange *)

(** C5: when the grant exchange is rejected by the auth server, the
    operation fails with the authentication error and nothing is written:
    the files are as they were before the attempt. *)
Theorem rejected_grant_no_write path w r w' req :
  session_from_config path w = (r, w') ->
  EvFetchToken req None ∈ events_since w w' ->
  r = Err OAuth2Error /\
  files w' = files w /\
  List.filter is_write (events_since w w') = [].
Proof.
  intros H Hin.
  destruct (session_from_config_cases _ _ _ _ H)
    as [->|[(req' & Ha & -> & ->)|(req' & t & text & Ha & -> & ->)]].
  - rewrite events_since_refl in Hin. now apply elem_of_nil in Hin.
  - rewrite events_since_log. auto.
  - rewrite events_since_log2 in Hin.
    apply elem_of_cons in Hin as [Hin|Hin]; [congruence|].
    apply elem_of_cons in Hin as [Hin|Hin]; [congruence|].
    now apply elem_of_nil in Hin.
Qed.

Lemma rejected_grant_no_write_witness :
  Err OAuth2Error = Err (A := Session) OAuth2Error /\
  files (log (EvFetchToken (config_grant_request "https://auth/" "u" "p" "abc:def") None)
           (sample_world (Some apikey_text) None))
  = files (sample_world (Some apikey_text) None) /\
  List.filter is_write
    (events_since (sample_world (Some apikey_text) None)
       (log (EvFetchToken (config_grant_request "https://auth/" "u" "p" "abc:def") None)
          (sample_world (Some apikey_text) None))) = [].
Proof.
  apply (rejected_grant_no_write sample_path (sample_world (Some apikey_text) None)
           (Err OAuth2Error)
           (log (EvFetchToken (config_grant_request "https://auth/" "u" "p" "abc:def") None)
              (sample_world (Some apikey_text) None))
           (config_grant_request "https://auth/" "u" "p" "abc:def")).
  - vm_compute. reflexivity.
  - rewrite events_since_log. apply list_elem_of_here.
Defined.

Lemma get_session_explicit path :
  path <> EmptyString -> get_session (Some path) = session_from_config path.
Proof. intros H. unfold get_session. destruct path; [congruence|reflexivity]. Qed.

(** A rejected grant exchange on the explicit path: the error, and the
    files as they were. *)
Lemma get_session_rejected_no_write path w r w' req :
  path <> EmptyString ->
  get_session (Some path) w = (r, w') ->
  EvFetchToken req None ∈ events_since w w' ->
  r = Err OAuth2Error /\ files w' = files w.
Proof.
  intros Hp. rewrite (get_session_explicit path Hp). intros H Hin.
  destruct (session_from_config_cases _ _ _ _ H)
    as [->|[(req' & Ha & -> & ->)|(req' & t & text & Ha & -> & ->)]].
  - rewrite events_since_refl in Hin. now apply elem_of_nil in Hin.
  - auto.
  - rewrite events_since_log2 in Hin. exfalso.
    repeat (apply elem_of_cons in Hin as [Hin|Hin]; [congruence|]).
    now apply elem_of_nil in Hin.
Qed.

(** ** Environment variables and the default file *)

(** Building the dictionary fails at the first variable that is not set,
    before anything else happens. *)
Lemma environ_dict_missing tpl d envvar w :
  envvar ∈ map snd tpl ->
  environ w !! envvar = None ->
  exists k, k ∈ map snd tpl /\ environ w !! k = None /\
            environ_dict tpl d w = (Err (KeyError k), w).
Proof.
  revert d. induction tpl as [|[var ev] tpl IH]; intros d Hin Hnone.
  - now apply elem_of_nil in Hin.
  - cbn [environ_dict]. munfold.
    destruct (environ w !! ev) as [v|] eqn:E.
    + cbn [map snd] in Hin. apply elem_of_cons in Hin as [->|Hin]; [congruence|].
      destruct (IH (<[var:=v]> d) Hin Hnone) as (k & Hk & Hn & Hr).
      exists k. rewrite Hr. repeat split; auto. now apply elem_of_cons; right.
    + exists ev. repeat split; auto. apply elem_of_cons; now left.
Qed.

Lemma session_from_envvars_missing auth_url tpl envvar w :
  envvar ∈ map snd tpl ->
  environ w !! envvar = None ->
  exists k, k ∈ map snd tpl /\ environ w !! k = None /\
            session_from_envvars auth_url tpl w = (Err (KeyError k), w).
Proof.
  intros Hin Hnone.
  destruct (environ_dict_missing tpl ∅ envvar w Hin Hnone) as (k & Hk & Hn & Hr).
  exists k. repeat split; auto.
  unfold session_from_envvars, bind. now rewrite Hr.
Qed.

(** C6: with no explicit config file, the environment variables are tried
    first; when a required one is missing and the default config file does
    not exist as a file, the failure of the environment lookup (the
    KeyError of the missing variable) is what the caller gets. *)
Theorem missing_envvar_propagates envvar w :
  envvar ∈ map snd default_environ_template ->
  environ w !! envvar = None ->
  files w !! default_config_file w = None ->
  exists k,
    k ∈ map snd default_environ_template /\
    environ w !! k = None /\
    session_from_envvars GBDX_AUTH_URL default_environ_template w
    = (Err (KeyError k), w) /\
    get_session None w = (Err (KeyError k), w).
Proof.
  intros Hin Hnone Hfile.
  destruct (session_from_envvars_missing GBDX_AUTH_URL _ _ _ Hin Hnone)
    as (k & Hk & Hn & Hr).
  exists k. repeat split; auto.
  unfold get_session. cbn [truthy]. munfold. rewrite Hr. cbn.
  fold (default_config_file w). rewrite Hfile.
  rewrite bool_decide_eq_false_2; [reflexivity|].
  intros [? ?]. discriminate.
Qed.

Lemma missing_envvar_propagates_witness :
  exists k,
    k ∈ map snd default_environ_template /\
    environ (sample_world None (Some sample_token)) !! k = None /\
    session_from_envvars GBDX_AUTH_URL default_environ_template
      (sample_world None (Some sample_token))
    = (Err (KeyError k), sample_world None (Some sample_token)) /\
    get_session None (sample_world None (Some sample_token))
    = (Err (KeyError k), sample_world None (Some sample_token)).
Proof.
  apply (missing_envvar_propagates "GBDX_CLIENT_ID"
           (sample_world None (Some sample_token))).
  - cbn. apply list_elem_of_further, list_elem_of_further, list_elem_of_here.
  - vm_compute. reflexivity.
  - vm_compute. reflexivity.
Defined.

(** C8: with no explicit path, a required environment variable missing,
    and a default config file that has valid credentials and no token
    section, session acquisition makes exactly one grant exchange and
    writes the config file exactly once, with the token section in it. *)
Theorem default_file_one_grant_one_write
    envvar text cfg cid csecret key url user pw t w :
  envvar ∈ map snd default_environ_template ->
  environ w !! envvar = None ->
  files w !! default_config_file w = Some text ->
  ConfigParser._read text = Ok cfg ->
  client_credentials cfg w = (Ok (cid, csecret, key), w) ->
  ConfigParser.get cfg "gbdx" "auth_url" = Ok url ->
  ConfigParser.get cfg "gbdx" "user_name" = Ok user ->
  ConfigParser.get cfg "gbdx" "user_password" = Ok pw ->
  ConfigParser.has_section cfg "gbdx_token" = false ->
  auth_server w (config_grant_request url user pw key) = Some t ->
  exists r w',
    get_session None w = (r, w') /\
    List.filter is_grant (events_since w w')
    = [EvFetchToken (config_grant_request url user pw key) (Some t)] /\
    List.filter is_write (events_since w w')
    = [EvWrite (default_config_file w) (ConfigParser.write (store_token cfg t))] /\
    files w' !! default_config_file w = Some (ConfigParser.write (store_token cfg t)) /\
    ConfigParser._sections (store_token cfg t)
    = ConfigParser._sections cfg ++ [("gbdx_token"%string, [("json"%string, json.dumps t)])].
Proof.
  intros Hin Hnone Hf Hr Hc Hu Hn Hp Hs Ha.
  destruct (session_from_envvars_missing GBDX_AUTH_URL _ _ _ Hin Hnone)
    as (k & Hk & Hkn & Hk').
  eexists _, _. split.
  - unfold get_session. cbn [truthy]. munfold. rewrite Hk'. cbn.
    fold (default_config_file w). rewrite Hf.
    rewrite bool_decide_eq_true_2 by eauto.
    eapply session_from_config_fresh; eauto.
  - rewrite events_since_log2. cbn. rewrite lookup_insert_eq.
    repeat split; try reflexivity.
    now apply store_token_new.
Qed.

Lemma default_file_one_grant_one_write_witness :
  exists r w',
    get_session None
      (sample_world (Some (ConfigParser.write sample_cfg)) (Some sample_token))
    = (r, w') /\
    List.filter is_grant
      (events_since
         (sample_world (Some (ConfigParser.write sample_cfg)) (Some sample_token)) w')
    = [EvFetchToken
         (config_grant_request "https://auth/" "u" "p" (base64.b64encode "abc:def"))
         (Some sample_token)] /\
    List.filter is_write
      (events_since
         (sample_world (Some (ConfigParser.write sample_cfg)) (Some sample_token)) w')
    = [EvWrite sample_path (ConfigParser.write (store_token sample_cfg sample_token))] /\
    files w' !! sample_path
    = Some (ConfigParser.write (store_token sample_cfg sample_token)) /\
    ConfigParser._sections (store_token sample_cfg sample_token)
    = ConfigParser._sections sample_cfg
      ++ [("gbdx_token"%string, [("json"%string, json.dumps sample_token)])].
Proof.
  apply (default_file_one_grant_one_write "GBDX_PASSWORD"
           (ConfigParser.write sample_cfg) sample_cfg
           "abc" "def" (base64.b64encode "abc:def") "https://auth/" "u" "p"
           sample_token
           (sample_world (Some (ConfigParser.write sample_cfg)) (Some sample_token)));
    try (vm_compute; reflexivity).
  cbn. apply list_elem_of_further, list_elem_of_here.
Defined.

(** ** Thumbnails *)

(** C9: when the request of the thumbnail helper is answered with 404 (or
    any other client or server error), the helper raises the HTTP error
    right after the request: no image is decoded and none is returned. *)
Theorem thumbnail_http_error base session cat_id show w :
  let url := os_path_join base
               ["thumbnails"; "v1"; "browse"; cat_id +:+ ".medium.png"]%string in
  400 <= status_code (http_server w url) < 600 ->
  exists w',
    get_thumbnail base session cat_id show w
    = (Err (HTTPError (status_code (http_server w url))), w') /\
    events_since w w' = [EvGet url (status_code (http_server w url))] /\
    List.filter is_imdecode (events_since w w') = [].
Proof.
  intros url Hs. eexists. split.
  - unfold get_thumbnail, session_get, raise_for_status. munfold.
    fold url. cbn [status_code].
    replace (400 <=? status_code (http_server w url)) with true by lia.
    replace (status_code (http_server w url) <? 600) with true by lia.
    reflexivity.
  - rewrite events_since_log. split; reflexivity.
Qed.

Lemma thumbnail_http_error_witness :
  exists w',
    get_thumbnail "https://geobigdata.io" sample_session "1020010" true
      (sample_world None None)
    = (Err (HTTPError 404), w') /\
    events_since (sample_world None None) w'
    = [EvGet "https://geobigdata.io/thumbnails/v1/browse/1020010.medium.png" 404] /\
    List.filter is_imdecode (events_since (sample_world None None) w') = [].
Proof.
  apply (thumbnail_http_error "https://geobigdata.io" sample_session "1020010" true
           (sample_world None None)).
  cbn. lia.
Defined.

(** ** [get_session] on every path *)

Lemma session_from_envvars_cases auth_url tpl w r w' :
  session_from_envvars auth_url tpl w = (r, w') ->
  w' = w \/ exists req resp, w' = log (EvFetchToken req resp) w.
Proof.
  unfold session_from_envvars, fetch_token. munfold.
  assert (forall d r1 w1, environ_dict tpl d w = (r1, w1) -> w1 = w) as Hd.
  { induction tpl as [|[var ev] tpl IH]; intros d r1 w1; cbn [environ_dict]; munfold.
    - now intros [= _ <-].
    - destruct (environ w !! ev); [apply IH|now intros [= _ <-]]. }
  destruct (environ_dict tpl ∅ w) as [[d|e] w1] eqn:E; apply Hd in E; subst w1.
  - intros H. repeat (case_match; munfold; simplify_eq/=); eauto.
  - intros [= _ <-]. now left.
Qed.

(** Whatever the path, a run of [get_session] in which no grant exchange
    was accepted leaves the files as they were. *)
Lemma get_session_no_token_no_write config_file w r w' :
  get_session config_file w = (r, w') ->
  (forall req t, EvFetchToken req (Some t) ∉ events_since w w') ->
  files w' = files w.
Proof.
  assert (forall path w0 r0 w1,
            session_from_config path w0 = (r0, w1) ->
            files w1 = files w0 \/
            exists req t e, trace w1 = trace w0 ++ [EvFetchToken req (Some t); e]) as Hcfg.
  { intros path w0 r0 w1 H.
    destruct (session_from_config_cases _ _ _ _ H)
      as [->|[(req' & Ha & -> & ->)|(req' & t & text & Ha & -> & ->)]]; auto.
    right. eexists _, _, _. cbn. now rewrite <- app_assoc. }
  unfold get_session. destruct (truthy config_file) as [path|].
  - intros H Hno. destruct (Hcfg _ _ _ _ H) as [?|(req & t & e & Ht)]; [assumption|].
    exfalso. apply (Hno req t). unfold events_since. rewrite Ht, drop_app_length.
    apply list_elem_of_here.
  - munfold.
    destruct (session_from_envvars GBDX_AUTH_URL default_environ_template w)
      as [[s|e] w1] eqn:E;
      destruct (session_from_envvars_cases _ _ _ _ _ E) as [->|(req & resp & ->)].
    + now intros [= _ <-].
    + now intros [= _ <-].
    + destruct (is_Exception e); [|now intros [= _ <-]].
      cbn. destruct (bool_decide _); [|now intros [= _ <-]].
      intros H Hno. destruct (Hcfg _ _ _ _ H) as [?|(req & t & e' & Ht)]; [assumption|].
      exfalso. apply (Hno req t). unfold events_since. rewrite Ht, drop_app_length.
      apply list_elem_of_here.
    + destruct (is_Exception e); [|now intros [= _ <-]].
      cbn. destruct (bool_decide _); [|now intros [= _ <-]].
      intros H Hno. destruct (Hcfg _ _ _ _ H) as [Hf|(req' & t & e' & Ht)]; [exact Hf|].
      exfalso. apply (Hno req' t). unfold events_since. rewrite Ht. cbn.
      rewrite <- app_assoc, drop_app_length. cbn.
      apply list_elem_of_further, list_elem_of_here.
Qed.

(** ** [session_from_envvars] *)

Lemma environ_dict_default u p cid csecret w :
  environ w !! "GBDX_USERNAME" = Some u ->
  environ w !! "GBDX_PASSWORD" = Some p ->
  environ w !! "GBDX_CLIENT_ID" = Some cid ->
  environ w !! "GBDX_CLIENT_SECRET" = Some csecret ->
  environ_dict default_environ_template ∅ w
  = (Ok (<["client_secret" := csecret]> (<["client_id" := cid]>
          (<["password" := p]> (<["username" := u]> ∅)))), w).
Proof.
  intros H1 H2 H3 H4. cbn [environ_dict default_environ_template]. munfold.
  now rewrite H1, H2, H3, H4.
Qed.

(** With the four variables set there is one grant exchange, and its
    answer decides the outcome. *)
Lemma session_from_envvars_answer auth_url u p cid csecret w :
  environ w !! "GBDX_USERNAME" = Some u ->
  environ w !! "GBDX_PASSWORD" = Some p ->
  environ w !! "GBDX_CLIENT_ID" = Some cid ->
  environ w !! "GBDX_CLIENT_SECRET" = Some csecret ->
  session_from_envvars auth_url default_environ_template w
  = let req := envvars_grant_request auth_url u p cid csecret in
    match auth_server w req with
    | Some t =>
        (Ok {| client_id := cid; token := Some t; auto_refresh_url := auth_url;
               auto_refresh_kwargs :=
                 [("client_id", cid); ("client_secret", csecret)]%string;
               token_updater := UpdateSession |},
         log (EvFetchToken req (Some t)) w)
    | None => (Err OAuth2Error, log (EvFetchToken req None) w)
    end.
Proof.
  intros H1 H2 H3 H4. unfold session_from_envvars, bind.
  rewrite (environ_dict_default u p cid csecret w H1 H2 H3 H4).
  set (d := <["client_secret" := csecret]> (<["client_id" := cid]>
              (<["password" := p]> (<["username" := u]> (∅ : gmap string string))))).
  assert (d !! "client_id"%string = Some cid) as E1 by reflexivity.
  assert (d !! "client_secret"%string = Some csecret) as E2 by reflexivity.
  assert (d !! "username"%string = Some u) as E3 by reflexivity.
  assert (d !! "password"%string = Some p) as E4 by reflexivity.
  assert (delete "username"%string (delete "password"%string d)
          = {[ "client_id"%string := cid; "client_secret"%string := csecret ]}) as E5
    by reflexivity.
  unfold dict_get, ret, fetch_token. rewrite E1, E2, E3, E4, E5.
  fold (envvars_grant_request auth_url u p cid csecret). cbn zeta.
  destruct (auth_server w (envvars_grant_request auth_url u p cid csecret));
    reflexivity.
Qed.

(** X1: with GBDX_USERNAME, GBDX_PASSWORD, GBDX_CLIENT_ID and
    GBDX_CLIENT_SECRET set and a server that accepts the grant, [get_session]
    without a path returns a session of that client id holding the token
    received, whose updater keeps refreshed tokens in the session only.
    The one event is the grant exchange, which carries the user name and
    password and, as further arguments, the client id and secret; the
    files are left as they were, the default file included. *)
Theorem envvars_session u p cid csecret t w :
  environ w !! "GBDX_USERNAME" = Some u ->
  environ w !! "GBDX_PASSWORD" = Some p ->
  environ w !! "GBDX_CLIENT_ID" = Some cid ->
  environ w !! "GBDX_CLIENT_SECRET" = Some csecret ->
  auth_server w (envvars_grant_request GBDX_AUTH_URL u p cid csecret) = Some t ->
  exists s w',
    get_session None w = (Ok s, w') /\
    client_id s = cid /\
    token s = Some t /\
    token_updater s = UpdateSession /\
    events_since w w'
    = [EvFetchToken (envvars_grant_request GBDX_AUTH_URL u p cid csecret) (Some t)] /\
    files w' = files w.
Proof.
  intros H1 H2 H3 H4 Ha. unfold get_session. cbn [truthy]. unfold try_except.
  rewrite (session_from_envvars_answer _ u p cid csecret w H1 H2 H3 H4).
  cbn zeta. rewrite Ha. eexists _, _. split; [reflexivity|].
  rewrite events_since_log. cbn. auto.
Qed.

Lemma envvars_session_witness :
  exists s w',
    get_session None (envvars_world (Some sample_token)) = (Ok s, w') /\
    client_id s = "abc"%string /\
    token s = Some sample_token /\
    token_updater s = UpdateSession /\
    events_since (envvars_world (Some sample_token)) w'
    = [EvFetchToken (envvars_grant_request GBDX_AUTH_URL "u" "p" "abc" "def")
         (Some sample_token)] /\
    files w' = files (envvars_world (Some sample_token)).
Proof.
  apply (envvars_session "u" "p" "abc" "def" sample_token
           (envvars_world (Some sample_token))); reflexivity.
Defined.

(** X2: when the four variables are set but the server rejects the
    grant, [get_session] without a path swallows the rejection if the
    default file exists and goes on as [session_from_config] on that file
    does; only with no default file is the rejection re-raised. *)
Theorem envvars_rejection_falls_back u p cid csecret w :
  environ w !! "GBDX_USERNAME" = Some u ->
  environ w !! "GBDX_PASSWORD" = Some p ->
  environ w !! "GBDX_CLIENT_ID" = Some cid ->
  environ w !! "GBDX_CLIENT_SECRET" = Some csecret ->
  auth_server w (envvars_grant_request GBDX_AUTH_URL u p cid csecret) = None ->
  let w1 := log (EvFetchToken (envvars_grant_request GBDX_AUTH_URL u p cid csecret) None) w in
  get_session None w
  = match files w !! default_config_file w with
    | Some _ => session_from_config (default_config_file w) w1
    | None => (Err OAuth2Error, w1)
    end.
Proof.
  intros H1 H2 H3 H4 Ha w1. unfold get_session. cbn [truthy]. unfold try_except.
  rewrite (session_from_envvars_answer _ u p cid csecret w H1 H2 H3 H4).
  cbn zeta. rewrite Ha. fold w1. munfold.
  change (userhome_path w1 "/.gbdx-config") with (default_config_file w).
  change (files w1) with (files w).
  destruct (files w !! default_config_file w) eqn:E.
  - rewrite bool_decide_eq_true_2 by eauto. reflexivity.
  - rewrite bool_decide_eq_false_2; [reflexivity|]. intros [? ?]. discriminate.
Qed.

Lemma envvars_rejection_falls_back_witness :
  exists s,
    fst (get_session None (envvars_world None)) = Ok s /\
    token s = Some (set_expires_at 999400 sample_token).
Proof.
  rewrite (envvars_rejection_falls_back "u" "p" "abc" "def" (envvars_world None))
    by reflexivity.
  vm_compute. eexists. split; reflexivity.
Defined.

Lemma environ_dict_all_set tpl w : forall d,
  Forall (fun envvar => is_Some (environ w !! envvar)) (map snd tpl) ->
  exists d', environ_dict tpl d w = (Ok d', w) /\
             forall k, k ∉ map fst tpl -> d' !! k = d !! k.
Proof.
  induction tpl as [|[var ev] tpl IH]; intros d H.
  - exists d. split; [reflexivity|auto].
  - cbn [map snd] in H. apply Forall_cons in H as [[v Hv] H].
    cbn [environ_dict]. munfold. rewrite Hv.
    destruct (IH (<[var:=v]> d) H) as (d' & Hd & Hk).
    exists d'. split; [exact Hd|]. intros k Hn. cbn [map fst] in Hn.
    apply not_elem_of_cons in Hn as [Hne Hn]. rewrite (Hk k Hn).
    now apply lookup_insert_ne.
Qed.

(** X3: a template that has no [client_id] key, all of whose variables
    are set, makes [session_from_envvars] fail with [KeyError] on
    [client_id] before anything is sent. *)
Theorem envvars_template_without_client_id auth_url tpl w :
  Forall (fun envvar => is_Some (environ w !! envvar)) (map snd tpl) ->
  "client_id"%string ∉ map fst tpl ->
  session_from_envvars auth_url tpl w = (Err (KeyError "client_id"), w).
Proof.
  intros Hset Hno.
  destruct (environ_dict_all_set tpl w ∅ Hset) as (d & Hd & Hk).
  unfold session_from_envvars, bind. rewrite Hd. unfold dict_get.
  rewrite (Hk _ Hno), lookup_empty. reflexivity.
Qed.

Lemma envvars_template_without_client_id_witness :
  session_from_envvars GBDX_AUTH_URL
    [("username", "GBDX_USERNAME"); ("password", "GBDX_PASSWORD")]%string
    (envvars_world (Some sample_token))
  = (Err (KeyError "client_id"), envvars_world (Some sample_token)).
Proof.
  apply (envvars_template_without_client_id GBDX_AUTH_URL
           [("username", "GBDX_USERNAME"); ("password", "GBDX_PASSWORD")]%string
           (envvars_world (Some sample_token))).
  - repeat constructor; eexists; reflexivity.
  - apply (bool_decide_unpack _). vm_compute. exact I.
Defined.

(** X4: [session_from_envvars] never touches the files or the
    environment; it makes at most one exchange and no write, whatever the
    template and the answers. *)
Theorem envvars_never_writes auth_url tpl w :
  let w' := snd (session_from_envvars auth_url tpl w) in
  files w' = files w /\
  environ w' = environ w /\
  (length (events_since w w') <= 1)%nat /\
  List.filter is_write (events_since w w') = [].
Proof.
  intros w'. subst w'.
  destruct (session_from_envvars auth_url tpl w) as [r w'] eqn:E. cbn [snd].
  destruct (session_from_envvars_cases _ _ _ _ _ E) as [->|(req & resp & ->)].
  - rewrite events_since_refl. cbn. auto.
  - rewrite events_since_log. cbn. auto.
Qed.

(** X5: when one of the four variables is missing and the default file
    exists, [get_session] without a path is [session_from_config] on the
    default file: same result, same effects, and the [KeyError] is lost. *)
Theorem missing_envvar_uses_default_file envvar text w :
  envvar ∈ map snd default_environ_template ->
  environ w !! envvar = None ->
  files w !! default_config_file w = Some text ->
  get_session None w = session_from_config (default_config_file w) w.
Proof.
  intros Hin Hnone Hf.
  destruct (session_from_envvars_missing GBDX_AUTH_URL _ _ _ Hin Hnone)
    as (k & _ & _ & Hr).
  unfold get_session. cbn [truthy]. munfold. rewrite Hr. cbn.
  fold (default_config_file w). rewrite Hf.
  rewrite bool_decide_eq_true_2 by eauto. reflexivity.
Qed.

Lemma missing_envvar_uses_default_file_witness :
  get_session None
    (sample_world (Some (ConfigParser.write (store_token sample_cfg sample_token))) None)
  = session_from_config sample_path
      (sample_world (Some (ConfigParser.write (store_token sample_cfg sample_token))) None).
Proof.
  apply (missing_envvar_uses_default_file "GBDX_PASSWORD"
           (ConfigParser.write (store_token sample_cfg sample_token))
           (sample_world (Some (ConfigParser.write (store_token sample_cfg sample_token))) None)).
  - cbn. apply list_elem_of_further, list_elem_of_here.
  - reflexivity.
  - reflexivity.
Defined.

(** ** More on [session_from_config] *)

(** X6: [get_session] with a path to a file that does not exist fails
    with [RuntimeError], the message naming the path, and does nothing
    else; the environment variables are not consulted. *)
Theorem config_file_missing path w :
  files w !! path = None ->
  path <> EmptyString ->
  get_session (Some path) w
  = (Err (RuntimeError ("No ini file found at " +:+ path +:+ " to parse.")), w).
Proof.
  intros Hf Hp. rewrite (get_session_explicit path Hp).
  unfold session_from_config, ConfigParser_read, bind. now rewrite Hf.
Qed.

Lemma config_file_missing_witness :
  get_session (Some "/nowhere/gbdx.ini") (envvars_world (Some sample_token))
  = (Err (RuntimeError "No ini file found at /nowhere/gbdx.ini to parse."),
     envvars_world (Some sample_token)).
Proof.
  apply (config_file_missing "/nowhere/gbdx.ini" (envvars_world (Some sample_token)));
    [reflexivity|discriminate].
Defined.

(** X7: a file without a [gbdx] section makes [session_from_config]
    fail with [NoSectionError], which the handler for [NoOptionError] does
    not catch: values in [DEFAULT] are of no help, and no [api_key] is
    looked for. *)
Theorem config_without_gbdx_section path text cfg w :
  files w !! path = Some text ->
  ConfigParser._read text = Ok cfg ->
  ConfigParser.has_section cfg "gbdx" = false ->
  session_from_config path w = (Err (NoSectionError "gbdx"), w).
Proof.
  intros Hf Hr Hs.
  assert (ConfigParser.alist_get "gbdx" (ConfigParser._sections cfg) = None) as Hg.
  { destruct (ConfigParser.alist_get "gbdx" (ConfigParser._sections cfg)) eqn:E;
      [|reflexivity].
    assert (ConfigParser.has_section cfg "gbdx" = true) as Ht
      by (apply has_section_get; eauto).
    congruence. }
  unfold session_from_config, ConfigParser_read, client_credentials. munfold.
  rewrite Hf, Hr. unfold ConfigParser.get. rewrite Hg. reflexivity.
Qed.

Lemma config_without_gbdx_section_witness :
  session_from_config sample_path (sample_world (Some defaults_only_text) None)
  = (Err (NoSectionError "gbdx"), sample_world (Some defaults_only_text) None).
Proof.
  apply (config_without_gbdx_section sample_path defaults_only_text
           {| ConfigParser._defaults :=
                [("client_id", "abc"); ("client_secret", "def");
                 ("auth_url", "https://auth/")]%string;
              ConfigParser._sections := [] |}
           (sample_world (Some defaults_only_text) None)); reflexivity.
Defined.

(** X8: when [client_id] is present but [client_secret] is missing, the
    [client_id] read is dropped: both the client id and the secret are
    those unpacked from [api_key]. *)
Theorem client_id_without_secret_uses_api_key cfg cid apikey cid' csecret' w :
  ConfigParser.get cfg "gbdx" "client_id" = Ok cid ->
  ConfigParser.get cfg "gbdx" "client_secret"
  = Err (NoOptionError "client_secret" "gbdx") ->
  ConfigParser.get cfg "gbdx" "api_key" = Ok apikey ->
  _unpack_apikey apikey = Some (cid', csecret') ->
  client_credentials cfg w = (Ok (cid', csecret', apikey), w).
Proof.
  intros H1 H2 H3 H4. unfold client_credentials. munfold.
  rewrite H1, H2. cbn. now rewrite H3, H4.
Qed.

(** X9: with no usable pair of [client_id] and [client_secret] and no
    [api_key], [session_from_config] fails with [NoOptionError] on
    [api_key], whichever of the two options was missing, and sends
    nothing. *)
Theorem incomplete_credentials_error path text cfg w :
  files w !! path = Some text ->
  ConfigParser._read text = Ok cfg ->
  (ConfigParser.get cfg "gbdx" "client_id" = Err (NoOptionError "client_id" "gbdx") \/
   (exists cid, ConfigParser.get cfg "gbdx" "client_id" = Ok cid) /\
   ConfigParser.get cfg "gbdx" "client_secret"
   = Err (NoOptionError "client_secret" "gbdx")) ->
  ConfigParser.get cfg "gbdx" "api_key" = Err (NoOptionError "api_key" "gbdx") ->
  session_from_config path w = (Err (NoOptionError "api_key" "gbdx"), w).
Proof.
  intros Hf Hr Hc Hk.
  unfold session_from_config, ConfigParser_read, client_credentials. munfold.
  rewrite Hf, Hr. destruct Hc as [H1|[[cid H1] H2]].
  - rewrite H1. cbn. now rewrite Hk.
  - rewrite H1, H2. cbn. now rewrite Hk.
Qed.

Lemma client_id_without_secret_uses_api_key_witness :
  client_credentials half_cfg (sample_world None None)
  = (Ok ("xyz", "uvw", "xyz:uvw")%string, sample_world None None).
Proof.
  apply (client_id_without_secret_uses_api_key half_cfg "abc" "xyz:uvw" "xyz" "uvw"
           (sample_world None None)); reflexivity.
Defined.

Lemma incomplete_credentials_error_witness :
  session_from_config sample_path
    (sample_world (Some (ConfigParser.write id_only_cfg)) None)
  = (Err (NoOptionError "api_key" "gbdx"),
     sample_world (Some (ConfigParser.write id_only_cfg)) None).
Proof.
  apply (incomplete_credentials_error sample_path (ConfigParser.write id_only_cfg)
           id_only_cfg (sample_world (Some (ConfigParser.write id_only_cfg)) None)).
  - reflexivity.
  - vm_compute. reflexivity.
  - right. split; [exists "abc"%string|]; reflexivity.
  - reflexivity.
Defined.



(** X11: on a file with credentials and no token, a first call of
    [session_from_config] obtains and saves the token and then fails on
    [return s]; any later call that finds the file as the first one left
    it, at a time when the time the token expires and the current time
    are times [datetime] has (local years 1 to 9999), returns a session
    whose token is equal as a dict to that token, its lifetime counted on
    the local clock from the time of that call, and changes nothing.  The
    token is a dict of the five members, written in whatever order; the
    file is one that ConfigParser reads back as written, and the token's
    text has nothing the ini file treats specially. *)
Theorem second_call_uses_saved_token
    path text cfg cid csecret key url user pw t w :
  files w !! path = Some text ->
  ConfigParser._read text = Ok cfg ->
  config_ok cfg ->
  client_credentials cfg w = (Ok (cid, csecret, key), w) ->
  ConfigParser.get cfg "gbdx" "auth_url" = Ok url ->
  ConfigParser.get cfg "gbdx" "user_name" = Ok user ->
  ConfigParser.get cfg "gbdx" "user_password" = Ok pw ->
  ConfigParser.has_section cfg "gbdx_token" = false ->
  auth_server w (config_grant_request url user pw key) = Some t ->
  str.contains_sub "%(" (json.dumps t) = false ->
  ConfigParser.cut_comment (json.dumps t) = json.dumps t ->
  is_dict t = true ->
  let w1 := snd (session_from_config path w) in
  fst (session_from_config path w) = Err (UnboundLocalError "s") /\
  forall w2,
    files w2 !! path = files w1 !! path ->
    representable w2 (expires_at t) ->
    representable w2 (clock w2) ->
    exists s t',
      session_from_config path w2 = (Ok s, w2) /\
      client_id s = cid /\
      token s = Some t' /\
      same_dict t' (set_expires_at
                      (local_time w2 (expires_at t) - local_time w2 (clock w2) - 600) t).
Proof.
  intros Hf Hr Hok Hc Hu Hn Hp Hs Ha Hpc Hcut Hd w1. subst w1.
  rewrite (session_from_config_fresh path text cfg cid csecret key url user pw t w)
    by assumption.
  cbn [fst snd]. split; [reflexivity|]. intros w2 Hw2 Ht2 Hn2.
  eexists _, _. split.
  - eapply session_from_config_stored.
    + rewrite Hw2. cbn. apply lookup_insert_eq.
    + apply read_write. now apply store_token_ok.
    + eapply client_credentials_store, Hc.
    + apply store_token_has_section.
    + now apply store_token_get_json.
    + now apply loads_dumps.
    + rewrite store_token_get by discriminate. exact Hu.
    + exact Ht2.
    + exact Hn2.
  - cbn. unfold same_dict. repeat split; reflexivity.
Qed.

Lemma second_call_uses_saved_token_witness :
  let w := sample_world (Some (ConfigParser.write sample_cfg)) (Some sample_token) in
  let w1 := snd (session_from_config sample_path w) in
  fst (session_from_config sample_path w) = Err (UnboundLocalError "s") /\
  forall w2,
    files w2 !! sample_path = files w1 !! sample_path ->
    representable w2 2000000 ->
    representable w2 (clock w2) ->
    exists s t',
      session_from_config sample_path w2 = (Ok s, w2) /\
      client_id s = "abc"%string /\
      token s = Some t' /\
      same_dict t' (set_expires_at
                      (local_time w2 2000000 - local_time w2 (clock w2) - 600)
                      sample_token).
Proof.
  apply (second_call_uses_saved_token sample_path (ConfigParser.write sample_cfg)
           sample_cfg "abc" "def" (base64.b64encode "abc:def") "https://auth/"
           "u" "p" sample_token
           (sample_world (Some (ConfigParser.write sample_cfg)) (Some sample_token)));
    try (vm_compute; reflexivity).
  apply (bool_decide_unpack _). vm_compute. exact I.
Defined.

(** X12: [session_from_config] leaves the environment and every file
    but its own as they were; it makes at most one grant
    exchange; and when it writes, the write is to its own file, follows an
    accepted exchange, and is the last thing it does. *)
Theorem config_touches_only_its_file path w :
  let w' := snd (session_from_config path w) in
  environ w' = environ w /\
  (forall p, p <> path -> files w' !! p = files w !! p) /\
  (length (List.filter is_grant (events_since w w')) <= 1)%nat /\
  (forall p text, EvWrite p text ∈ events_since w w' ->
     p = path /\ files w' !! path = Some text /\
     exists req t, events_since w w' = [EvFetchToken req (Some t); EvWrite p text]).
Proof.
  intros w'. subst w'.
  destruct (session_from_config path w) as [r w'] eqn:E. cbn [snd].
  destruct (session_from_config_cases _ _ _ _ E)
    as [->|[(req & Ha & -> & ->)|(req & t & text & Ha & -> & ->)]].
  - rewrite events_since_refl. split_and!; auto.
    intros p text Hin. now apply elem_of_nil in Hin.
  - rewrite events_since_log. split_and!; auto.
    intros p text Hin. apply list_elem_of_singleton in Hin. discriminate.
  - rewrite events_since_log2. cbn. split_and!; auto.
    + intros p Hp. now apply lookup_insert_ne.
    + intros p text' Hin.
      apply elem_of_cons in Hin as [Hin|Hin]; [discriminate|].
      apply list_elem_of_singleton in Hin. injection Hin as -> ->.
      split_and!; [reflexivity|apply lookup_insert_eq|eauto].
Qed.

Lemma alist_set_set {V} k (v1 v2 : V) (d : list (string * V)) :
  ConfigParser.alist_set k v2 (ConfigParser.alist_set k v1 d)
  = ConfigParser.alist_set k v2 d.
Proof.
  induction d as [|[k0 v0] d IH]; cbn.
  - now rewrite String.eqb_refl.
  - destruct (String.eqb k0 k) eqn:E; cbn; rewrite E; [reflexivity|].
    now rewrite IH.
Qed.

Lemma alist_alter_alter {V} (f g : V -> V) k (d : list (string * V)) :
  ConfigParser.alist_alter f k (ConfigParser.alist_alter g k d)
  = ConfigParser.alist_alter (fun v => f (g v)) k d.
Proof.
  induction d as [|[k0 v0] d IH]; cbn; [reflexivity|].
  destruct (String.eqb k0 k) eqn:E; cbn; rewrite E; [reflexivity|].
  now rewrite IH.
Qed.

Lemma alist_alter_ext {V} (f g : V -> V) k (d : list (string * V)) :
  (forall v, f v = g v) ->
  ConfigParser.alist_alter f k d = ConfigParser.alist_alter g k d.
Proof.
  intros H. induction d as [|[k0 v0] d IH]; cbn; [reflexivity|].
  destruct (String.eqb k0 k); [now rewrite H|now rewrite IH].
Qed.

Lemma store_token_twice cfg t1 t2 :
  store_token (store_token cfg t1) t2 = store_token cfg t2.
Proof.
  unfold store_token at 1. rewrite store_token_has_section.
  unfold store_token. cbn [ConfigParser._sections ConfigParser._defaults].
  f_equal. rewrite alist_alter_alter. apply alist_alter_ext.
  intros o. apply alist_set_set.
Qed.

(** X13: saving a token and then another one with the same parser
    leaves one [json] option: the parser and the files are those of saving
    the second token alone, with two writes to the file. *)
Theorem last_save_wins path cfg t1 t2 w :
  let w1 := snd (save_token path cfg t1 w) in
  let w2 := snd (save_token path (store_token cfg t1) t2 w1) in
  fst (save_token path (store_token cfg t1) t2 w1) = Ok (store_token cfg t2) /\
  files w2 = files (snd (save_token path cfg t2 w)) /\
  files w2 !! path = Some (ConfigParser.write (store_token cfg t2)) /\
  List.filter is_write (events_since w w2)
  = [EvWrite path (ConfigParser.write (store_token cfg t1));
     EvWrite path (ConfigParser.write (store_token cfg t2))].
Proof.
  intros w1 w2. subst w1 w2. rewrite !save_token_spec, store_token_twice.
  cbn [fst snd]. split; [reflexivity|]. cbn.
  split; [apply insert_insert_eq|]. split; [apply lookup_insert_eq|].
  unfold events_since. cbn. rewrite <- app_assoc, drop_app_length. reflexivity.
Qed.

(** ** More on [save_token] and on the whole of [get_session] *)

(** X14: the file [save_token] writes is read back as the parser it was
    written from, with the options of [gbdx] as before and the token's
    text under [gbdx_token]; the parser is one that ConfigParser reads back
    as written and the text has no semicolon after a blank. *)
Theorem saved_file_reads_back path cfg t w :
  config_ok cfg ->
  ConfigParser.cut_comment (json.dumps t) = json.dumps t ->
  let w1 := snd (save_token path cfg t w) in
  ConfigParser_read path w1 = (Ok (Some (store_token cfg t)), w1) /\
  (forall option,
     ConfigParser.get (store_token cfg t) "gbdx" option
     = ConfigParser.get cfg "gbdx" option) /\
  ConfigParser.alist_get "json"
    (default [] (ConfigParser.alist_get "gbdx_token"
                   (ConfigParser._sections (store_token cfg t))))
  = Some (json.dumps t).
Proof.
  intros Hok Hcut w1. subst w1. rewrite save_token_spec. cbn [snd].
  split; [|split].
  - unfold ConfigParser_read. cbn. rewrite lookup_insert_eq.
    rewrite read_write by now apply store_token_ok. reflexivity.
  - intros o. apply store_token_get. discriminate.
  - destruct (store_token_json cfg t) as (o & -> & Ho). exact Ho.
Qed.

Lemma saved_file_reads_back_witness :
  let w1 := snd (save_token sample_path sample_cfg sample_token (sample_world None None)) in
  ConfigParser_read sample_path w1 = (Ok (Some (store_token sample_cfg sample_token)), w1).
Proof.
  intros w1.
  destruct (saved_file_reads_back sample_path sample_cfg sample_token (sample_world None None))
    as (H & _).
  - apply (bool_decide_unpack _). vm_compute. exact I.
  - vm_compute. reflexivity.
  - exact H.
Defined.

Lemma session_from_config_effects path w r w' :
  session_from_config path w = (r, w') ->
  environ w' = environ w /\
  exists evs,
    trace w' = trace w ++ evs /\
    (length (List.filter is_grant evs) <= 1)%nat /\
    (length (List.filter is_write evs) <= 1)%nat /\
    (List.filter is_write evs = [] -> files w' = files w) /\
    (forall p text, EvWrite p text ∈ evs ->
       exists req t, EvFetchToken req (Some t) ∈ evs).
Proof.
  intros H.
  destruct (session_from_config_cases _ _ _ _ H)
    as [->|[(req & Ha & -> & ->)|(req & t & text & Ha & -> & ->)]].
  - split_and!; auto. exists []. rewrite app_nil_r. split_and!; cbn; auto.
    intros p text Hin. now apply elem_of_nil in Hin.
  - split_and!; auto. exists [EvFetchToken req None]. split_and!; cbn; auto.
    intros p text Hin. apply list_elem_of_singleton in Hin. discriminate.
  - split_and!; auto. exists [EvFetchToken req (Some t); EvWrite path text].
    split_and!; cbn; auto.
    + now rewrite <- app_assoc.
    + discriminate.
    + intros p text' _. exists req, t. apply list_elem_of_here.
Qed.

(** X15: whatever the argument, [get_session] leaves the environment
    as it was, makes at most two grant exchanges and at
    most one write; with no write the files are as before; and a write is
    only made in a run in which a grant was accepted. *)
Theorem get_session_effects config_file w :
  let w' := snd (get_session config_file w) in
  let evs := events_since w w' in
  environ w' = environ w /\
  (length (List.filter is_grant evs) <= 2)%nat /\
  (length (List.filter is_write evs) <= 1)%nat /\
  (List.filter is_write evs = [] -> files w' = files w) /\
  (forall p text, EvWrite p text ∈ evs ->
     exists req t, EvFetchToken req (Some t) ∈ evs).
Proof.
  intros w' evs. subst evs w'. unfold get_session.
  destruct (truthy config_file) as [path|].
  - destruct (session_from_config path w) as [r w'] eqn:E. cbn [snd].
    destruct (session_from_config_effects _ _ _ _ E)
      as (He & evs & Ht & Hg & Hw & Hf & Hin).
    unfold events_since. rewrite Ht, drop_app_length. split_and!; auto; lia.
  - munfold.
    destruct (session_from_envvars GBDX_AUTH_URL default_environ_template w)
      as [[s|e] w1] eqn:E;
      destruct (session_from_envvars_cases _ _ _ _ _ E) as [->|(req & resp & ->)];
      cbn [snd].
    + rewrite events_since_refl. split_and!; cbn; auto; try lia.
      intros p text Hin. now apply elem_of_nil in Hin.
    + rewrite events_since_log. split_and!; cbn; auto; try lia.
      intros p text Hin. apply list_elem_of_singleton in Hin. discriminate.
    + destruct (is_Exception e);
        [|cbn [snd]; rewrite events_since_refl; split_and!; cbn; auto; try lia;
          intros p text Hin; now apply elem_of_nil in Hin].
      cbn. destruct (bool_decide _); cbn [snd].
      * destruct (session_from_config (userhome_path w "/.gbdx-config") w)
          as [r w'] eqn:E2. cbn [snd].
        destruct (session_from_config_effects _ _ _ _ E2)
          as (He & evs & Ht & Hg & Hw & Hf & Hin).
        unfold events_since. rewrite Ht, drop_app_length. split_and!; auto; lia.
      * rewrite events_since_refl. split_and!; cbn; auto; try lia.
        intros p text Hin. now apply elem_of_nil in Hin.
    + destruct (is_Exception e);
        [|cbn [snd]; rewrite events_since_log; split_and!; cbn; auto; try lia;
          intros p text Hin; apply list_elem_of_singleton in Hin; discriminate].
      cbn. destruct (bool_decide _); cbn [snd].
      * set (w1 := log (EvFetchToken req resp) w).
        destruct (session_from_config (userhome_path w1 "/.gbdx-config") w1)
          as [r w'] eqn:E2. cbn [snd].
        destruct (session_from_config_effects _ _ _ _ E2)
          as (He & evs & Ht & Hg & Hw & Hf & Hin).
        unfold events_since. rewrite Ht. cbn [trace log w1].
        rewrite <- app_assoc, drop_app_length. cbn [app List.filter is_grant is_write].
        split_and!; auto.
        -- cbn [length]. lia.
        -- intros p text Hp. apply elem_of_cons in Hp as [Hp|Hp]; [discriminate|].
           destruct (Hin p text Hp) as (req' & t & Hr). exists req', t.
           now apply list_elem_of_further.
      * rewrite events_since_log. split_and!; cbn; auto; try lia.
        intros p text Hin. apply list_elem_of_singleton in Hin. discriminate.
Qed.

(** ** [configure] *)

Lemma set_items_fresh items : forall done,
  NoDup (map fst done ++ map fst items) ->
  Forall (fun kv => str.lower (fst kv) = fst kv) items ->
  set_items (configured done) "gbdx" items = Ok (configured (done ++ items)).
Proof.
  induction items as [|[k v] items IH]; intros done Hnd Hlow.
  - cbn. now rewrite app_nil_r.
  - apply Forall_cons in Hlow as [Hk Hlow]. cbn [fst] in Hk.
    cbn [set_items]. unfold ConfigParser.set. cbn.
    unfold ConfigParser.optionxform. rewrite Hk.
    assert (k ∉ map fst done) as Hkd.
    { cbn [map fst] in Hnd. apply NoDup_app in Hnd as (_ & Hd & _).
      intros Hin. apply (Hd k Hin). apply list_elem_of_here. }
    rewrite (alist_set_fresh k v done Hkd).
    change {| ConfigParser._defaults := []; ConfigParser._sections := [("gbdx"%string, done ++ [(k, v)])] |}
      with (configured (done ++ [(k, v)])).
    rewrite IH; [now rewrite <- app_assoc| |exact Hlow].
    rewrite map_app. cbn [map fst] in *. now rewrite <- app_assoc.
Qed.

Lemma config_data_keys u p cid cs url :
  map fst (config_data u p cid cs url)
  = ["auth_url"; "user_name"; "user_password"; "client_id"; "client_secret"]%string.
Proof. reflexivity. Qed.

Lemma permuted_keys_NoDup items u p cid cs url :
  items ≡ₚ config_data u p cid cs url -> NoDup (map fst items).
Proof.
  intros H. rewrite H, config_data_keys. apply (bool_decide_unpack _). vm_compute. exact I.
Qed.

Lemma configure_run iteritems u p cid cs config_file url w :
  iteritems (config_data u p cid cs url) ≡ₚ config_data u p cid cs url ->
  let path := match truthy config_file with
              | None => default_config_file w
              | Some path => path
              end in
  let text := ConfigParser.write (configured (iteritems (config_data u p cid cs url))) in
  configure iteritems u p cid cs config_file url w
  = (Ok tt, log (EvWrite path text) (set_file path text w)).
Proof.
  intros Hperm path text. unfold configure. fold (config_data u p cid cs url).
  unfold bind at 1. unfold lift at 1.
  change (ConfigParser.add_section ConfigParser.empty "gbdx") with (Ok (configured [])).
  cbv iota. unfold bind at 1, lift at 1.
  rewrite set_items_fresh.
  - cbn [app]. subst path text.
    destruct (truthy config_file); reflexivity.
  - cbn [map app]. eapply permuted_keys_NoDup, Hperm.
  - rewrite Hperm. repeat constructor.
Qed.

(** X16: [configure], given the four answers, writes one file: the one
    named or, with no name or an empty one, the default file.  Its text is
    the header of [gbdx], the five options in the order the dictionary
    yields them, and an empty line; a file that was there is replaced, a
    stored token included. *)
Theorem configure_writes_gbdx_section iteritems u p cid cs config_file url w :
  iteritems (config_data u p cid cs url) ≡ₚ config_data u p cid cs url ->
  let path := match truthy config_file with
              | None => default_config_file w
              | Some path => path
              end in
  let items := iteritems (config_data u p cid cs url) in
  let text := "[gbdx]" +:+ ConfigParser.nl
              +:+ ConfigParser.concat (map ConfigParser.write_option items)
              +:+ ConfigParser.nl in
  exists w',
    configure iteritems u p cid cs config_file url w = (Ok tt, w') /\
    events_since w w' = [EvWrite path text] /\
    files w' = <[path := text]> (files w).
Proof.
  intros Hperm path items text.
  rewrite (configure_run iteritems u p cid cs config_file url w Hperm).
  fold path. fold items.
  assert (ConfigParser.write (configured items) = text) as ->.
  { unfold ConfigParser.write, configured, ConfigParser.write_section. cbn.
    change (EmptyString +:+ ?x) with x.
    replace (List.filter (fun kv => negb (String.eqb (fst kv) "__name__")) items) with items.
    - subst text. rewrite !append_assoc, append_nil_r. reflexivity.
    - symmetry. apply forallb_filter_id. apply forallb_forall. intros [k v] Hin.
      cbn. apply list_elem_of_In in Hin.
      assert (k ∈ map fst (config_data u p cid cs url)) as Hk.
      { rewrite <- Hperm. apply list_elem_of_fmap. now exists (k, v). }
      rewrite config_data_keys in Hk.
      repeat (apply elem_of_cons in Hk as [->|Hk]; [reflexivity|]).
      now apply elem_of_nil in Hk. }
  eexists. split; [reflexivity|]. split; [|reflexivity].
  unfold events_since. cbn. apply drop_app_length.
Qed.

Lemma configure_writes_gbdx_section_witness :
  exists w',
    configure (@rev _) "u" "p" "abc" "def" None "https://auth/"
      (sample_world None None) = (Ok tt, w') /\
    events_since (sample_world None None) w'
    = [EvWrite sample_path
         ("[gbdx]" +:+ ConfigParser.nl
          +:+ "client_secret = def" +:+ ConfigParser.nl
          +:+ "client_id = abc" +:+ ConfigParser.nl
          +:+ "user_password = p" +:+ ConfigParser.nl
          +:+ "user_name = u" +:+ ConfigParser.nl
          +:+ "auth_url = https://auth/" +:+ ConfigParser.nl
          +:+ ConfigParser.nl)] /\
    files w'
    = <[sample_path :=
          "[gbdx]" +:+ ConfigParser.nl
          +:+ "client_secret = def" +:+ ConfigParser.nl
          +:+ "client_id = abc" +:+ ConfigParser.nl
          +:+ "user_password = p" +:+ ConfigParser.nl
          +:+ "user_name = u" +:+ ConfigParser.nl
          +:+ "auth_url = https://auth/" +:+ ConfigParser.nl
          +:+ ConfigParser.nl]> (files (sample_world None None)).
Proof.
  apply (configure_writes_gbdx_section (@rev _) "u" "p" "abc" "def" None "https://auth/"
           (sample_world None None)).
  symmetry. apply Permutation_rev.
Defined.

(** The grant exchange of [session_from_config], whatever its answer. *)
Lemma session_from_config_grant path text cfg cid csecret key url user pw w :
  files w !! path = Some text ->
  ConfigParser._read text = Ok cfg ->
  client_credentials cfg w = (Ok (cid, csecret, key), w) ->
  ConfigParser.has_section cfg "gbdx_token" = false ->
  ConfigParser.get cfg "gbdx" "auth_url" = Ok url ->
  ConfigParser.get cfg "gbdx" "user_name" = Ok user ->
  ConfigParser.get cfg "gbdx" "user_password" = Ok pw ->
  List.filter is_grant (events_since w (snd (session_from_config path w)))
  = [EvFetchToken (config_grant_request url user pw key)
       (auth_server w (config_grant_request url user pw key))].
Proof.
  intros Hf Hr Hc Hs Hu Hn Hp.
  destruct (auth_server w (config_grant_request url user pw key)) as [t|] eqn:Ha.
  - rewrite (session_from_config_fresh path text cfg cid csecret key url user pw t w)
      by assumption.
    cbn [snd]. rewrite events_since_log2. reflexivity.
  - unfold session_from_config, ConfigParser_read. munfold.
    rewrite Hf, Hr, Hc, Hs, Hu, Hn, Hp.
    unfold fetch_token. fold (config_grant_request url user pw key).
    rewrite Ha. cbn [snd]. rewrite events_since_log. reflexivity.
Qed.

Lemma alist_get_elem {V} k (v : V) (d : list (string * V)) :
  NoDup (map fst d) -> (k, v) ∈ d -> ConfigParser.alist_get k d = Some v.
Proof.
  induction d as [|[k0 v0] d IH]; cbn; intros Hnd Hin.
  - now apply elem_of_nil in Hin.
  - apply NoDup_cons in Hnd as [Hn Hnd].
    apply elem_of_cons in Hin as [[= <- <-]|Hin].
    + now rewrite String.eqb_refl.
    + destruct (String.eqb_spec k0 k) as [->|Hne]; [|auto].
      exfalso. apply Hn. apply list_elem_of_fmap. now exists (k, v).
Qed.

Lemma configured_get items k v :
  NoDup (map fst items) -> (k, v) ∈ items ->
  str.lower k = k -> str.contains_sub "%(" v = false ->
  ConfigParser.get (configured items) "gbdx" k = Ok v.
Proof.
  intros Hnd Hin Hk Hv. unfold ConfigParser.get, configured. cbn.
  unfold ConfigParser.optionxform. rewrite Hk.
  rewrite (alist_get_elem k v items Hnd Hin).
  unfold ConfigParser._interpolate. now rewrite Hv.
Qed.

(** X17: after [configure], [session_from_config] on the file written
    makes one grant exchange, with the URL, user name and password given
    and the Basic base64 of [client_id:client_secret].  The answers are
    values the ini file keeps as they are (one line, no blank at either
    end, no semicolon after a blank, no [%(]). *)
Theorem configure_then_session iteritems u p cid cs config_file url w :
  iteritems (config_data u p cid cs url) ≡ₚ config_data u p cid cs url ->
  Forall (fun v => value_ok v = true /\ str.contains_sub "%(" v = false)
    [url; u; p; cid; cs] ->
  let path := match truthy config_file with
              | None => default_config_file w
              | Some path => path
              end in
  let w1 := snd (configure iteritems u p cid cs config_file url w) in
  let req := config_grant_request url u p (base64.b64encode (cid +:+ ":" +:+ cs)) in
  List.filter is_grant (events_since w1 (snd (session_from_config path w1)))
  = [EvFetchToken req (auth_server w req)].
Proof.
  intros Hperm Hvals path w1 req. subst w1.
  rewrite (configure_run iteritems u p cid cs config_file url w Hperm).
  fold path. cbn [snd]. set (items := iteritems (config_data u p cid cs url)).
  pose proof (permuted_keys_NoDup items u p cid cs url Hperm) as Hnd.
  apply Forall_cons in Hvals as [[Ho1 Hi1] Hvals].
  apply Forall_cons in Hvals as [[Ho2 Hi2] Hvals].
  apply Forall_cons in Hvals as [[Ho3 Hi3] Hvals].
  apply Forall_cons in Hvals as [[Ho4 Hi4] Hvals].
  apply Forall_cons in Hvals as [[Ho5 Hi5] _].
  assert (forall k v, (k, v) ∈ config_data u p cid cs url -> (k, v) ∈ items) as Hin.
  { intros k v H. subst items. now rewrite Hperm. }
  assert (config_ok (configured items)) as Hok.
  { split; [split; constructor|]. split; [repeat constructor; apply not_elem_of_nil|].
    constructor; [|constructor]. split; [reflexivity|]. split; [exact Hnd|].
    subst items. rewrite Hperm. repeat constructor; assumption. }
  set (w1 := log _ _). change (auth_server w req) with (auth_server w1 req).
  apply (session_from_config_grant path
           (ConfigParser.write (configured items)) (configured items) cid cs).
  - cbn. apply lookup_insert_eq.
  - now apply read_write.
  - apply client_credentials_direct; apply configured_get; auto; apply Hin;
      unfold config_data; set_solver.
  - reflexivity.
  - apply configured_get; auto. apply Hin. unfold config_data. set_solver.
  - apply configured_get; auto. apply Hin. unfold config_data. set_solver.
  - apply configured_get; auto. apply Hin. unfold config_data. set_solver.
Qed.

Lemma configure_then_session_witness :
  let w := sample_world (Some (ConfigParser.write (store_token sample_cfg sample_token)))
             (Some sample_token) in
  let w1 := snd (configure (@rev _) "u" "p" "abc" "def" None "https://auth/" w) in
  List.filter is_grant (events_since w1 (snd (session_from_config sample_path w1)))
  = [EvFetchToken
       (config_grant_request "https://auth/" "u" "p" (base64.b64encode "abc:def"))
       (Some sample_token)].
Proof.
  apply (configure_then_session (@rev _) "u" "p" "abc" "def" None "https://auth/"
           (sample_world (Some (ConfigParser.write (store_token sample_cfg sample_token)))
              (Some sample_token))).
  - symmetry. apply Permutation_rev.
  - repeat constructor.
Defined.

(** ** [gbdx/core.py]: the GET helpers *)

Lemma os_path_join_step path b r :
  str.startswith "/" b = false ->
  os_path_join path (b :: r) = os_path_join (with_slash path +:+ b) r.
Proof.
  intros Hb. cbn [os_path_join]. rewrite Hb. unfold with_slash.
  destruct (_ || _); [reflexivity|]. now rewrite append_assoc.
Qed.

Lemma last_app a c :
  str.last (a +:+ String c EmptyString) = Some c.
Proof.
  induction a as [|x a IH]; [reflexivity|]. rewrite append_cons.
  cbn [str.last]. rewrite IH. destruct a; reflexivity.
Qed.

Lemma with_slash_app a c :
  Ascii.eqb c "/" = false ->
  with_slash (a +:+ String c EmptyString) = a +:+ String c "/".
Proof.
  intros Hc. unfold with_slash. rewrite last_app, Hc.
  destruct a; cbn [String.eqb orb]; rewrite append_assoc; reflexivity.
Qed.

(** The URL of three fixed components and a last one that does not start
    with a slash. *)
Lemma os_path_join_plain base a b c id :
  (forall x, x ∈ [a; b; c] ->
     str.startswith "/" x = false /\
     exists y z, x = y +:+ String z EmptyString /\ Ascii.eqb z "/" = false) ->
  str.startswith "/" id = false ->
  os_path_join base [a; b; c; id]
  = with_slash base +:+ a +:+ "/" +:+ b +:+ "/" +:+ c +:+ "/" +:+ id.
Proof.
  intros H Hid.
  destruct (H a) as (Ha & ya & za & -> & Hza); [apply list_elem_of_here|].
  destruct (H b) as (Hb & yb & zb & -> & Hzb);
    [apply list_elem_of_further, list_elem_of_here|].
  destruct (H c) as (Hc & yc & zc & -> & Hzc);
    [apply list_elem_of_further, list_elem_of_further, list_elem_of_here|].
  rewrite (os_path_join_step _ _ _ Ha).
  rewrite (os_path_join_step _ _ _ Hb).
  rewrite (os_path_join_step _ _ _ Hc).
  rewrite (os_path_join_step _ _ _ Hid). cbn [os_path_join].
  rewrite <- (append_assoc (with_slash base) ya), (with_slash_app _ za Hza).
  rewrite <- (append_assoc _ yb), (with_slash_app _ zb Hzb).
  rewrite <- (append_assoc _ yc), (with_slash_app _ zc Hzc).
  rewrite !append_assoc. reflexivity.
Qed.

Lemma os_path_join_absolute base a b c id :
  str.startswith "/" id = true -> os_path_join base [a; b; c; id] = id.
Proof. intros H. cbn [os_path_join]. now rewrite H. Qed.

Lemma get_json_run (J : Type) (json_of : string -> option J) session url w :
  get_json J json_of session url w
  = let r := http_server w url in
    let w' := log (EvGet url (status_code r)) w in
    if (400 <=? status_code r) && (status_code r <? 600)
    then (Err (HTTPError (status_code r)), w')
    else match json_of (content r) with
         | Some j => (Ok j, w')
         | None => (Err ValueError, w')
         end.
Proof.
  unfold get_json, session_get, raise_for_status. munfold. cbn zeta.
  destruct (_ && _); [reflexivity|]. now destruct (json_of _).
Qed.

(** X18: [get_json] on a status from 400 to 599 raises [HTTPError] with
    that status after the one GET; the body is not decoded. *)
Theorem get_json_http_error (J : Type) (json_of : string -> option J) session url w :
  400 <= status_code (http_server w url) < 600 ->
  get_json J json_of session url w
  = (Err (HTTPError (status_code (http_server w url))),
     log (EvGet url (status_code (http_server w url))) w).
Proof.
  intros H. rewrite get_json_run. cbn zeta.
  replace (400 <=? status_code (http_server w url)) with true by lia.
  replace (status_code (http_server w url) <? 600) with true by lia.
  reflexivity.
Qed.

(** X19: on any other status [get_json] decodes the body, redirects and
    statuses of 600 and more included; a body that is not JSON raises
    [ValueError]. *)
Theorem get_json_decodes (J : Type) (json_of : string -> option J) session url w :
  status_code (http_server w url) < 400 \/ 600 <= status_code (http_server w url) ->
  get_json J json_of session url w
  = (match json_of (content (http_server w url)) with
     | Some j => Ok j
     | None => Err ValueError
     end,
     log (EvGet url (status_code (http_server w url))) w).
Proof.
  intros H. rewrite get_json_run. cbn zeta.
  replace ((400 <=? status_code (http_server w url))
           && (status_code (http_server w url) <? 600)) with false by lia.
  now destruct (json_of _).
Qed.

(** X20: for an id that does not start with a slash,
    [get_order_status] is [get_json] at the base URL followed by
    [orders/v1/status/] and the id, and [get_catalog_record] is [get_json]
    at the base URL followed by [catalog/v1/record/] and the id, one slash
    being added to the base URL unless it ends in one. *)
Theorem record_urls base (J : Type) (json_of : string -> option J) session id w :
  str.startswith "/" id = false ->
  let order_url := with_slash base +:+ "orders/v1/status/" +:+ id in
  let record_url := with_slash base +:+ "catalog/v1/record/" +:+ id in
  get_order_status base J json_of session id w = get_json J json_of session order_url w /\
  get_catalog_record base J json_of session id w = get_json J json_of session record_url w.
Proof.
  intros Hid order_url record_url. unfold get_order_status, get_catalog_record.
  split; rewrite os_path_join_plain; try exact Hid.
  - reflexivity.
  - intros x Hx. repeat (apply elem_of_cons in Hx as [->|Hx]).
    + split; [reflexivity|]. now exists "order"%string, "s"%char.
    + split; [reflexivity|]. now exists "v"%string, "1"%char.
    + split; [reflexivity|]. now exists "statu"%string, "s"%char.
    + now apply elem_of_nil in Hx.
  - reflexivity.
  - intros x Hx. repeat (apply elem_of_cons in Hx as [->|Hx]).
    + split; [reflexivity|]. now exists "catalo"%string, "g"%char.
    + split; [reflexivity|]. now exists "v"%string, "1"%char.
    + split; [reflexivity|]. now exists "recor"%string, "d"%char.
    + now apply elem_of_nil in Hx.
Qed.

(** What [get_thumbnail] does, with what the decoder makes of the body. *)
Lemma get_thumbnail_run base session cat_id show w :
  get_thumbnail base session cat_id show w
  = let url := os_path_join base
                 ["thumbnails"; "v1"; "browse"; cat_id +:+ ".medium.png"]%string in
    let r := http_server w url in
    let w1 := log (EvGet url (status_code r)) w in
    let w2 := log (EvImdecode (content r)) w1 in
    if (400 <=? status_code r) && (status_code r <? 600)
    then (Err (HTTPError (status_code r)), w1)
    else match imdecode w (content r) with
         | Ok (Some img) =>
             (Ok (Some img), if show then log (EvImshow cat_id) w2 else w2)
         | Ok None => (if show then Err cv2_error else Ok None, w2)
         | Err e => (Err e, w2)
         end.
Proof.
  unfold get_thumbnail, session_get, raise_for_status, cv2_imdecode, cv2_show.
  munfold. cbv zeta.
  destruct (_ && _); [reflexivity|]. cbn [imdecode log].
  destruct (imdecode w _) as [[img|]|e]; destruct show; reflexivity.
Qed.

(** X21: an id that starts with a slash replaces the base URL:
    [get_order_status] and [get_catalog_record] GET the id itself, and
    [get_thumbnail] the id followed by [.medium.png]. *)
Theorem absolute_id_drops_base_url base (J : Type) (json_of : string -> option J)
    session id show w :
  str.startswith "/" id = true ->
  get_order_status base J json_of session id w = get_json J json_of session id w /\
  get_catalog_record base J json_of session id w = get_json J json_of session id w /\
  exists w',
    snd (get_thumbnail base session id show w) = w' /\
    hd_error (events_since w w')
    = Some (EvGet (id +:+ ".medium.png")
              (status_code (http_server w (id +:+ ".medium.png")))).
Proof.
  intros Hid. unfold get_order_status, get_catalog_record.
  rewrite !os_path_join_absolute by exact Hid. split; [reflexivity|].
  split; [reflexivity|].
  assert (str.startswith "/" (id +:+ ".medium.png") = true) as Hid'.
  { destruct id as [|c id]; [discriminate|]. rewrite append_cons.
    cbn [str.startswith] in *. destruct (Ascii.eqb "/" c); [|discriminate].
    now destruct (id +:+ ".medium.png"). }
  eexists. split; [reflexivity|].
  rewrite get_thumbnail_run. rewrite (os_path_join_absolute _ _ _ _ _ Hid').
  cbv zeta. unfold events_since.
  destruct (_ && _); cbn [snd]; [cbn; now rewrite drop_app_length|].
  destruct (imdecode w _) as [[img|]|e]; destruct show; cbn;
    rewrite <- ?app_assoc, drop_app_length; reflexivity.
Qed.

Lemma get_json_http_error_witness :
  get_json Token json.loads sample_session "https://geobigdata.io/x" (http_world 503)
  = (Err (HTTPError 503), log (EvGet "https://geobigdata.io/x" 503) (http_world 503)).
Proof.
  apply (get_json_http_error Token json.loads sample_session "https://geobigdata.io/x"
           (http_world 503)).
  cbn. lia.
Defined.

Lemma get_json_decodes_witness :
  get_json Token json.loads sample_session "https://geobigdata.io/x" (http_world 302)
  = (match json.loads (json.dumps sample_token) with
     | Some j => Ok j
     | None => Err ValueError
     end,
     log (EvGet "https://geobigdata.io/x" 302) (http_world 302)).
Proof.
  apply (get_json_decodes Token json.loads sample_session "https://geobigdata.io/x"
           (http_world 302)).
  cbn. lia.
Defined.

Lemma record_urls_witness :
  get_order_status "https://geobigdata.io" Token json.loads sample_session "o17"
    (http_world 200)
  = get_json Token json.loads sample_session
      "https://geobigdata.io/orders/v1/status/o17" (http_world 200) /\
  get_catalog_record "https://geobigdata.io" Token json.loads sample_session "o17"
    (http_world 200)
  = get_json Token json.loads sample_session
      "https://geobigdata.io/catalog/v1/record/o17" (http_world 200).
Proof.
  apply (record_urls "https://geobigdata.io" Token json.loads sample_session "o17"
           (http_world 200)).
  reflexivity.
Defined.

Lemma absolute_id_drops_base_url_witness :
  get_order_status "https://geobigdata.io" Token json.loads sample_session "/etc"
    (http_world 200)
  = get_json Token json.loads sample_session "/etc" (http_world 200).
Proof.
  apply (absolute_id_drops_base_url "https://geobigdata.io" Token json.loads
           sample_session "/etc" true (http_world 200)).
  reflexivity.
Defined.

(** X22: on a status outside 400 to 599 [get_thumbnail] decodes the
    body.  When OpenCV reads an image from it, that image is returned,
    after a window named after the catalog id if [show] is set.  When it
    reads none, [cv2.imdecode] gives [None]: with [show] set
    [cv2.imshow] raises [cv2.error] and nothing is returned, without it
    [None] is returned.  The events are the GET, the decoding and, for an
    image that is shown, the window. *)
Theorem thumbnail_decoded base session cat_id show w :
  let url := os_path_join base
               ["thumbnails"; "v1"; "browse"; cat_id +:+ ".medium.png"]%string in
  let body := content (http_server w url) in
  status_code (http_server w url) < 400 \/ 600 <= status_code (http_server w url) ->
  exists w',
    get_thumbnail base session cat_id show w
    = (match imdecode w body with
       | Ok (Some img) => Ok (Some img)
       | Ok None => if show then Err cv2_error else Ok None
       | Err e => Err e
       end, w') /\
    events_since w w'
    = EvGet url (status_code (http_server w url))
      :: EvImdecode body
      :: match imdecode w body with
         | Ok (Some _) => if show then [EvImshow cat_id] else []
         | _ => []
         end.
Proof.
  intros url body Hs. rewrite get_thumbnail_run. fold url. cbv zeta. fold body.
  replace ((400 <=? status_code (http_server w url))
           && (status_code (http_server w url) <? 600)) with false by lia.
  unfold events_since.
  destruct (imdecode w body) as [[img|]|e]; destruct show; eexists;
    (split; [reflexivity|]); cbn;
    rewrite <- ?app_assoc, drop_app_length; reflexivity.
Qed.

Lemma thumbnail_decoded_witness :
  exists w',
    get_thumbnail "https://geobigdata.io" sample_session "1020010" true image_world
    = (Ok (Some {| pixels_of := "0 0 0 255" |}), w') /\
    events_since image_world w'
    = [EvGet "https://geobigdata.io/thumbnails/v1/browse/1020010.medium.png" 200;
       EvImdecode "PNG..."; EvImshow "1020010"].
Proof.
  apply (thumbnail_decoded "https://geobigdata.io" sample_session "1020010" true
           image_world).
  cbn. lia.
Defined.

(** A body that is no image, here a JSON text: the helper that is to show
    the thumbnail raises [cv2.error], the one that is not returns
    [None]. *)
Lemma thumbnail_of_no_image :
  fst (get_thumbnail "https://geobigdata.io" sample_session "1020010" true
         (http_world 200)) = Err cv2_error /\
  fst (get_thumbnail "https://geobigdata.io" sample_session "1020010" false
         (http_world 200)) = Ok None.
Proof. vm_compute. split; reflexivity. Qed.
